(** * EMV interoperability framework: TLV codec, APDU model, DOL codec and
      transaction engine, embedded from the JavaScript sources

    Sources embedded here:
    - [core/tlv/tlv-parser.js]   (TLVParser, TLVBuilder, DOLParser)
    - [core/apdu/apdu-handler.js] (SW, CommandAPDU, ResponseAPDU)
    - [core/protocol/emv-engine.js] (TransactionContext, EMVProtocolEngine)

    Conventions of the embedding:
    - a Node [Buffer] is a [list Z] of bytes; reading an index outside the
      buffer gives JavaScript's [undefined], modelled by [None];
    - the bit operators of JavaScript work on 32-bit signed integers, so
      [<<], [|], [&] and [>>] are written with the wrap-around made explicit;
    - a JavaScript exception is a constructor of [result]; the [while] loop
      of [TLVParser.parseBuffer] is not bounded by the source (a negative
      decoded length moves the offset backwards), so it takes a fuel. *)

From Stdlib Require Import ZArith Lia Bool Ascii String.
From stdpp Require Import base list strings gmap.

Local Open Scope Z_scope.
Set Warnings "-register-all".

(** ** JavaScript numbers and buffers *)

Module JS.

(** ToInt32: wrap an integer into [-2^31, 2^31). *)
Definition to_int32 (z : Z) : Z := (z + 2147483648) mod 4294967296 - 2147483648.

(** ToInt32 of a value that may be [undefined]: [undefined] converts to 0. *)
Definition int_of (v : option Z) : Z :=
  match v with
  | Some z => to_int32 z
  | None => 0
  end.

(** [a & b], [a | b], [a << n], [a >> n] on numbers. *)
Definition and (a b : Z) : Z := Z.land (to_int32 a) (to_int32 b).
Definition or (a b : Z) : Z := Z.lor (to_int32 a) (to_int32 b).
Definition shl (a n : Z) : Z := to_int32 (Z.shiftl (to_int32 a) n).
Definition sar (a n : Z) : Z := Z.shiftr (to_int32 a) n.

(** Storing a number in a [Buffer] keeps its low eight bits. *)
Definition to_uint8 (z : Z) : Z := z mod 256.

(** [buffer[i]]: [undefined] outside the buffer, also for a negative index. *)
Definition get (buffer : list Z) (i : Z) : option Z :=
  if i <? 0 then None else buffer !! Z.to_nat i.

(** [v === n] for a value [v] that may be [undefined] and a number [n]. *)
Definition strict_eq (v : option Z) (n : Z) : bool :=
  match v with
  | Some z => z =? n
  | None => false
  end.

(** [buffer.length] *)
Definition len (buffer : list Z) : Z := Z.of_nat (length buffer).

(** Index normalisation of [Buffer.prototype.slice]: a negative index counts
    from the end, and the result is clamped to [0, length]. *)
Definition clamp (n i : Z) : Z :=
  if i <? 0 then Z.max (n + i) 0 else Z.min i n.

(** [buffer.slice(start, end)] *)
Definition slice (buffer : list Z) (s e : Z) : list Z :=
  let s' := clamp (len buffer) s in
  let e' := clamp (len buffer) e in
  if s' <? e' then take (Z.to_nat (e' - s')) (drop (Z.to_nat s') buffer) else [].

(** [buffer.slice(start)] *)
Definition slice_from (buffer : list Z) (s : Z) : list Z :=
  slice buffer s (len buffer).

(** [Buffer.alloc(n, 0)] *)
Definition alloc (n : Z) : list Z := replicate (Z.to_nat n) 0.

(** [source.copy(target, targetStart)]: overwrite [target] from index
    [targetStart] with the bytes of [source] that fit. *)
Definition copy (source target : list Z) (targetStart : Z) : list Z :=
  let t := Z.to_nat targetStart in
  let room := (length target - t)%nat in
  let src := take room source in
  take t target ++ src ++ drop (t + length src)%nat target.

End JS.

Arguments JS.len : simpl never.
Arguments JS.get : simpl never.
Arguments JS.slice : simpl never.
Arguments JS.to_int32 : simpl never.
Arguments JS.to_uint8 : simpl never.
Arguments JS.and : simpl never.
Arguments JS.or : simpl never.
Arguments JS.shl : simpl never.
Arguments JS.sar : simpl never.

(** A well-formed buffer holds bytes. *)
Definition byte_ok (b : Z) : Prop := 0 <= b < 256.
Definition bytes_ok (l : list Z) : Prop := Forall byte_ok l.

(** ** Hexadecimal text *)

Module Hex.

(** The upper-case digit of a nibble. *)
Definition digit (n : Z) : ascii :=
  if n <? 10 then ascii_of_nat (Z.to_nat (48 + n))
  else ascii_of_nat (Z.to_nat (55 + n)).

(** The value of a hexadecimal digit, in either case; [None] for any other
    character. *)
Definition value (c : ascii) : option Z :=
  let n := Z.of_nat (nat_of_ascii c) in
  if (48 <=? n) && (n <=? 57) then Some (n - 48)
  else if (65 <=? n) && (n <=? 70) then Some (n - 55)
  else if (97 <=? n) && (n <=? 102) then Some (n - 87)
  else None.

(** [buffer.toString('hex').toUpperCase()] *)
Fixpoint of_bytes (l : list Z) : string :=
  match l with
  | [] => EmptyString
  | b :: l' => String (digit (b / 16)) (String (digit (b mod 16)) (of_bytes l'))
  end.

(** [Buffer.from(s, 'hex')]: decodes pairs of digits and stops at the first
    pair that is not hexadecimal; a trailing single character is dropped. *)
Fixpoint to_bytes (s : string) : list Z :=
  match s with
  | String c1 (String c2 s') =>
      match value c1, value c2 with
      | Some h, Some l => (h * 16 + l) :: to_bytes s'
      | _, _ => []
      end
  | _ => []
  end.

(** The characters that [\s] matches among the 8-bit characters. *)
Definition is_space (c : ascii) : bool :=
  let n := nat_of_ascii c in
  ((9 <=? n) && (n <=? 13))%nat || (n =? 32)%nat || (n =? 160)%nat.

(** [s.replace(/\s/g, '')] *)
Fixpoint strip (s : string) : string :=
  match s with
  | EmptyString => EmptyString
  | String c s' => if is_space c then strip s' else String c (strip s')
  end.

(** The digits of a positive number, most significant first, with [fuel]
    bounding their count. *)
Fixpoint digits (fuel : nat) (z : Z) (acc : string) : string :=
  match fuel with
  | O => acc
  | S fuel' =>
      if z <? 16 then String (digit z) acc
      else digits fuel' (z / 16) (String (digit (z mod 16)) acc)
  end.

(** [n.toString(16).toUpperCase()] for an integer [n]. *)
Definition of_number (z : Z) : string :=
  if z <? 0 then String "-"%char (digits (Z.to_nat (Z.log2 (- z)) + 1) (- z) EmptyString)
  else digits (Z.to_nat (Z.log2 z) + 1) z EmptyString.

(** [s.padStart(2, '0')] *)
Definition padStart2 (s : string) : string :=
  match s with
  | EmptyString => "00"
  | String c EmptyString => String "0"%char s
  | _ => s
  end.

End Hex.

(** ** Results of calls that may throw *)

Inductive exn : Type :=
  | TypeError              (* a property read on [undefined] *)
  | RangeError             (* [String.prototype.repeat] with a negative count *)
  | Error (msg : string).  (* [throw new Error(msg)] *)

Inductive result (A : Type) : Type :=
  | Ok (a : A)
  | Throw (e : exn)
  | OutOfFuel.

Arguments Ok {A} a.
Arguments Throw {A} e.
Arguments OutOfFuel {A}.

Definition bind {A B : Type} (r : result A) (k : A -> result B) : result B :=
  match r with
  | Ok a => k a
  | Throw e => Throw e
  | OutOfFuel => OutOfFuel
  end.

Notation "'do' x <- r ; k" := (bind r (fun x => k))
  (at level 10, x name, r at level 100, k at level 200).

(** ** TLV objects (core/tlv/tlv-parser.js)

    The object built by [parseBuffer].  Its [name] field, a label looked up
    in the table [EMV_TAGS] for display, is left out.  [length] is optional
    because [parseLength] returns [undefined] when the length byte lies
    outside the buffer. *)

Module TLVObject.
Inductive t : Type := mk {
  tag : Z;
  tagHex : string;
  length : option Z;
  value : list Z;
  valueHex : string;
  constructed : bool;
  children : list t
}.
End TLVObject.

Module TLVParser.

(** The body of the [do ... while] of [parseTag].  [rest] holds the bytes of
    the buffer from index [offset + tagLength] on; reading past the end
    gives [undefined], which ORs as 0 and ends the loop. *)
Fixpoint parseTag_loop (rest : list Z) (tag tagLength : Z) : Z * Z :=
  match rest with
  | [] => (JS.or (JS.shl tag 8) 0, tagLength + 1)
  | b :: rest' =>
      let tag' := JS.or (JS.shl tag 8) b in
      if JS.and b 128 =? 128 then parseTag_loop rest' tag' (tagLength + 1)
      else (tag', tagLength + 1)
  end.

(** [parseTag(buffer, offset)] returns [{tag, tagLength}]; the tag is
    [undefined] when [offset] is outside the buffer. *)
Definition parseTag (buffer : list Z) (offset : Z) : option Z * Z :=
  match JS.get buffer offset with
  | None => (None, 1)
  | Some tag =>
      if JS.and tag 31 =? 31 then
        let '(tag', tagLength) :=
          parseTag_loop (drop (Z.to_nat offset + 1) buffer) tag 1 in
        (Some tag', tagLength)
      else (Some tag, 1)
  end.

(** The [for] loop of [parseLength]: [n] iterations remain, [i] is the loop
    index. *)
Fixpoint parseLength_loop (buffer : list Z) (offset : Z) (n : nat) (i : Z)
    (length : Z) : Z :=
  match n with
  | O => length
  | S n' =>
      parseLength_loop buffer offset n' (i + 1)
        (JS.or (JS.shl length 8) (JS.int_of (JS.get buffer (offset + i))))
  end.

(** [parseLength(buffer, offset)] returns [{length, lengthBytes}]. *)
Definition parseLength (buffer : list Z) (offset : Z) : option Z * Z :=
  let firstByte := JS.get buffer offset in
  if JS.and (JS.int_of firstByte) 128 =? 0 then (firstByte, 1)
  else
    let numLengthBytes := JS.and (JS.int_of firstByte) 127 in
    (Some (parseLength_loop buffer offset (Z.to_nat numLengthBytes) 1 0),
     numLengthBytes + 1).

(** [isConstructedTag(tag)] *)
Definition isConstructedTag (tag : Z) : bool :=
  let firstByte := if 255 <? tag then JS.and (JS.sar tag 8) 255 else tag in
  JS.and firstByte 32 =? 32.

(** [tag.toString(16).toUpperCase().padStart(2, '0')] *)
Definition tagHexOf (tag : Z) : string := Hex.padStart2 (Hex.of_number tag).

(** [buffer[offset] === 0x00 || buffer[offset] === 0xFF] *)
Definition is_padding (b : option Z) : bool :=
  JS.strict_eq b 0 || JS.strict_eq b 255.

(** [parseBuffer(buffer, offset, endOffset)].  One unit of fuel is spent per
    iteration of the [while] loop and per level of nesting.  The offset
    becomes NaN when the length is [undefined]; the loop test is then false
    and the loop ends. *)
Fixpoint parseBuffer (fuel : nat) (buffer : list Z) (offset endOffset : Z)
    : result (list TLVObject.t) :=
  match fuel with
  | O => OutOfFuel
  | S fuel' =>
      if negb (offset <? endOffset) then Ok []
      else if is_padding (JS.get buffer offset) then
        parseBuffer fuel' buffer (offset + 1) endOffset
      else
        let '(tag, tagLength) := parseTag buffer offset in
        let offset1 := offset + tagLength in
        let '(length, lengthBytes) := parseLength buffer offset1 in
        let offset2 := offset1 + lengthBytes in
        let value :=
          match length with
          | Some n => JS.slice buffer offset2 (offset2 + n)
          | None => []   (* slice(offset, NaN) is empty *)
          end in
        match tag with
        | None => Throw TypeError   (* tag.toString on undefined *)
        | Some tag =>
            let isConstructed := isConstructedTag tag in
            do children <-
              (if isConstructed then parseBuffer fuel' value 0 (JS.len value)
               else Ok []);
            let tlvObject :=
              TLVObject.mk tag (tagHexOf tag) length value (Hex.of_bytes value)
                isConstructed children in
            do rest <-
              (match length with
               | Some n => parseBuffer fuel' buffer (offset2 + n) endOffset
               | None => Ok []
               end);
            Ok (tlvObject :: rest)
        end
  end.

(** [parse(hexData)] *)
Definition parse (fuel : nat) (hexData : string) : result (list TLVObject.t) :=
  let buffer := Hex.to_bytes (Hex.strip hexData) in
  parseBuffer fuel buffer 0 (JS.len buffer).

(** [s.toUpperCase()] on 8-bit characters (the three whose upper case lies
    outside this range are left as they are). *)
Definition upper_char (c : ascii) : ascii :=
  let n := nat_of_ascii c in
  if ((97 <=? n) && (n <=? 122))%nat then ascii_of_nat (n - 32)
  else if ((224 <=? n) && (n <=? 254) && negb (n =? 247))%nat then ascii_of_nat (n - 32)
  else c.

Fixpoint toUpperCase (s : string) : string :=
  match s with
  | EmptyString => EmptyString
  | String c s' => String (upper_char c) (toUpperCase s')
  end.

(** [findTag(tlvArray, tagHex)], with [null] as [None]: the first object in
    document order whose [tagHex] is the search tag. *)
Fixpoint findTag_in (searchTag : string) (tlv : TLVObject.t) : option TLVObject.t :=
  if String.eqb (TLVObject.tagHex tlv) searchTag then Some tlv
  else if TLVObject.constructed tlv
          && (0 <? Z.of_nat (length (TLVObject.children tlv))) then
    (fix scan (l : list TLVObject.t) : option TLVObject.t :=
       match l with
       | [] => None
       | c :: l' =>
           match findTag_in searchTag c with
           | Some found => Some found
           | None => scan l'
           end
       end) (TLVObject.children tlv)
  else None.

Fixpoint findTag_scan (searchTag : string) (l : list TLVObject.t) : option TLVObject.t :=
  match l with
  | [] => None
  | tlv :: l' =>
      match findTag_in searchTag tlv with
      | Some found => Some found
      | None => findTag_scan searchTag l'
      end
  end.

Definition findTag (tlvArray : list TLVObject.t) (tagHex : string) : option TLVObject.t :=
  findTag_scan (toUpperCase tagHex) tlvArray.

(** [findAllTags(tlvArray, tagHex)]: every object whose [tagHex] is the
    search tag, in document order; the search goes on below a match. *)
Fixpoint findAllTags_in (searchTag : string) (tlv : TLVObject.t) : list TLVObject.t :=
  (if String.eqb (TLVObject.tagHex tlv) searchTag then [tlv] else [])
  ++ (if TLVObject.constructed tlv
         && (0 <? Z.of_nat (length (TLVObject.children tlv))) then
        (fix scan (l : list TLVObject.t) : list TLVObject.t :=
           match l with
           | [] => []
           | c :: l' => findAllTags_in searchTag c ++ scan l'
           end) (TLVObject.children tlv)
      else []).

Fixpoint findAllTags_scan (searchTag : string) (l : list TLVObject.t) : list TLVObject.t :=
  match l with
  | [] => []
  | tlv :: l' => findAllTags_in searchTag tlv ++ findAllTags_scan searchTag l'
  end.

Definition findAllTags (tlvArray : list TLVObject.t) (tagHex : string) : list TLVObject.t :=
  findAllTags_scan (toUpperCase tagHex) tlvArray.

End TLVParser.

(** ** TLVBuilder (core/tlv/tlv-parser.js) *)

Module TLVBuilder.

(** An element of [this.tlvData]. *)
Record item : Type := mkItem {
  tag : string;
  value : list Z;
  constructed : bool
}.

(** [encodeTag(tagHex)] *)
Definition encodeTag (tagHex : string) : list Z := Hex.to_bytes tagHex.

(** [encodeLength(length)]; [Buffer.from] keeps the low byte of each
    element. *)
Definition encodeLength (length : Z) : list Z :=
  if length <? 128 then [JS.to_uint8 length]
  else if length <? 256 then [129; JS.to_uint8 length]
  else if length <? 65536 then
    [130; JS.to_uint8 (JS.and (JS.sar length 8) 255);
          JS.to_uint8 (JS.and length 255)]
  else
    [131; JS.to_uint8 (JS.and (JS.sar length 16) 255);
          JS.to_uint8 (JS.and (JS.sar length 8) 255);
          JS.to_uint8 (JS.and length 255)].

(** [build()]: tag, length and value of every item, concatenated. *)
Fixpoint build (tlvData : list item) : list Z :=
  match tlvData with
  | [] => []
  | it :: rest =>
      encodeTag (tag it) ++ encodeLength (JS.len (value it)) ++ value it
        ++ build rest
  end.

(** [buildHex()] *)
Definition buildHex (tlvData : list item) : string := Hex.of_bytes (build tlvData).

(** A value handed to [addPrimitive]: a [Buffer] or a hexadecimal string. *)
Inductive input : Type :=
  | Buf (b : list Z)
  | Str (s : string).

Definition to_buffer (v : input) : list Z :=
  match v with
  | Buf b => b
  | Str s => Hex.to_bytes (Hex.strip s)
  end.

(** [addPrimitive(tagHex, value)], on the builder's [tlvData]. *)
Definition addPrimitive (tagHex : string) (v : input) (tlvData : list item) : list item :=
  tlvData ++ [mkItem (TLVParser.toUpperCase tagHex) (to_buffer v) false].

(** A use of the builder: a sequence of [addPrimitive] and [addConstructed]
    calls, where the [buildFn] of an [addConstructed] is itself such a
    sequence on the child builder. *)
Inductive call : Type :=
  | Primitive (tagHex : string) (v : input)
  | Constructed (tagHex : string) (buildFn : list call).

(** Running a sequence of calls on a builder; [addConstructed] runs
    [buildFn] on a fresh child builder and stores [childBuilder.build()]. *)
Fixpoint run_call (c : call) (tlvData : list item) : list item :=
  match c with
  | Primitive tagHex v => addPrimitive tagHex v tlvData
  | Constructed tagHex buildFn =>
      let childData :=
        (fix run (cs : list call) (acc : list item) : list item :=
           match cs with
           | [] => acc
           | c' :: cs' => run cs' (run_call c' acc)
           end) buildFn [] in
      tlvData ++ [mkItem (TLVParser.toUpperCase tagHex) (build childData) true]
  end.

Fixpoint run (cs : list call) (tlvData : list item) : list item :=
  match cs with
  | [] => tlvData
  | c :: cs' => run cs' (run_call c tlvData)
  end.

(** [new TLVBuilder()] followed by the calls [cs] and [build()]. *)
Definition built (cs : list call) : list Z := build (run cs []).

End TLVBuilder.

(** ** DOLParser (core/tlv/tlv-parser.js) *)

Module DOLParser.

(** A DOL entry; [length] is [undefined] when the DOL ends right after a
    tag.  The display [name] is left out. *)
Record entry : Type := mkEntry {
  tag : Z;
  tagHex : string;
  length : option Z
}.

(** The [while] loop of [parse]; every iteration moves the offset forward,
    so the buffer length bounds the iterations. *)
Fixpoint parse_loop (fuel : nat) (buffer : list Z) (offset : Z) : result (list entry) :=
  match fuel with
  | O => if offset <? JS.len buffer then OutOfFuel else Ok []
  | S fuel' =>
      if negb (offset <? JS.len buffer) then Ok []
      else
        let '(tag, tagLength) := TLVParser.parseTag buffer offset in
        let offset1 := offset + tagLength in
        let length := JS.get buffer offset1 in
        match tag with
        | None => Throw TypeError
        | Some tag =>
            do rest <- parse_loop fuel' buffer (offset1 + 1);
            Ok (mkEntry tag (TLVParser.tagHexOf tag) length :: rest)
        end
  end.

(** [parse(dolHex)] *)
Definition parse (dolHex : string) : result (list entry) :=
  let buffer := Hex.to_bytes (Hex.strip dolHex) in
  parse_loop (List.length buffer) buffer 0.

(** ['00'.repeat(n)] for a count [n >= 0]. *)
Fixpoint repeat00 (n : nat) : string :=
  match n with
  | O => EmptyString
  | S n' => String "0"%char (String "0"%char (repeat00 n'))
  end.

(** The hexadecimal text used for an entry: the supplied one unless it is
    missing or the empty string. *)
Definition value_for (e : entry) (values : gmap string string) : result string :=
  let zeros :=
    match length e with
    | None => Ok EmptyString                      (* repeat(undefined) *)
    | Some n => if n <? 0 then Throw RangeError else Ok (repeat00 (Z.to_nat n))
    end in
  match values !! tagHex e with
  | Some EmptyString => zeros
  | Some v => Ok v
  | None => zeros
  end.

(** The buffer pushed for one entry: padded, truncated or as it is. *)
Definition fit (e : entry) (valueBuffer : list Z) : list Z :=
  match length e with
  | None => valueBuffer
  | Some n =>
      if JS.len valueBuffer <? n then
        JS.copy valueBuffer (JS.alloc n) (n - JS.len valueBuffer)
      else if n <? JS.len valueBuffer then
        JS.slice_from valueBuffer (JS.len valueBuffer - n)
      else valueBuffer
  end.

(** [buildData(dolEntries, values)] *)
Fixpoint buildData (dolEntries : list entry) (values : gmap string string)
    : result (list Z) :=
  match dolEntries with
  | [] => Ok []
  | e :: rest =>
      do value <- value_for e values;
      let valueBuffer := Hex.to_bytes (Hex.strip value) in
      do tail <- buildData rest values;
      Ok (fit e valueBuffer ++ tail)
  end.

End DOLParser.

(** ** Status words and APDUs (core/apdu/apdu-handler.js) *)

Module SW.

Definition isSuccess (sw : Z) : bool :=
  (sw =? 36864) || ((37120 <=? sw) && (sw <=? 37375)).

Definition hasMoreData (sw : Z) : bool := JS.and sw 65280 =? 24832.

Definition getBytesAvailable (sw : Z) : Z :=
  if JS.and sw 65280 =? 24832 then JS.and sw 255 else 0.

End SW.

Module CommandAPDU.

(** [data] and [le] are [null] when absent.  A [Buffer] is truthy even when
    it is empty, so an empty [data] counts as present. *)
Record t : Type := mk {
  cla : Z;
  ins : Z;
  p1 : Z;
  p2 : Z;
  data : option (list Z);
  le : option Z
}.

(** [get case()] *)
Definition case (a : t) : Z :=
  match data a, le a with
  | None, None => 1
  | None, Some _ => 2
  | Some _, None => 3
  | Some _, Some _ => 4
  end.

(** The byte written for Le: [this.le === 256 ? 0 : this.le]. *)
Definition le_byte (le : Z) : Z := JS.to_uint8 (if le =? 256 then 0 else le).

(** [toBuffer()] *)
Definition toBuffer (a : t) : list Z :=
  let header := [JS.to_uint8 (cla a); JS.to_uint8 (ins a);
                 JS.to_uint8 (p1 a); JS.to_uint8 (p2 a)] in
  match data a, le a with
  | None, None => header
  | None, Some l => header ++ [le_byte l]
  | Some d, None => header ++ [JS.to_uint8 (JS.len d)] ++ d
  | Some d, Some l => header ++ [JS.to_uint8 (JS.len d)] ++ d ++ [le_byte l]
  end.

(** [fromBuffer(buffer)] *)
Definition fromBuffer (buffer : list Z) : result t :=
  match buffer with
  | cla :: ins :: p1 :: p2 :: body =>
      match body with
      | [] => Ok (mk cla ins p1 p2 None None)
      | [b4] => Ok (mk cla ins p1 p2 None (Some (if b4 =? 0 then 256 else b4)))
      | lc :: _ =>
          if JS.len buffer =? 5 + lc then
            Ok (mk cla ins p1 p2 (Some (JS.slice buffer 5 (5 + lc))) None)
          else if JS.len buffer =? 6 + lc then
            match JS.get buffer (5 + lc) with
            | Some b =>
                Ok (mk cla ins p1 p2 (Some (JS.slice buffer 5 (5 + lc)))
                      (Some (if b =? 0 then 256 else b)))
            | None => Throw TypeError   (* not reached: 5 + lc is the last index *)
            end
          else Throw (Error "Invalid APDU: incorrect length")
      end
  | _ => Throw (Error "Invalid APDU: too short")
  end.

End CommandAPDU.

(** The command factory. *)
Module EMVCommands.

(** [select(aidHex, first)] *)
Definition select (aidHex : string) (first : bool) : CommandAPDU.t :=
  let aid := Hex.to_bytes (Hex.strip aidHex) in
  CommandAPDU.mk 0 164 4 (if first then 0 else 2) (Some aid) (Some 0).

(** [selectPPSE()] *)
Definition selectPPSE : CommandAPDU.t := select "325041592E5359532E4444463031" true.

(** [getProcessingOptions(pdolData)]: the data after the tag 83 and one
    length byte. *)
Definition getProcessingOptions (pdolData : TLVBuilder.input) : CommandAPDU.t :=
  let data := TLVBuilder.to_buffer pdolData in
  let commandData := [131; JS.to_uint8 (JS.len data)] ++ data in
  CommandAPDU.mk 128 168 0 0 (Some commandData) (Some 0).

(** [readRecord(recordNumber, sfi)] *)
Definition readRecord (recordNumber sfi : Z) : CommandAPDU.t :=
  CommandAPDU.mk 0 178 recordNumber (JS.or (JS.shl sfi 3) 4) None (Some 0).

(** [generateAC(cryptogramType, cdolData)] *)
Definition generateAC (cryptogramType : Z) (cdolData : TLVBuilder.input) : CommandAPDU.t :=
  CommandAPDU.mk 128 174 cryptogramType 0 (Some (TLVBuilder.to_buffer cdolData)) (Some 0).

(** [getChallenge(length)] *)
Definition getChallenge (length : Z) : CommandAPDU.t :=
  CommandAPDU.mk 0 132 0 0 None (Some length).

End EMVCommands.

Module ResponseAPDU.

Record t : Type := mk {
  data : list Z;
  sw1 : Z;
  sw2 : Z
}.

(** [get sw()] *)
Definition sw (r : t) : Z := JS.or (JS.shl (sw1 r) 8) (sw2 r).

(** [get isSuccess()] *)
Definition isSuccess (r : t) : bool := SW.isSuccess (sw r).

(** [fromBuffer(buffer)] *)
Definition fromBuffer (buffer : list Z) : result t :=
  if JS.len buffer <? 2 then Throw (Error "Invalid response: too short")
  else
    match JS.get buffer (JS.len buffer - 2), JS.get buffer (JS.len buffer - 1) with
    | Some s1, Some s2 => Ok (mk (JS.slice buffer 0 (JS.len buffer - 2)) s1 s2)
    | _, _ => Throw TypeError
    end.

(** [success(data)] *)
Definition success (data : list Z) : t := mk data 144 0.

(** [error(sw)] *)
Definition error (sw : Z) : t :=
  mk [] (JS.and (JS.sar sw 8) 255) (JS.and sw 255).

(** [toBuffer()] *)
Definition toBuffer (r : t) : list Z :=
  data r ++ [JS.to_uint8 (sw1 r); JS.to_uint8 (sw2 r)].

(** [get hasMoreData()] and [get bytesAvailable()] *)
Definition hasMoreData (r : t) : bool := SW.hasMoreData (sw r).
Definition bytesAvailable (r : t) : Z := SW.getBytesAvailable (sw r).

End ResponseAPDU.

(** ** Transaction context and protocol engine (core/protocol/emv-engine.js) *)

Inductive TransactionState : Type :=
  | IDLE
  | APPLICATION_SELECTION
  | INITIATE_APPLICATION_PROCESSING
  | READ_APPLICATION_DATA
  | OFFLINE_DATA_AUTHENTICATION
  | PROCESSING_RESTRICTIONS
  | CARDHOLDER_VERIFICATION
  | TERMINAL_RISK_MANAGEMENT
  | TERMINAL_ACTION_ANALYSIS
  | CARD_ACTION_ANALYSIS
  | ONLINE_PROCESSING
  | ISSUER_SCRIPT_PROCESSING
  | COMPLETION
  | ERROR.

Module CryptogramType.
Definition AAC : Z := 0.
Definition TC : Z := 64.
Definition ARQC : Z := 128.
End CryptogramType.

Module KernelID.
Definition C6 : Z := 6.
Definition C8 : Z := 8.
End KernelID.

(** An entry of [parseAFL]; the three record bytes are [undefined] when the
    AFL stops inside a group of four. *)
Record AFLEntry : Type := mkAFL {
  sfi : Z;
  firstRecord : option Z;
  lastRecord : option Z;
  numODARecords : option Z
}.

(** Entries of [ctx.errors], [ctx.warnings], [ctx.interopIssues] and
    [ctx.log].  Free text ([message], [recommendation], [details]) and the
    [timestamp] are left out. *)
Record ErrorEntry : Type := mkError {
  err_phase : string;
  err_sw : option Z
}.

Record WarningEntry : Type := mkWarning {
  warn_phase : string;
  warn_sfi : Z;
  warn_record : Z;
  warn_sw : Z
}.

Inductive Severity : Type := CRITICAL | SEV_ERROR | WARNING | INFO.

Record InteropIssue : Type := mkIssue {
  issue_state : TransactionState;
  issue_type : string;
  issue_severity : Severity
}.

Record LogEntry : Type := mkLog {
  log_state : TransactionState;
  log_event : string
}.

Record ReadRecord : Type := mkRecord {
  rec_sfi : Z;
  rec_record : Z;
  rec_data : list TLVObject.t
}.

(** The fields of [TransactionContext] that the engine's response
    processing reads or writes. *)
Record TransactionContext : Type := mkCtx {
  state : TransactionState;
  kernel : option Z;
  fci : option (list TLVObject.t);
  pdol : option (list DOLParser.entry);
  aip : option (list Z);
  afl : option (list AFLEntry);
  records : list ReadRecord;
  cardData : gmap string string;
  cdol1 : option (list DOLParser.entry);
  cdol2 : option (list DOLParser.entry);
  cryptogram : option (list Z);
  cryptogramType : option Z;
  log : list LogEntry;
  errors : list ErrorEntry;
  warnings : list WarningEntry;
  interopIssues : list InteropIssue
}.

(** [new TransactionContext()] *)
Definition newContext : TransactionContext :=
  mkCtx IDLE None None None None None [] ∅ None None None None [] [] [] [].

Section Setters.
Variable c : TransactionContext.

Definition set_state (v : TransactionState) : TransactionContext :=
  mkCtx v (kernel c) (fci c) (pdol c) (aip c) (afl c) (records c) (cardData c)
    (cdol1 c) (cdol2 c) (cryptogram c) (cryptogramType c) (log c) (errors c)
    (warnings c) (interopIssues c).
Definition set_kernel (v : option Z) : TransactionContext :=
  mkCtx (state c) v (fci c) (pdol c) (aip c) (afl c) (records c) (cardData c)
    (cdol1 c) (cdol2 c) (cryptogram c) (cryptogramType c) (log c) (errors c)
    (warnings c) (interopIssues c).
Definition set_fci (v : option (list TLVObject.t)) : TransactionContext :=
  mkCtx (state c) (kernel c) v (pdol c) (aip c) (afl c) (records c) (cardData c)
    (cdol1 c) (cdol2 c) (cryptogram c) (cryptogramType c) (log c) (errors c)
    (warnings c) (interopIssues c).
Definition set_pdol (v : option (list DOLParser.entry)) : TransactionContext :=
  mkCtx (state c) (kernel c) (fci c) v (aip c) (afl c) (records c) (cardData c)
    (cdol1 c) (cdol2 c) (cryptogram c) (cryptogramType c) (log c) (errors c)
    (warnings c) (interopIssues c).
Definition set_aip (v : option (list Z)) : TransactionContext :=
  mkCtx (state c) (kernel c) (fci c) (pdol c) v (afl c) (records c) (cardData c)
    (cdol1 c) (cdol2 c) (cryptogram c) (cryptogramType c) (log c) (errors c)
    (warnings c) (interopIssues c).
Definition set_afl (v : option (list AFLEntry)) : TransactionContext :=
  mkCtx (state c) (kernel c) (fci c) (pdol c) (aip c) v (records c) (cardData c)
    (cdol1 c) (cdol2 c) (cryptogram c) (cryptogramType c) (log c) (errors c)
    (warnings c) (interopIssues c).
Definition set_records (v : list ReadRecord) : TransactionContext :=
  mkCtx (state c) (kernel c) (fci c) (pdol c) (aip c) (afl c) v (cardData c)
    (cdol1 c) (cdol2 c) (cryptogram c) (cryptogramType c) (log c) (errors c)
    (warnings c) (interopIssues c).
Definition set_cardData (v : gmap string string) : TransactionContext :=
  mkCtx (state c) (kernel c) (fci c) (pdol c) (aip c) (afl c) (records c) v
    (cdol1 c) (cdol2 c) (cryptogram c) (cryptogramType c) (log c) (errors c)
    (warnings c) (interopIssues c).
Definition set_cdol1 (v : option (list DOLParser.entry)) : TransactionContext :=
  mkCtx (state c) (kernel c) (fci c) (pdol c) (aip c) (afl c) (records c)
    (cardData c) v (cdol2 c) (cryptogram c) (cryptogramType c) (log c)
    (errors c) (warnings c) (interopIssues c).
Definition set_cdol2 (v : option (list DOLParser.entry)) : TransactionContext :=
  mkCtx (state c) (kernel c) (fci c) (pdol c) (aip c) (afl c) (records c)
    (cardData c) (cdol1 c) v (cryptogram c) (cryptogramType c) (log c)
    (errors c) (warnings c) (interopIssues c).
Definition set_cryptogram (v : option (list Z)) : TransactionContext :=
  mkCtx (state c) (kernel c) (fci c) (pdol c) (aip c) (afl c) (records c)
    (cardData c) (cdol1 c) (cdol2 c) v (cryptogramType c) (log c) (errors c)
    (warnings c) (interopIssues c).
Definition set_cryptogramType (v : option Z) : TransactionContext :=
  mkCtx (state c) (kernel c) (fci c) (pdol c) (aip c) (afl c) (records c)
    (cardData c) (cdol1 c) (cdol2 c) (cryptogram c) v (log c) (errors c)
    (warnings c) (interopIssues c).
Definition set_log (v : list LogEntry) : TransactionContext :=
  mkCtx (state c) (kernel c) (fci c) (pdol c) (aip c) (afl c) (records c)
    (cardData c) (cdol1 c) (cdol2 c) (cryptogram c) (cryptogramType c) v
    (errors c) (warnings c) (interopIssues c).
Definition set_errors (v : list ErrorEntry) : TransactionContext :=
  mkCtx (state c) (kernel c) (fci c) (pdol c) (aip c) (afl c) (records c)
    (cardData c) (cdol1 c) (cdol2 c) (cryptogram c) (cryptogramType c) (log c)
    v (warnings c) (interopIssues c).
Definition set_warnings (v : list WarningEntry) : TransactionContext :=
  mkCtx (state c) (kernel c) (fci c) (pdol c) (aip c) (afl c) (records c)
    (cardData c) (cdol1 c) (cdol2 c) (cryptogram c) (cryptogramType c) (log c)
    (errors c) v (interopIssues c).
Definition set_interopIssues (v : list InteropIssue) : TransactionContext :=
  mkCtx (state c) (kernel c) (fci c) (pdol c) (aip c) (afl c) (records c)
    (cardData c) (cdol1 c) (cdol2 c) (cryptogram c) (cryptogramType c) (log c)
    (errors c) (warnings c) v.

(** [ctx.logEvent(event, details)] *)
Definition logEvent (event : string) : TransactionContext :=
  set_log (log c ++ [mkLog (state c) event]).

(** [ctx.recordInteropIssue(issue)] *)
Definition recordInteropIssue (type : string) (severity : Severity) : TransactionContext :=
  set_interopIssues (interopIssues c ++ [mkIssue (state c) type severity]).

End Setters.

(** [ctx.addCardData(tlvArray)]: every tag of the tree, in document order,
    a later value replacing an earlier one. *)
Fixpoint addRecursive_in (tlv : TLVObject.t) (m : gmap string string) : gmap string string :=
  let m1 := <[TLVObject.tagHex tlv := TLVObject.valueHex tlv]> m in
  if TLVObject.constructed tlv
     && (0 <? Z.of_nat (length (TLVObject.children tlv))) then
    (fix each (l : list TLVObject.t) (m : gmap string string) : gmap string string :=
       match l with
       | [] => m
       | c :: l' => each l' (addRecursive_in c m)
       end) (TLVObject.children tlv) m1
  else m1.

Fixpoint addRecursive (tlvList : list TLVObject.t) (m : gmap string string) : gmap string string :=
  match tlvList with
  | [] => m
  | tlv :: l' => addRecursive l' (addRecursive_in tlv m)
  end.

Definition addCardData (c : TransactionContext) (tlvArray : list TLVObject.t) : TransactionContext :=
  set_cardData c (addRecursive tlvArray (cardData c)).

Module EMVProtocolEngine.

(** [response.data.toString('hex')] prints lower-case digits where
    [Hex.of_bytes] prints upper-case ones; [Buffer.from(_, 'hex')] reads both
    alike, so the text handed to [TLVParser.parse] decodes to the same
    bytes. *)
Definition toHex (data : list Z) : string := Hex.of_bytes data.

(** [validateFFI(ctx, ffiTag)]; [detect] is [this.options.detectInteropIssues]. *)
Definition validateFFI (detect : bool) (ctx : TransactionContext) (ffiTag : TLVObject.t)
    : TransactionContext :=
  if negb detect then ctx
  else
    let ffi := Hex.to_bytes (TLVObject.valueHex ffiTag) in
    let ctx :=
      if JS.len ffi <? 4 then recordInteropIssue ctx "FFI_LENGTH" WARNING
      else ctx in
    let formFactor := JS.and (JS.int_of (JS.get ffi 1)) 15 in
    let validFormFactors := [0; 1; 2; 3; 4; 5; 6] in
    let ctx :=
      if negb (existsb (Z.eqb formFactor) validFormFactors) then
        recordInteropIssue ctx "FFI_INVALID_FORM_FACTOR" SEV_ERROR
      else ctx in
    if JS.strict_eq (kernel ctx) KernelID.C8 then
      recordInteropIssue ctx "FFI_C8_KERNEL" INFO
    else ctx.

(** [validatePAR(ctx, parTag)] *)
Definition validatePAR (detect : bool) (ctx : TransactionContext) (parTag : TLVObject.t)
    : TransactionContext :=
  if negb detect then ctx
  else
    let par := TLVObject.valueHex parTag in
    let ctx :=
      if negb (Nat.eqb (String.length par) 58) then
        recordInteropIssue ctx "PAR_LENGTH" WARNING
      else ctx in
    recordInteropIssue ctx "PAR_LEGACY_CHECK" INFO.

(** [processSelectResponse(ctx, response)] returns the boolean result with
    the updated context. *)
Definition processSelectResponse (detect : bool) (fuel : nat)
    (ctx : TransactionContext) (response : ResponseAPDU.t)
    : result (TransactionContext * bool) :=
  if negb (ResponseAPDU.isSuccess response) then
    let ctx := set_errors ctx
      (errors ctx ++ [mkError "SELECT" (Some (ResponseAPDU.sw response))]) in
    Ok (set_state ctx ERROR, false)
  else
    do fciTLV <- TLVParser.parse fuel (toHex (ResponseAPDU.data response));
    let ctx := set_fci ctx (Some fciTLV) in
    let ctx := addCardData ctx fciTLV in
    do ctx <-
      (match TLVParser.findTag fciTLV "9F38" with
       | Some pdolTag =>
           do p <- DOLParser.parse (TLVObject.valueHex pdolTag);
           Ok (logEvent (set_pdol ctx (Some p)) "PDOL_FOUND")
       | None => Ok ctx
       end);
    let ctx :=
      match TLVParser.findTag fciTLV "9F2A" with
      | Some kernelId =>
          logEvent (set_kernel ctx (JS.get (TLVObject.value kernelId) 0))
            "KERNEL_IDENTIFIED"
      | None => ctx
      end in
    let ctx :=
      match TLVParser.findTag fciTLV "9F6E" with
      | Some ffi => validateFFI detect (logEvent ctx "FFI_FOUND") ffi
      | None => ctx
      end in
    Ok (set_state ctx INITIATE_APPLICATION_PROCESSING, true).

(** [parseAFL(aflData)]: the index advances by four, so [length aflData]
    iterations are enough and the loop has ended when they are used up. *)
Fixpoint parseAFL_loop (n : nat) (aflData : list Z) (i : Z) : list AFLEntry :=
  match n with
  | O => []
  | S n' =>
      if i <? JS.len aflData then
        mkAFL (JS.sar (JS.and (JS.int_of (JS.get aflData i)) 248) 3)
              (JS.get aflData (i + 1))
              (JS.get aflData (i + 2))
              (JS.get aflData (i + 3))
          :: parseAFL_loop n' aflData (i + 4)
      else []
  end.

Definition parseAFL (aflData : list Z) : list AFLEntry :=
  parseAFL_loop (length aflData) aflData 0.

(** [processGPOResponse(ctx, response)] *)
Definition processGPOResponse (fuel : nat) (ctx : TransactionContext)
    (response : ResponseAPDU.t) : result (TransactionContext * bool) :=
  if negb (ResponseAPDU.isSuccess response) then
    let ctx := set_errors ctx
      (errors ctx ++ [mkError "GPO" (Some (ResponseAPDU.sw response))]) in
    Ok (set_state ctx ERROR, false)
  else
    let gpoData := ResponseAPDU.data response in
    let finish (ctx : TransactionContext) :=
      let ctx := logEvent ctx "GPO_PROCESSED" in
      Ok (set_state ctx READ_APPLICATION_DATA, true) in
    if JS.strict_eq (JS.get gpoData 0) 128 then
        (* Format 1 (tag 80) *)
        let aip := JS.slice gpoData 2 4 in
        let afl :=
          match JS.get gpoData 1 with
          | Some length => JS.slice gpoData 4 (2 + length)
          | None => []   (* slice(4, NaN) is empty *)
          end in
        let ctx := set_aip ctx (Some aip) in
        let ctx := set_afl ctx (Some (parseAFL afl)) in
        finish ctx
    else if JS.strict_eq (JS.get gpoData 0) 119 then
        (* Format 2 (tag 77 - constructed) *)
        do tlvData <- TLVParser.parse fuel (toHex gpoData);
        let ctx := addCardData ctx tlvData in
        let ctx :=
          match TLVParser.findTag tlvData "82" with
          | Some aipTag => set_aip ctx (Some (Hex.to_bytes (TLVObject.valueHex aipTag)))
          | None => ctx
          end in
        let ctx :=
          match TLVParser.findTag tlvData "94" with
          | Some aflTag =>
              set_afl ctx (Some (parseAFL (Hex.to_bytes (TLVObject.valueHex aflTag))))
          | None => ctx
          end in
        finish ctx
    else
      match JS.get gpoData 0 with
      | Some _ =>
          let ctx := set_errors ctx (errors ctx ++ [mkError "GPO" None]) in
          Ok (set_state ctx ERROR, false)
      | None => Throw TypeError   (* gpoData[0].toString on undefined *)
      end.

(** [processReadRecordResponse(ctx, response, sfi, record)] *)
Definition processReadRecordResponse (detect : bool) (fuel : nat)
    (ctx : TransactionContext) (response : ResponseAPDU.t) (sfi record : Z)
    : result (TransactionContext * bool) :=
  if negb (ResponseAPDU.isSuccess response) then
    let ctx := set_warnings ctx
      (warnings ctx ++ [mkWarning "READ_RECORD" sfi record (ResponseAPDU.sw response)]) in
    Ok (ctx, false)
  else
    do recordTLV <- TLVParser.parse fuel (toHex (ResponseAPDU.data response));
    let ctx := set_records ctx (records ctx ++ [mkRecord sfi record recordTLV]) in
    let ctx := addCardData ctx recordTLV in
    do ctx <-
      (match TLVParser.findTag recordTLV "8C" with
       | Some cdol1Tag =>
           do d <- DOLParser.parse (TLVObject.valueHex cdol1Tag);
           Ok (logEvent (set_cdol1 ctx (Some d)) "CDOL1_FOUND")
       | None => Ok ctx
       end);
    do ctx <-
      (match TLVParser.findTag recordTLV "8D" with
       | Some cdol2Tag =>
           do d <- DOLParser.parse (TLVObject.valueHex cdol2Tag);
           Ok (logEvent (set_cdol2 ctx (Some d)) "CDOL2_FOUND")
       | None => Ok ctx
       end);
    let ctx :=
      match TLVParser.findTag recordTLV "DF8101" with
      | Some parTag => validatePAR detect (logEvent ctx "PAR_FOUND") parTag
      | None => ctx
      end in
    Ok (ctx, true).

(** [processGenACResponse(ctx, response)] *)
Definition processGenACResponse (fuel : nat) (ctx : TransactionContext)
    (response : ResponseAPDU.t) : result (TransactionContext * bool) :=
  if negb (ResponseAPDU.isSuccess response) then
    let ctx := set_errors ctx
      (errors ctx ++ [mkError "GENERATE_AC" (Some (ResponseAPDU.sw response))]) in
    Ok (set_state ctx ERROR, false)
  else
    let acData := ResponseAPDU.data response in
    let finish (ctx : TransactionContext) :=
      let ctx := logEvent ctx "AC_GENERATED" in
      Ok (set_state ctx COMPLETION, true) in
    if JS.strict_eq (JS.get acData 0) 128 then
        (* Format 1 *)
        let cid := JS.get acData 2 in
        let ctx := set_cryptogramType ctx (Some (JS.and (JS.int_of cid) 192)) in
        let ctx := set_cryptogram ctx (Some (JS.slice acData 3 11)) in
        finish ctx
    else if JS.strict_eq (JS.get acData 0) 119 then
        (* Format 2 *)
        do tlvData <- TLVParser.parse fuel (toHex acData);
        let ctx := addCardData ctx tlvData in
        let ctx :=
          match TLVParser.findTag tlvData "9F27" with
          | Some cidTag =>
              set_cryptogramType ctx
                (Some (JS.and (JS.int_of (JS.get (TLVObject.value cidTag) 0)) 192))
          | None => ctx
          end in
        let ctx :=
          match TLVParser.findTag tlvData "9F26" with
          | Some acTag => set_cryptogram ctx (Some (Hex.to_bytes (TLVObject.valueHex acTag)))
          | None => ctx
          end in
        finish ctx
    else finish ctx.

(** The two remaining detections return their findings as a list and only
    read their arguments.  A finding is a type with a severity. *)

(** [detectKernelFallback(preferredKernel, actualKernel, terminalCapabilities)] *)
Definition detectKernelFallback (preferredKernel actualKernel : Z)
    : list (string * Severity) :=
  (if negb (preferredKernel =? actualKernel) then [("KERNEL_FALLBACK", WARNING)]
   else [])
  ++ (if (preferredKernel =? KernelID.C8) && negb (actualKernel =? KernelID.C8)
      then [("C8_FALLBACK", WARNING)]
      else []).

(** [s.includes(sub)] *)
Fixpoint includes (s sub : string) : bool :=
  String.prefix sub s
  || match s with
     | EmptyString => false
     | String _ s' => includes s' sub
     end.

(** A string that is present and not empty is truthy. *)
Definition truthy (v : option string) : bool :=
  match v with
  | Some (String _ _) => true
  | _ => false
  end.

(** [ctx.getCardData(tagHex)] *)
Definition getCardData (ctx : TransactionContext) (tagHex : string) : option string :=
  cardData ctx !! TLVParser.toUpperCase tagHex.

(** [detectFieldValidationIssues(ctx, networkType)] *)
Definition detectFieldValidationIssues (ctx : TransactionContext) (networkType : string)
    : list (string * Severity) :=
  let track2 := getCardData ctx "57" in
  let tvr := getCardData ctx "95" in
  let iad := getCardData ctx "9F10" in
  (match track2 with
   | Some t =>
       if truthy track2 && negb (String.eqb networkType "VISA") then
         if includes t "D" then []
         else if includes t "3D" then [("TRACK2_FORMAT", WARNING)]
         else []
       else []
   | None => []
   end)
  ++ (match tvr with
      | Some t =>
          if truthy tvr && truthy iad then
            if negb (Nat.eqb (String.length t) 10) then [("TVR_LENGTH", SEV_ERROR)]
            else []
          else []
      | None => []
      end).

(** [buildGPOData(ctx, terminalData)] *)
Definition buildGPOData (ctx : TransactionContext) (terminalData : gmap string string)
    : result (list Z) :=
  match pdol ctx with
  | None | Some [] => Ok [131; 0]
  | Some pdol =>
      do pdolData <- DOLParser.buildData pdol terminalData;
      Ok (TLVBuilder.build
            (TLVBuilder.addPrimitive "83" (TLVBuilder.Buf pdolData) []))
  end.

(** An element of the list that [generateReadCommands] returns. *)
Record ReadCommand : Type := mkReadCommand {
  command : CommandAPDU.t;
  read_sfi : Z;
  read_record : Z;
  includeInODA : bool
}.

(** The inner [for] loop of [generateReadCommands], [n] iterations from
    record [rec] on. *)
Fixpoint readLoop (n : nat) (entry : AFLEntry) (first rec : Z) : list ReadCommand :=
  match n with
  | O => []
  | S n' =>
      mkReadCommand (EMVCommands.readRecord rec (sfi entry)) (sfi entry) rec
        (match numODARecords entry with
         | Some k => rec - first <? k
         | None => false
         end)
        :: readLoop n' entry first (rec + 1)
  end.

(** The commands of one AFL entry: [rec <= lastRecord] is false when either
    record number is [undefined]. *)
Definition commandsFor (entry : AFLEntry) : list ReadCommand :=
  match firstRecord entry, lastRecord entry with
  | Some first, Some last => readLoop (Z.to_nat (last - first + 1)) entry first first
  | _, _ => []
  end.

(** [generateReadCommands(ctx)] *)
Definition generateReadCommands (ctx : TransactionContext) : list ReadCommand :=
  match afl ctx with
  | None => []
  | Some entries => concat (map commandsFor entries)
  end.

(** [buildGenACData(ctx, terminalData)] returns the data, or [null], with
    the updated context. *)
Definition buildGenACData (ctx : TransactionContext) (terminalData : gmap string string)
    : result (TransactionContext * option (list Z)) :=
  match cdol1 ctx with
  | None =>
      Ok (set_errors ctx (errors ctx ++ [mkError "GENERATE_AC" None]), None)
  | Some cdol1 =>
      do data <- DOLParser.buildData cdol1 terminalData;
      Ok (ctx, Some data)
  end.

(** [getCryptogramTypeName(type)] *)
Definition getCryptogramTypeName (type : option Z) : string :=
  match type with
  | Some t =>
      if t =? CryptogramType.AAC then "AAC"
      else if t =? CryptogramType.TC then "TC"
      else if t =? CryptogramType.ARQC then "ARQC"
      else "UNKNOWN"
  | None => "UNKNOWN"
  end.

End EMVProtocolEngine.

(** * Specification-side definitions

    The predicates and functions below state what the specification says;
    they are compared with the embedded code in the theorems that follow. *)

Module APDUSpec.
Import CommandAPDU.

(** The commands whose serialisation can be read back: header fields are
    bytes, a present [data] has at most 255 bytes and is not empty when no
    Le follows it, and a present [le] lies in 1..256. *)
Definition wf (a : t) : Prop :=
  byte_ok (cla a) /\ byte_ok (ins a) /\ byte_ok (p1 a) /\ byte_ok (p2 a) /\
  match data a with
  | None => True
  | Some d => JS.len d <= 255 /\ (le a = None -> d <> [])
  end /\
  match le a with
  | None => True
  | Some l => 1 <= l <= 256
  end.

(** The case table of the specification: the case is decided by which of
    [data] and [le] are present. *)
Definition case_table (a : t) : Prop :=
  (case a = 1 <-> data a = None /\ le a = None) /\
  (case a = 2 <-> data a = None /\ le a <> None) /\
  (case a = 3 <-> data a <> None /\ le a = None) /\
  (case a = 4 <-> data a <> None /\ le a <> None) /\
  In (case a) [1; 2; 3; 4].

End APDUSpec.

Module EngineSpec.

(** Two contexts that differ at most in their interoperability issues. *)
Definition same_but_issues (c1 c2 : TransactionContext) : Prop :=
  set_interopIssues c1 [] = set_interopIssues c2 [].

(** Two engine calls with the same outcome: the same exception, or the same
    boolean result with contexts that differ at most in the issues. *)
Definition same_outcome (r1 r2 : result (TransactionContext * bool)) : Prop :=
  match r1, r2 with
  | Ok (c1, b1), Ok (c2, b2) => b1 = b2 /\ state c1 = state c2 /\ same_but_issues c1 c2
  | Throw e1, Throw e2 => e1 = e2
  | OutOfFuel, OutOfFuel => True
  | _, _ => False
  end.

(** A TLV object whose value is the byte string [v]. *)
Definition holds (tlv : TLVObject.t) (v : list Z) : Prop :=
  TLVObject.value tlv = v /\ TLVObject.valueHex tlv = Hex.of_bytes v.

(** The issues that a call added to the context. *)
Definition added_issues (before after : TransactionContext) (l : list InteropIssue) : Prop :=
  interopIssues after = interopIssues before ++ l.

End EngineSpec.

Module FFISpec.

(** The issues that the FFI check records for the bytes [ffi], in the
    order of the checks: length, form factor, common kernel. *)
Definition ffi_issues (st : TransactionState) (kernel : option Z) (ffi : list Z)
    : list InteropIssue :=
  (if JS.len ffi <? 4 then [mkIssue st "FFI_LENGTH" WARNING] else [])
  ++ (if existsb (Z.eqb (JS.and (JS.int_of (JS.get ffi 1)) 15)) [0; 1; 2; 3; 4; 5; 6]
      then [] else [mkIssue st "FFI_INVALID_FORM_FACTOR" SEV_ERROR])
  ++ (if JS.strict_eq kernel KernelID.C8 then [mkIssue st "FFI_C8_KERNEL" INFO]
      else []).

(** The issues of the PAR check for the hexadecimal text [par]. *)
Definition par_issues (st : TransactionState) (par : string) : list InteropIssue :=
  (if Nat.eqb (String.length par) 58 then [] else [mkIssue st "PAR_LENGTH" WARNING])
  ++ [mkIssue st "PAR_LEGACY_CHECK" INFO].

End FFISpec.

Module Examples.

(** A GENERATE AC response in Format 1: [80 0B], CID [80], ATC [00 01] and
    the cryptogram [A1 .. A8]. *)
Definition genac_format1 : ResponseAPDU.t :=
  ResponseAPDU.success [128; 11; 128; 0; 1; 161; 162; 163; 164; 165; 166; 167; 168].

(** The same CID and cryptogram in Format 2: [77] holding [9F27] and
    [9F26] only (the card emulators put the ATC [9F36] between the two and
    may add [9F10] after them). *)
Definition genac_format2 : ResponseAPDU.t :=
  ResponseAPDU.success
    (TLVBuilder.built
       [TLVBuilder.Constructed "77"
          [TLVBuilder.Primitive "9F27" (TLVBuilder.Buf [128]);
           TLVBuilder.Primitive "9F26"
             (TLVBuilder.Buf [161; 162; 163; 164; 165; 166; 167; 168])]]).

(** A TLV object for tag 9F6E with the given value. *)
Definition ffi_tag (v : list Z) : TLVObject.t :=
  TLVObject.mk 40814 "9F6E" (Some (JS.len v)) v (Hex.of_bytes v) false [].

End Examples.

Module DOLSpec.

(** The bytes supplied for an entry: the decoded text found under the
    entry's tag, if any. *)
Definition supplied (values : gmap string string) (e : DOLParser.entry)
    : option (list Z) :=
  match values !! DOLParser.tagHex e with
  | Some s => Some (Hex.to_bytes (Hex.strip s))
  | None => None
  end.

(** What the specification asks for one entry of length [n]: the supplied
    value, zero-left-padded when shorter, cut down to its rightmost [n]
    bytes when longer; [n] zero bytes when no value is supplied. *)
Definition piece_of (n : nat) (v : option (list Z)) : list Z :=
  match v with
  | None => replicate n 0
  | Some v =>
      if (length v <? n)%nat then replicate (n - length v) 0 ++ v
      else if (n <? length v)%nat then drop (length v - n) v
      else v
  end.

Definition piece (values : gmap string string) (e : DOLParser.entry) : list Z :=
  match DOLParser.length e with
  | Some n => piece_of (Z.to_nat n) (supplied values e)
  | None => []
  end.

(** An entry whose length is a number of bytes. *)
Definition sized (e : DOLParser.entry) : Prop :=
  exists n, DOLParser.length e = Some n /\ 0 <= n.

(** The entry for tag 9F02 with length 6, as [DOLParser.parse] builds it. *)
Definition amount_entry : DOLParser.entry := DOLParser.mkEntry 40706 "9F02" (Some 6).

End DOLSpec.

Module TagSpec.

(** The tags of one, two or three bytes: the first byte announces further
    bytes by its five low bits being set, and every further byte but the last
    has its high bit set. *)
Inductive well_formed : list Z -> Prop :=
  | one_byte (b : Z) :
      byte_ok b -> Z.land b 31 <> 31 -> well_formed [b]
  | two_bytes (b c : Z) :
      byte_ok b -> byte_ok c ->
      Z.land b 31 = 31 -> Z.land c 128 = 0 -> well_formed [b; c]
  | three_bytes (b c d : Z) :
      byte_ok b -> byte_ok c -> byte_ok d ->
      Z.land b 31 = 31 -> Z.land c 128 = 128 -> Z.land d 128 = 0 ->
      well_formed [b; c; d].

(** The number a tag stands for: its bytes read as a big-endian integer. *)
Definition number (t : list Z) : Z := fold_left (fun acc b => acc * 256 + b) t 0.

(** The constructed bit of the specification: bit 0x20 of the first byte. *)
Definition first_byte_constructed (t : list Z) : bool :=
  match t with
  | b :: _ => Z.land b 32 =? 32
  | [] => false
  end.


(** A tag that is not taken for padding. *)
Definition not_padding (t : list Z) : Prop :=
  match t with
  | b :: _ => b <> 0 /\ b <> 255
  | [] => False
  end.

End TagSpec.

Module TLVSpec.
Import TLVBuilder.

(** The item that a builder call appends to [tlvData]. *)
Fixpoint item_of (c : call) : item :=
  match c with
  | Primitive tagHex v => mkItem (TLVParser.toUpperCase tagHex) (to_buffer v) false
  | Constructed tagHex buildFn =>
      mkItem (TLVParser.toUpperCase tagHex) (build (map item_of buildFn)) true
  end.

(** The bytes of a sequence of calls. *)
Definition encode (cs : list call) : list Z := build (map item_of cs).

(** The tree that decoding is expected to return for a builder call: the
    tag, the length and bytes of the value, whether it is constructed, and
    the trees of the children. *)
Fixpoint expected (c : call) : TLVObject.t :=
  let it := item_of c in
  TLVObject.mk (TagSpec.number (encodeTag (tag it))) (tag it)
    (Some (JS.len (value it))) (value it) (Hex.of_bytes (value it))
    (constructed it)
    (match c with
     | Primitive _ _ => []
     | Constructed _ buildFn => map expected buildFn
     end).

(** The tag text of a node: the upper-case hexadecimal text of a
    well-formed tag that is not taken for padding, and whose constructed bit
    (bit 0x20 of the first byte) says what kind of node it is. *)
Definition valid_tag (tagHex : string) (constructed : bool) : Prop :=
  exists t,
    TagSpec.well_formed t /\ TagSpec.not_padding t /\
    TLVParser.toUpperCase tagHex = Hex.of_bytes t /\
    TagSpec.first_byte_constructed t = constructed.

(** A valid tree: valid tags, values of bytes whose length fits the three
    length bytes of [encodeLength], and valid children. *)
Fixpoint valid (c : call) : Prop :=
  match c with
  | Primitive tagHex v =>
      valid_tag tagHex false /\ bytes_ok (to_buffer v) /\
      JS.len (to_buffer v) < 16777216
  | Constructed tagHex buildFn =>
      valid_tag tagHex true /\
      (fix all (l : list call) : Prop :=
         match l with
         | [] => True
         | c' :: l' => valid c' /\ all l'
         end) buildFn /\
      JS.len (encode buildFn) < 16777216
  end.

(** The tags on which the parser's test of the constructed bit gives the
    bit of the first byte: every tag of one or two bytes, and the tags of
    three bytes whose second byte has the same bit 0x20 as the first. *)
Definition second_byte_agrees (t : list Z) : Prop :=
  match t with
  | [b; c; _] => (Z.land c 32 =? 32) = (Z.land b 32 =? 32)
  | _ => True
  end.

Fixpoint agreeing (c : call) : Prop :=
  match c with
  | Primitive tagHex _ =>
      second_byte_agrees (encodeTag (TLVParser.toUpperCase tagHex))
  | Constructed tagHex buildFn =>
      second_byte_agrees (encodeTag (TLVParser.toUpperCase tagHex)) /\
      (fix all (l : list call) : Prop :=
         match l with
         | [] => True
         | c' :: l' => agreeing c' /\ all l'
         end) buildFn
  end.

(** The statement for a sequence of calls: decoding their bytes, wherever
    they end a buffer, returns the expected trees once the fuel exceeds the
    number of bytes. *)
Definition decodes (cs : list call) : Prop :=
  forall fuel pre,
    (length (encode cs) < fuel)%nat ->
    TLVParser.parseBuffer fuel (pre ++ encode cs) (JS.len pre) (JS.len (pre ++ encode cs))
      = Ok (map expected cs).

Definition children_decode (c : call) : Prop :=
  match c with
  | Primitive _ _ => True
  | Constructed _ buildFn => decodes buildFn
  end.

End TLVSpec.

Module TLVExamples.
Import TLVBuilder.

(** [new TLVBuilder().addConstructed('BF8101', b => b.addPrimitive('50', '41'))]:
    a constructed node under a three-byte tag, holding one primitive child. *)
Definition three_byte_constructed : list call :=
  [Constructed "BF8101" [Primitive "50" (Str "41")]].

(** A primitive node under the three-byte tag DF A1 01, whose value happens
    to read as a TLV. *)
Definition three_byte_primitive : list call :=
  [Primitive "DFA101" (Str "500141")].

(** The GPO response template of Format 1 for an AIP and an AFL: the raw
    layout [80 LL AIP AFL]. *)
Definition gpo_format1 (aip afl : list Z) : list Z :=
  128 :: (JS.len aip + JS.len afl) :: aip ++ afl.

(** Two GPO templates of Format 2 that contain 82 = [19 80] and
    94 = [08 01 01 00], and in which another object with tag 82 comes first:
    inside the constructed object A5, and inside the value of the primitive
    DF A1 01, which the parser takes for constructed. *)
Definition gpo_nested_82 : list call :=
  [Constructed "77"
     [Constructed "A5" [Primitive "82" (Str "FFFF")];
      Primitive "82" (Str "1980"); Primitive "94" (Str "08010100")]].

Definition gpo_hidden_82 : list call :=
  [Constructed "77"
     [Primitive "DFA101" (Str "8202FFFF");
      Primitive "82" (Str "1980"); Primitive "94" (Str "08010100")]].

End TLVExamples.

Module TemplateSpec.
Import TLVBuilder.

(** Whether what a call builds has an object with the tag text [s]: the
    object of the call itself, or, below a constructed call, an object of
    its [buildFn]. *)
Fixpoint mentions (s : string) (c : call) : bool :=
  match c with
  | Primitive tagHex _ => String.eqb (TLVParser.toUpperCase tagHex) s
  | Constructed tagHex buildFn =>
      String.eqb (TLVParser.toUpperCase tagHex) s
      || (fix any (l : list call) : bool :=
            match l with
            | [] => false
            | c' :: l' => mentions s c' || any l'
            end) buildFn
  end.

(** No object with the tag text [s] in what the calls build. *)
Definition free_of (s : string) (cs : list call) : Prop :=
  Forall (fun c => mentions s c = false) cs.

(** Among what the calls build, the first object with the tag text [s] in
    document order is one of the calls themselves, a primitive object whose
    value is [v]: no call before it builds an object with that tag, at any
    depth. *)
Definition first_holds (s : string) (v : list Z) (cs : list call) : Prop :=
  exists before tagHex inp after,
    cs = before ++ Primitive tagHex inp :: after /\
    TLVParser.toUpperCase tagHex = s /\ to_buffer inp = v /\ free_of s before.

(** The bytes of a response template 77 with the children [cs]. *)
Definition template77 (cs : list call) : list Z := built [Constructed "77" cs].

End TemplateSpec.

Module ReadSpec.

(** The record numbers that an AFL entry names: first to last, none when
    either is [undefined] or the first exceeds the last. *)
Definition records_of (e : AFLEntry) : list Z :=
  match firstRecord e, lastRecord e with
  | Some f, Some l => seqZ f (l - f + 1)
  | _, _ => []
  end.

(** The element that [generateReadCommands] pushes for a record of an
    entry. *)
Definition read_of (e : AFLEntry) (rec : Z) : EMVProtocolEngine.ReadCommand :=
  EMVProtocolEngine.mkReadCommand (EMVCommands.readRecord rec (sfi e)) (sfi e) rec
    (match firstRecord e, numODARecords e with
     | Some f, Some k => rec - f <? k
     | _, _ => false
     end).

(** A complete group of four AFL bytes, and the AFL made of such groups. *)
Definition group_ok (g : Z * Z * Z * Z) : Prop :=
  let '(b0, f, l, k) := g in byte_ok b0 /\ byte_ok f /\ byte_ok l /\ byte_ok k.

Definition afl_of (groups : list (Z * Z * Z * Z)) : list Z :=
  concat (map (fun g : Z * Z * Z * Z => let '(b0, f, l, k) := g in [b0; f; l; k]) groups).

Definition entry_of (g : Z * Z * Z * Z) : AFLEntry :=
  let '(b0, f, l, k) := g in mkAFL (b0 / 8) (Some f) (Some l) (Some k).

(** The READ RECORD commands, as bytes, that a group asks for. *)
Definition reads_of (g : Z * Z * Z * Z) : list (list Z) :=
  let '(b0, f, l, k) := g in
  map (fun r => [0; 178; r; b0 - b0 mod 8 + 4; 0]) (seqZ f (l - f + 1)).

End ReadSpec.

Module PaddingSpec.
Import TLVBuilder.

(** A run of padding bytes, 00 or FF. *)
Definition padding (l : list Z) : Prop := Forall (fun b => b = 0 \/ b = 255) l.

(** The bytes of builder calls with a run of padding before each of them
    and one after the last. *)
Fixpoint padded (l : list (list Z * call)) (trailing : list Z) : list Z :=
  match l with
  | [] => trailing
  | (pad, c) :: l' => pad ++ TLVSpec.encode [c] ++ padded l' trailing
  end.

End PaddingSpec.

Module TreeExamples.
Import TLVBuilder.

(** An FCI template as the card emulators build it: 6F holding the DF name
    84 and the proprietary template A5, which holds the label 50 and the
    PDOL 9F38 (amount 9F02, 6 bytes; country code 9F1A, 2 bytes). *)
Definition fci : list call :=
  [Constructed "6F"
     [Primitive "84" (Str "A0000000031010");
      Constructed "A5"
        [Primitive "50" (Str "56495341");
         Primitive "9F38" (Str "9F02069F1A02")]]].

End TreeExamples.

Module FindSpec.

(** The object has children to search: [tlv.constructed &&
    tlv.children.length > 0]. *)
Definition searched (t : TLVObject.t) : bool :=
  TLVObject.constructed t && (0 <? Z.of_nat (length (TLVObject.children t))).

(** What a key of the card data holds after a tree was added: the value
    text of the last match in document order, or what it held before. *)
Definition latest (found : list TLVObject.t) (before : option string)
    : option string :=
  match last found with
  | Some x => Some (TLVObject.valueHex x)
  | None => before
  end.

End FindSpec.

Module DOLCodecSpec.

(** A DOL given as pairs of a tag and a length byte: its bytes, and the
    entries that reading them is expected to give. *)
Definition pair_ok (p : list Z * Z) : Prop :=
  TagSpec.well_formed (fst p) /\ byte_ok (snd p).

Definition dol_bytes (l : list (list Z * Z)) : list Z :=
  concat (map (fun p : list Z * Z => fst p ++ [snd p]) l).

Definition dol_entry (p : list Z * Z) : DOLParser.entry :=
  DOLParser.mkEntry (TagSpec.number (fst p)) (Hex.of_bytes (fst p)) (Some (snd p)).

(** The number of bytes that a DOL asks for: the sum of its lengths. *)
Definition dol_length (entries : list DOLParser.entry) : Z :=
  fold_right
    (fun e acc => match DOLParser.length e with Some n => n + acc | None => acc end)
    0 entries.

End DOLCodecSpec.

Module GPOSpec.

(** The PDOL of a context, empty when the card sent none, and the data
    that the terminal values give for it. *)
Definition pdol_entries (ctx : TransactionContext) : list DOLParser.entry :=
  match pdol ctx with
  | Some l => l
  | None => []
  end.

Definition pdol_data (ctx : TransactionContext) (terminalData : gmap string string)
    : list Z :=
  concat (map (DOLSpec.piece terminalData) (pdol_entries ctx)).

End GPOSpec.

Module HistorySpec.

(** The five lists of a context that record what happened.  One context
    extends another when each of these lists of the first is a prefix of the
    same list of the second. *)
Definition extends (before after : TransactionContext) : Prop :=
  log before `prefix_of` log after /\
  errors before `prefix_of` errors after /\
  warnings before `prefix_of` warnings after /\
  interopIssues before `prefix_of` interopIssues after /\
  records before `prefix_of` records after.

End HistorySpec.

Module FlowSpec.
Import TLVBuilder.

(** The name of a cryptogram type by the value of the CID byte. *)
Definition type_name_of_cid (cid : Z) : string :=
  if cid <? 64 then "AAC" else if cid <? 128 then "TC"
  else if cid <? 192 then "ARQC" else "UNKNOWN".

(** An FCI template: 6F holding the DF name 84 and the proprietary template
    A5, which holds the label 50 and the PDOL 9F38. *)
Definition fci_calls (aid label pdol : list Z) : list call :=
  [Constructed "6F"
     [Primitive "84" (Buf aid);
      Constructed "A5" [Primitive "50" (Buf label); Primitive "9F38" (Buf pdol)]]].

End FlowSpec.

(** * Lemmas and theorems *)

(** ** Facts about buffers *)

Section BufferFacts.

Lemma len_app (a b : list Z) : JS.len (a ++ b) = JS.len a + JS.len b.
Proof. unfold JS.len. rewrite length_app. lia. Qed.

Lemma len_nonneg (a : list Z) : 0 <= JS.len a.
Proof. unfold JS.len. lia. Qed.

Lemma len_cons (x : Z) (a : list Z) : JS.len (x :: a) = 1 + JS.len a.
Proof. unfold JS.len. simpl length. lia. Qed.

Lemma get_app_r (pre l : list Z) (i : Z) :
  0 <= i -> JS.get (pre ++ l) (JS.len pre + i) = JS.get l i.
Proof.
  intros Hi. unfold JS.get, JS.len.
  destruct (Z.ltb_spec (Z.of_nat (length pre) + i) 0); [lia|].
  destruct (Z.ltb_spec i 0); [lia|].
  rewrite lookup_app_r by lia. f_equal. lia.
Qed.

Lemma get_app_r0 (pre l : list Z) : JS.get (pre ++ l) (JS.len pre) = JS.get l 0.
Proof. rewrite <- (get_app_r pre l 0) by lia. f_equal. lia. Qed.


(** The slice that starts after [pre] and is asked to stop [n] bytes later
    holds the bytes that are there: all of [v] when [n] is its length. *)
Lemma slice_middle (pre v post : list Z) :
  JS.slice (pre ++ v ++ post) (JS.len pre) (JS.len pre + JS.len v) = v.
Proof.
  unfold JS.slice, JS.clamp. rewrite !len_app.
  pose proof (len_nonneg pre). pose proof (len_nonneg v). pose proof (len_nonneg post).
  destruct (Z.ltb_spec (JS.len pre) 0); [lia|].
  destruct (Z.ltb_spec (JS.len pre + JS.len v) 0); [lia|].
  rewrite !Z.min_l by lia.
  destruct (Z.ltb_spec (JS.len pre) (JS.len pre + JS.len v)).
  - unfold JS.len. rewrite Nat2Z.id.
    replace (Z.to_nat (Z.of_nat (length pre) + Z.of_nat (length v) - Z.of_nat (length pre)))
      with (length v) by lia.
    rewrite drop_app_length. apply take_app_length.
  - destruct v as [|x v']; [reflexivity|].
    pose proof (len_nonneg v'). rewrite len_cons in *. lia.
Qed.

(** When fewer bytes remain than were asked for, the slice is cut short at
    the end of the buffer. *)
Lemma slice_truncated (pre v : list Z) (n : Z) :
  JS.len v <= n -> JS.slice (pre ++ v) (JS.len pre) (JS.len pre + n) = v.
Proof.
  intros Hn. unfold JS.slice, JS.clamp. rewrite !len_app.
  pose proof (len_nonneg pre). pose proof (len_nonneg v).
  destruct (Z.ltb_spec (JS.len pre) 0); [lia|].
  destruct (Z.ltb_spec (JS.len pre + n) 0); [lia|].
  rewrite Z.min_l by lia. rewrite Z.min_r by lia.
  destruct (Z.ltb_spec (JS.len pre) (JS.len pre + JS.len v)).
  - unfold JS.len. rewrite Nat2Z.id.
    replace (Z.to_nat (Z.of_nat (length pre) + Z.of_nat (length v) - Z.of_nat (length pre)))
      with (length v) by lia.
    rewrite drop_app_length. apply firstn_all.
  - destruct v as [|x v']; [reflexivity|].
    pose proof (len_nonneg v'). rewrite len_cons in *. lia.
Qed.

(** In general the slice holds as many bytes as were asked for, or as
    remain. *)
Lemma slice_take (pre rest : list Z) (n : Z) :
  0 <= n ->
  JS.slice (pre ++ rest) (JS.len pre) (JS.len pre + n) = take (Z.to_nat n) rest.
Proof.
  intros Hn.
  destruct (Z.le_gt_cases (JS.len rest) n) as [Hle|Hgt].
  - rewrite slice_truncated by assumption.
    symmetry. apply take_ge. unfold JS.len in Hle. lia.
  - assert (Hlen : JS.len (take (Z.to_nat n) rest) = n).
    { unfold JS.len in *. rewrite length_take. lia. }
    pose proof (slice_middle pre (take (Z.to_nat n) rest) (drop (Z.to_nat n) rest)) as H.
    rewrite take_drop, Hlen in H. exact H.
Qed.

Lemma to_uint8_byte (b : Z) : byte_ok b -> JS.to_uint8 b = b.
Proof. intros Hb. unfold JS.to_uint8, byte_ok in *. apply Z.mod_small. lia. Qed.

Lemma to_int32_small (z : Z) : -2147483648 <= z < 2147483648 -> JS.to_int32 z = z.
Proof. intros Hz. unfold JS.to_int32. rewrite Z.mod_small; lia. Qed.

End BufferFacts.

(** ** The APDU model *)

Module APDUFacts.
Import CommandAPDU APDUSpec.

Lemma case_table_holds (a : t) : case_table a.
Proof.
  unfold case_table, case.
  destruct (data a), (le a); simpl; repeat split; intros;
    try congruence; try lia; try tauto;
    repeat match goal with H : _ /\ _ |- _ => destruct H end; congruence.
Qed.

Lemma le_byte_back (l : Z) :
  1 <= l <= 256 -> (if le_byte l =? 0 then 256 else le_byte l) = l.
Proof.
  intros Hl. unfold le_byte.
  destruct (Z.eqb_spec l 256) as [->|Hne]; [reflexivity|].
  rewrite to_uint8_byte by (unfold byte_ok; lia).
  destruct (Z.eqb_spec l 0); [lia|reflexivity].
Qed.

Lemma fromBuffer_long (c i q1 q2 lc x : Z) (rest : list Z) :
  fromBuffer (c :: i :: q1 :: q2 :: lc :: x :: rest) =
  let buffer := [c; i; q1; q2; lc] ++ x :: rest in
  if JS.len buffer =? 5 + lc then
    Ok (mk c i q1 q2 (Some (JS.slice buffer 5 (5 + lc))) None)
  else if JS.len buffer =? 6 + lc then
    match JS.get buffer (5 + lc) with
    | Some b =>
        Ok (mk c i q1 q2 (Some (JS.slice buffer 5 (5 + lc)))
              (Some (if b =? 0 then 256 else b)))
    | None => Throw TypeError
    end
  else Throw (Error "Invalid APDU: incorrect length").
Proof. reflexivity. Qed.

Lemma roundtrip (a : t) : wf a -> fromBuffer (toBuffer a) = Ok a.
Proof.
  destruct a as [c i q1 q2 d l].
  unfold wf; cbn [cla ins p1 p2 data le].
  intros (Hc & Hi & H1 & H2 & Hd & Hl).
  unfold toBuffer; cbn [cla ins p1 p2 data le].
  rewrite !to_uint8_byte by assumption.
  destruct d as [d|], l as [l|].
  - (* case 4 *)
    destruct Hd as [Hlen _].
    pose proof (len_nonneg d) as Hd0.
    rewrite (to_uint8_byte (JS.len d)) by (unfold byte_ok; lia).
    assert (Hbody : exists x rest, d ++ [le_byte l] = x :: rest).
    { destruct d; simpl; eauto. }
    destruct Hbody as (x & rest & Hbody).
    cbn [app]. rewrite Hbody, fromBuffer_long. rewrite <- Hbody.
    cbv zeta. set (hd := [c; i; q1; q2; JS.len d]).
    assert (Hhd : JS.len hd = 5) by reflexivity.
    rewrite !len_app, Hhd. change (JS.len [le_byte l]) with 1.
    destruct (Z.eqb_spec (5 + (JS.len d + 1)) (5 + JS.len d)); [lia|].
    destruct (Z.eqb_spec (5 + (JS.len d + 1)) (6 + JS.len d)); [|lia].
    replace (JS.slice (hd ++ d ++ [le_byte l]) 5 (5 + JS.len d)) with d
      by (rewrite <- Hhd; symmetry; apply slice_middle).
    replace (5 + JS.len d) with (JS.len (hd ++ d) + 0)
      by (rewrite len_app, Hhd; lia).
    rewrite app_assoc, get_app_r by lia.
    change (JS.get [le_byte l] 0) with (Some (le_byte l)).
    cbv beta iota. rewrite le_byte_back by assumption. reflexivity.
  - (* case 3 *)
    destruct Hd as [Hlen Hne]. specialize (Hne eq_refl).
    pose proof (len_nonneg d) as Hd0.
    rewrite (to_uint8_byte (JS.len d)) by (unfold byte_ok; lia).
    destruct d as [|x d']; [congruence|].
    cbn [app]. rewrite fromBuffer_long.
    cbv zeta. set (d := x :: d') in *. set (hd := [c; i; q1; q2; JS.len d]).
    assert (Hhd : JS.len hd = 5) by reflexivity.
    rewrite !len_app, Hhd.
    destruct (Z.eqb_spec (5 + JS.len d) (5 + JS.len d)); [|lia].
    replace (JS.slice (hd ++ d) 5 (5 + JS.len d)) with d; [reflexivity|].
    rewrite <- Hhd. rewrite <- (app_nil_r d) at 2. symmetry. apply slice_middle.
  - (* case 2 *)
    cbn [app fromBuffer]. rewrite le_byte_back by assumption. reflexivity.
  - reflexivity.
Qed.

End APDUFacts.

(** ** Hexadecimal text *)

(** Case analysis on a nibble, by the binary digits of the number. *)
Ltac nibble n H :=
  destruct n as [|n|n]; [| |lia];
  [|do 4 (try destruct n as [n|n|]); try (exfalso; lia)].

Section HexFacts.

Lemma value_digit (n : Z) : 0 <= n < 16 -> Hex.value (Hex.digit n) = Some n.
Proof. intros Hn. nibble n Hn; reflexivity. Qed.

Lemma digit_not_space (n : Z) : 0 <= n < 16 -> Hex.is_space (Hex.digit n) = false.
Proof. intros Hn. nibble n Hn; reflexivity. Qed.

Lemma byte_nibbles (b : Z) :
  byte_ok b -> 0 <= b / 16 < 16 /\ 0 <= b mod 16 < 16 /\ b / 16 * 16 + b mod 16 = b.
Proof.
  unfold byte_ok. intros Hb.
  pose proof (Z.div_mod b 16). pose proof (Z.mod_pos_bound b 16).
  assert (0 <= b / 16 < 16) by (split; [apply Z.div_pos; lia | apply Z.div_lt_upper_bound; lia]).
  lia.
Qed.

(** Decoding the hexadecimal text of a buffer gives the buffer back. *)
Lemma to_bytes_of_bytes (l : list Z) : bytes_ok l -> Hex.to_bytes (Hex.of_bytes l) = l.
Proof.
  induction 1 as [|b l Hb Hl IH]; [reflexivity|].
  destruct (byte_nibbles b Hb) as (Hh & Hlo & Heq).
  cbn [Hex.of_bytes Hex.to_bytes].
  rewrite !value_digit by assumption. rewrite IH, Heq. reflexivity.
Qed.

Lemma strip_of_bytes (l : list Z) : bytes_ok l -> Hex.strip (Hex.of_bytes l) = Hex.of_bytes l.
Proof.
  induction 1 as [|b l Hb Hl IH]; [reflexivity|].
  destruct (byte_nibbles b Hb) as (Hh & Hlo & Heq).
  cbn [Hex.of_bytes Hex.strip].
  rewrite !digit_not_space by assumption. rewrite IH. reflexivity.
Qed.

Lemma bytes_ok_app (a b : list Z) : bytes_ok a -> bytes_ok b -> bytes_ok (a ++ b).
Proof. unfold bytes_ok. intros. apply Forall_app; auto. Qed.

End HexFacts.

(** ** The engine: interoperability checks *)

Module CheckFacts.
Import EMVProtocolEngine EngineSpec FFISpec.

Lemma set_issues_same (c : TransactionContext) :
  set_interopIssues c (interopIssues c ++ []) = c.
Proof. destruct c. unfold set_interopIssues. cbn. rewrite app_nil_r. reflexivity. Qed.

Lemma validateFFI_on (ctx : TransactionContext) (t : TLVObject.t) :
  validateFFI true ctx t =
  set_interopIssues ctx
    (interopIssues ctx
       ++ ffi_issues (state ctx) (kernel ctx) (Hex.to_bytes (TLVObject.valueHex t))).
Proof.
  unfold validateFFI, ffi_issues. cbn [negb].
  destruct ctx as [st k f p a af r cd c1 c2 cr ct lg er wa iss].
  cbv zeta.
  destruct (JS.len _ <? 4);
    destruct (existsb _ _);
    unfold recordInteropIssue, set_interopIssues; cbn;
    destruct (JS.strict_eq k KernelID.C8); cbn;
    rewrite ?app_nil_r, <- ?app_assoc; reflexivity.
Qed.

Lemma validateFFI_off (ctx : TransactionContext) (t : TLVObject.t) :
  validateFFI false ctx t = ctx.
Proof. reflexivity. Qed.

Lemma validatePAR_on (ctx : TransactionContext) (t : TLVObject.t) :
  validatePAR true ctx t =
  set_interopIssues ctx
    (interopIssues ctx ++ par_issues (state ctx) (TLVObject.valueHex t)).
Proof.
  unfold validatePAR, par_issues. cbn [negb].
  destruct ctx as [st k f p a af r cd c1 c2 cr ct lg er wa iss].
  destruct (Nat.eqb _ 58);
    unfold recordInteropIssue, set_interopIssues; cbn;
    rewrite <- ?app_assoc; reflexivity.
Qed.

(** A check changes nothing but the list of issues. *)
Lemma validateFFI_same (detect : bool) (ctx : TransactionContext) (t : TLVObject.t) :
  same_but_issues (validateFFI detect ctx t) ctx.
Proof.
  destruct detect; [rewrite validateFFI_on | reflexivity].
  destruct ctx; reflexivity.
Qed.

Lemma validatePAR_same (detect : bool) (ctx : TransactionContext) (t : TLVObject.t) :
  same_but_issues (validatePAR detect ctx t) ctx.
Proof.
  destruct detect; [rewrite validatePAR_on | reflexivity].
  destruct ctx; reflexivity.
Qed.

Lemma same_but_issues_state (c1 c2 : TransactionContext) :
  same_but_issues c1 c2 -> state c1 = state c2.
Proof.
  unfold same_but_issues, set_interopIssues. destruct c1, c2. cbn.
  intros H. inversion H. reflexivity.
Qed.

Lemma same_but_issues_set_state (c1 c2 : TransactionContext) (s : TransactionState) :
  same_but_issues c1 c2 -> same_but_issues (set_state c1 s) (set_state c2 s).
Proof.
  unfold same_but_issues, set_interopIssues, set_state. destruct c1, c2. cbn.
  intros H. inversion H. reflexivity.
Qed.

Lemma same_but_issues_trans (c1 c2 c3 : TransactionContext) :
  same_but_issues c1 c2 -> same_but_issues c2 c3 -> same_but_issues c1 c3.
Proof. unfold same_but_issues. congruence. Qed.

Lemma same_but_issues_sym (c1 c2 : TransactionContext) :
  same_but_issues c1 c2 -> same_but_issues c2 c1.
Proof. unfold same_but_issues. congruence. Qed.

End CheckFacts.

(** ** The engine: response processing *)

Module EngineFacts.
Import EMVProtocolEngine EngineSpec FFISpec CheckFacts.

Lemma same_outcome_ok (c1 c2 : TransactionContext) (b : bool) :
  same_but_issues c1 c2 -> same_outcome (Ok (c1, b)) (Ok (c2, b)).
Proof.
  intros H. cbn. split; [reflexivity|]. split; [|exact H].
  apply same_but_issues_state, H.
Qed.

Lemma same_outcome_refl (r : result (TransactionContext * bool)) : same_outcome r r.
Proof.
  destruct r as [[c b]|e|]; cbn; auto.
  split; [reflexivity|]. split; reflexivity.
Qed.

(** Switching the detection of interoperability issues on or off changes
    neither the outcome of [processSelectResponse] nor the state it leaves. *)
Lemma select_detection_additive (fuel : nat) (ctx : TransactionContext)
    (r : ResponseAPDU.t) :
  same_outcome (processSelectResponse true fuel ctx r)
               (processSelectResponse false fuel ctx r).
Proof.
  unfold processSelectResponse.
  destruct (negb (ResponseAPDU.isSuccess r)); [apply same_outcome_refl|].
  destruct (TLVParser.parse fuel _) as [fciTLV|e|]; cbn [bind]; [|reflexivity|exact I].
  match goal with
  | |- context [bind ?x _] => destruct x as [c|e|]; cbn [bind]; [|reflexivity|exact I]
  end.
  destruct (TLVParser.findTag fciTLV "9F6E") as [ffi|]; [|apply same_outcome_refl].
  apply same_outcome_ok, same_but_issues_set_state.
  eapply same_but_issues_trans; [apply validateFFI_same|].
  apply same_but_issues_sym, validateFFI_same.
Qed.

Lemma read_detection_additive (fuel : nat) (ctx : TransactionContext)
    (r : ResponseAPDU.t) (sfi record : Z) :
  same_outcome (processReadRecordResponse true fuel ctx r sfi record)
               (processReadRecordResponse false fuel ctx r sfi record).
Proof.
  unfold processReadRecordResponse.
  destruct (negb (ResponseAPDU.isSuccess r)); [apply same_outcome_refl|].
  destruct (TLVParser.parse fuel _) as [recordTLV|e|]; cbn [bind]; [|reflexivity|exact I].
  match goal with
  | |- context [bind ?x _] => destruct x as [c|e|]; cbn [bind]; [|reflexivity|exact I]
  end.
  match goal with
  | |- context [bind ?x _] => destruct x as [c'|e|]; cbn [bind]; [|reflexivity|exact I]
  end.
  destruct (TLVParser.findTag recordTLV "DF8101") as [par|]; [|apply same_outcome_refl].
  apply same_outcome_ok.
  eapply same_but_issues_trans; [apply validatePAR_same|].
  apply same_but_issues_sym, validatePAR_same.
Qed.

End EngineFacts.

(** ** Claims about the APDU model and the engine *)

(** C6, as stated, fails: the SELECT command that [EMVCommands.selectPPSE]
    builds has [le = 0]; it is written as the Le byte 00 and read back as
    [le = 256], so the [le] field is not reconstructed. *)
Lemma select_ppse_le_not_reconstructed :
  CommandAPDU.le EMVCommands.selectPPSE = Some 0 /\
  exists a,
    CommandAPDU.fromBuffer (CommandAPDU.toBuffer EMVCommands.selectPPSE) = Ok a /\
    CommandAPDU.le a = Some 256 /\
    a <> EMVCommands.selectPPSE.
Proof.
  split; [reflexivity|]. eexists. split; [vm_compute; reflexivity|].
  split; [reflexivity|]. intros H. discriminate H.
Qed.

(** A command whose [data] is an empty buffer and whose [le] is absent is a
    case 3 command, and is read back as a case 2 command with [le = 256]. *)
Example empty_data_read_back_as_case_2 :
  let a := CommandAPDU.mk 0 164 4 0 (Some []) None in
  CommandAPDU.case a = 3 /\
  CommandAPDU.fromBuffer (CommandAPDU.toBuffer a)
    = Ok (CommandAPDU.mk 0 164 4 0 None (Some 256)).
Proof. split; reflexivity. Qed.

(** C6 (amended): for every command, whatever its fields, the case is one
    of 1..4 as the table says (an empty data buffer counting as data
    present); and when the header fields are bytes, a present [data] has at
    most 255 bytes and is not empty unless an Le follows, and a present [le]
    lies in 1..256, [fromBuffer (toBuffer a)] reconstructs all six fields. *)
Theorem command_apdu_case_and_roundtrip (a : CommandAPDU.t) :
  APDUSpec.case_table a /\
  (APDUSpec.wf a -> CommandAPDU.fromBuffer (CommandAPDU.toBuffer a) = Ok a).
Proof.
  split; [apply APDUFacts.case_table_holds | apply APDUFacts.roundtrip].
Qed.

Lemma command_apdu_case_and_roundtrip_witness :
  let a := CommandAPDU.mk 128 174 128 0 (Some [1; 2; 3]) (Some 256) in
  APDUSpec.wf a /\
  APDUSpec.case_table a /\
  CommandAPDU.fromBuffer (CommandAPDU.toBuffer a) = Ok a.
Proof.
  intros a.
  assert (Hwf : APDUSpec.wf a).
  { unfold APDUSpec.wf, byte_ok; cbn. repeat split; try lia; discriminate. }
  destruct (command_apdu_case_and_roundtrip a) as [Htable Hback].
  split; [exact Hwf|]. split; [exact Htable | exact (Hback Hwf)].
Defined.

Section EngineClaims.
Import EMVProtocolEngine EngineSpec FFISpec.

(** C5: on a response whose status word is not a success, SELECT, GPO and
    GENERATE AC processing each append one entry to [errors], set the state
    to ERROR and return false, while READ RECORD processing appends one
    entry to [warnings], leaves the state and [errors] as they were and
    returns false.  The interoperability checks that write to the context,
    [validateFFI] and [validatePAR], leave the state alone, and the outcome
    of an engine call (exception or boolean, and state) is the same with the
    detection switched on or off; the other two detections,
    [detectKernelFallback] and [detectFieldValidationIssues], return a list
    and write nothing. *)
Theorem failure_semantics (detect : bool) (fuel : nat) (ctx : TransactionContext)
    (r : ResponseAPDU.t) (sfi record : Z) :
  (ResponseAPDU.isSuccess r = false ->
   (exists c, processSelectResponse detect fuel ctx r = Ok (c, false) /\
      state c = ERROR /\
      errors c = errors ctx ++ [mkError "SELECT" (Some (ResponseAPDU.sw r))]) /\
   (exists c, processGPOResponse fuel ctx r = Ok (c, false) /\
      state c = ERROR /\
      errors c = errors ctx ++ [mkError "GPO" (Some (ResponseAPDU.sw r))]) /\
   (exists c, processGenACResponse fuel ctx r = Ok (c, false) /\
      state c = ERROR /\
      errors c = errors ctx ++ [mkError "GENERATE_AC" (Some (ResponseAPDU.sw r))]) /\
   (exists c, processReadRecordResponse detect fuel ctx r sfi record = Ok (c, false) /\
      state c = state ctx /\
      errors c = errors ctx /\
      warnings c =
        warnings ctx ++ [mkWarning "READ_RECORD" sfi record (ResponseAPDU.sw r)])) /\
  (forall t, state (validateFFI detect ctx t) = state ctx /\
             state (validatePAR detect ctx t) = state ctx) /\
  same_outcome (processSelectResponse true fuel ctx r)
               (processSelectResponse false fuel ctx r) /\
  same_outcome (processReadRecordResponse true fuel ctx r sfi record)
               (processReadRecordResponse false fuel ctx r sfi record).
Proof.
  split; [|split; [|split]].
  - intros Hfail.
    unfold processSelectResponse, processGPOResponse, processGenACResponse,
      processReadRecordResponse.
    rewrite Hfail. cbn [negb].
    repeat split; eexists; (split; [reflexivity|]); destruct ctx; cbn; auto.
  - intros t. split; apply CheckFacts.same_but_issues_state.
    + apply CheckFacts.validateFFI_same.
    + apply CheckFacts.validatePAR_same.
  - apply EngineFacts.select_detection_additive.
  - apply EngineFacts.read_detection_additive.
Qed.

Lemma failure_semantics_witness :
  ResponseAPDU.isSuccess (ResponseAPDU.error 27266) = false /\
  exists c,
    processSelectResponse true 8 newContext (ResponseAPDU.error 27266) = Ok (c, false) /\
    state c = ERROR /\
    errors c = [mkError "SELECT" (Some 27266)].
Proof.
  split; [reflexivity|].
  destruct (failure_semantics true 8 newContext (ResponseAPDU.error 27266) 1 1)
    as [H _].
  destruct (H eq_refl) as [Hsel _]. exact Hsel.
Defined.

(** C10: a successful GENERATE AC response whose first data byte is
    neither 0x80 nor 0x77 records no error, leaves [cryptogram] and
    [cryptogramType] as they were (null in a fresh context), sets the state
    to COMPLETION and returns true; the same response handed to
    [processGPOResponse] records an error, sets the state to ERROR and
    returns false. *)
Theorem genac_unknown_format_completes (fuel : nat) (ctx : TransactionContext)
    (r : ResponseAPDU.t) (b : Z) (rest : list Z) :
  ResponseAPDU.isSuccess r = true ->
  ResponseAPDU.data r = b :: rest ->
  b <> 128 -> b <> 119 ->
  (exists c, processGenACResponse fuel ctx r = Ok (c, true) /\
     state c = COMPLETION /\
     errors c = errors ctx /\
     cryptogram c = cryptogram ctx /\
     cryptogramType c = cryptogramType ctx) /\
  (exists c, processGPOResponse fuel ctx r = Ok (c, false) /\
     state c = ERROR /\
     errors c = errors ctx ++ [mkError "GPO" None]).
Proof.
  intros Hok Hdata H80 H77.
  unfold processGenACResponse, processGPOResponse.
  rewrite Hok, Hdata. cbn [negb].
  change (JS.get (b :: rest) 0) with (Some b). cbn [JS.strict_eq].
  destruct (Z.eqb_spec b 128); [contradiction|].
  destruct (Z.eqb_spec b 119); [contradiction|].
  split; eexists; (split; [reflexivity|]); destruct ctx; cbn; auto.
Qed.

Lemma genac_unknown_format_completes_witness :
  let r := ResponseAPDU.success [112; 0] in
  ResponseAPDU.isSuccess r = true /\
  exists c, processGenACResponse 8 newContext r = Ok (c, true) /\
    state c = COMPLETION /\ errors c = [] /\
    cryptogram c = None /\ cryptogramType c = None.
Proof.
  intros r. split; [reflexivity|].
  destruct (genac_unknown_format_completes 8 newContext r 112 [0] eq_refl eq_refl)
    as [H _]; [lia | lia |].
  exact H.
Defined.

End EngineClaims.

Section FFIClaims.
Import EMVProtocolEngine EngineSpec FFISpec.

Lemma and_byte (b m : Z) :
  byte_ok b -> 0 <= m < 256 -> JS.and (JS.int_of (Some b)) m = Z.land b m.
Proof.
  unfold byte_ok. intros Hb Hm. unfold JS.and, JS.int_of.
  rewrite !(to_int32_small b), (to_int32_small m) by lia. reflexivity.
Qed.

Lemma valid_form_factor (x : Z) :
  0 <= x -> existsb (Z.eqb x) [0; 1; 2; 3; 4; 5; 6] = (x <=? 6).
Proof.
  intros Hx. cbn [existsb].
  destruct (Z.leb_spec x 6) as [Hle|Hgt].
  - nibble x Hx; first [reflexivity | exfalso; lia].
  - repeat match goal with
           | |- context [Z.eqb x ?k] => destruct (Z.eqb_spec x k); [lia|]
           end.
    reflexivity.
Qed.

(** C9, as stated, fails twice: a 3-byte FFI whose second byte has low
    nibble 7 gets two issues, because the form-factor check runs after the
    length check; and a 5-byte FFI gets no FFI_LENGTH issue, because the
    length check is [length < 4]. *)
Lemma ffi_three_bytes_two_issues :
  interopIssues (validateFFI true newContext (Examples.ffi_tag [0; 7; 0]))
    = [mkIssue IDLE "FFI_LENGTH" WARNING;
       mkIssue IDLE "FFI_INVALID_FORM_FACTOR" SEV_ERROR] /\
  interopIssues (validateFFI true newContext (Examples.ffi_tag [0; 1; 0; 0; 0])) = [].
Proof. split; reflexivity. Qed.

(** C9 (amended): with detection on and a kernel other than C8,
    - a 4-byte FFI whose second byte has low nibble 7 adds exactly one
      issue, FFI_INVALID_FORM_FACTOR of severity ERROR;
    - a 3-byte FFI adds FFI_LENGTH of severity WARNING, and the form-factor
      check is still made on its second byte: FFI_LENGTH is the only issue
      exactly when that nibble is in 0..6;
    - every FFI shorter than 4 bytes gets FFI_LENGTH (WARNING) first, and an
      FFI of 4 bytes or more gets no FFI_LENGTH issue. *)
Theorem validateFFI_boundary (ctx : TransactionContext) (tag : TLVObject.t)
    (ffi : list Z) :
  JS.strict_eq (kernel ctx) KernelID.C8 = false ->
  bytes_ok ffi ->
  TLVObject.valueHex tag = Hex.of_bytes ffi ->
  let after := validateFFI true ctx tag in
  (forall b0 b1 b2 b3, ffi = [b0; b1; b2; b3] -> Z.land b1 15 = 7 ->
     added_issues ctx after [mkIssue (state ctx) "FFI_INVALID_FORM_FACTOR" SEV_ERROR]) /\
  (forall b0 b1 b2, ffi = [b0; b1; b2] ->
     added_issues ctx after
       (mkIssue (state ctx) "FFI_LENGTH" WARNING ::
        if Z.land b1 15 <=? 6 then []
        else [mkIssue (state ctx) "FFI_INVALID_FORM_FACTOR" SEV_ERROR])) /\
  (JS.len ffi < 4 ->
     exists rest,
       added_issues ctx after (mkIssue (state ctx) "FFI_LENGTH" WARNING :: rest)) /\
  (4 <= JS.len ffi ->
     forall l, added_issues ctx after l ->
       forall i, In i l -> issue_type i <> "FFI_LENGTH").
Proof.
  intros Hk Hok Hhex after.
  assert (Hafter : added_issues ctx after (ffi_issues (state ctx) (kernel ctx) ffi)).
  { unfold added_issues, after. rewrite CheckFacts.validateFFI_on, Hhex.
    rewrite to_bytes_of_bytes by assumption. destruct ctx; reflexivity. }
  unfold ffi_issues in Hafter. rewrite Hk, app_nil_r in Hafter.
  repeat split.
  - intros b0 b1 b2 b3 -> Hnib.
    inversion Hok as [|? ? _ Hok1]; subst. inversion Hok1 as [|? ? Hb1 _]; subst.
    change (JS.get [b0; b1; b2; b3] 1) with (Some b1) in Hafter.
    rewrite and_byte in Hafter by first [assumption | lia].
    rewrite Hnib in Hafter. exact Hafter.
  - intros b0 b1 b2 ->.
    inversion Hok as [|? ? _ Hok1]; subst. inversion Hok1 as [|? ? Hb1 _]; subst.
    change (JS.get [b0; b1; b2] 1) with (Some b1) in Hafter.
    rewrite and_byte in Hafter by first [assumption | lia].
    rewrite valid_form_factor in Hafter by (apply Z.land_nonneg; unfold byte_ok in Hb1; lia).
    change (JS.len [b0; b1; b2] <? 4) with true in Hafter.
    destruct (Z.land b1 15 <=? 6); exact Hafter.
  - intros Hlen. apply Z.ltb_lt in Hlen. rewrite Hlen in Hafter.
    eexists. exact Hafter.
  - intros Hlen l Hl i Hi.
    assert (Hge : (JS.len ffi <? 4) = false) by (apply Z.ltb_ge; lia).
    rewrite Hge in Hafter. unfold added_issues in *.
    rewrite Hafter in Hl. apply app_inv_head in Hl. subst l.
    cbn [app] in Hi. destruct (existsb _ _); cbn in Hi; [contradiction|].
    destruct Hi as [<-|[]]. cbn. discriminate.
Qed.

Lemma validateFFI_boundary_witness :
  let ffi := [0; 7; 0; 0] in
  JS.strict_eq (kernel newContext) KernelID.C8 = false /\
  bytes_ok ffi /\
  added_issues newContext (validateFFI true newContext (Examples.ffi_tag ffi))
    [mkIssue IDLE "FFI_INVALID_FORM_FACTOR" SEV_ERROR].
Proof.
  intros ffi.
  assert (Hok : bytes_ok ffi).
  { unfold ffi, bytes_ok, byte_ok. repeat constructor; lia. }
  split; [reflexivity|]. split; [exact Hok|].
  destruct (validateFFI_boundary newContext (Examples.ffi_tag ffi) ffi eq_refl Hok eq_refl)
    as [H _].
  exact (H 0 7 0 0 eq_refl eq_refl).
Defined.

End FFIClaims.

Section GenACClaims.
Import EMVProtocolEngine EngineSpec.

(** What [processGenACResponse] does with any successful Format 1 response
    [80 LL CID ATC ATC AC...]: the cryptogram type is the top two bits of
    the CID, and the cryptogram is the eight bytes that start at the ATC. *)
Lemma genac_format1_general (fuel : nat) (ctx : TransactionContext)
    (r : ResponseAPDU.t) (ll cid atc1 atc2 : Z) (ac : list Z) :
  ResponseAPDU.isSuccess r = true ->
  ResponseAPDU.data r = 128 :: ll :: cid :: atc1 :: atc2 :: ac ->
  byte_ok cid ->
  exists c, processGenACResponse fuel ctx r = Ok (c, true) /\
    state c = COMPLETION /\
    cryptogramType c = Some (Z.land cid 192) /\
    cryptogram c = Some (atc1 :: atc2 :: take 6 ac).
Proof.
  intros Hok Hdata Hcid. unfold processGenACResponse.
  rewrite Hok, Hdata. cbn [negb].
  change (JS.get (128 :: ll :: cid :: atc1 :: atc2 :: ac) 0) with (Some 128).
  change (JS.strict_eq (Some 128) 128) with true. cbv iota zeta.
  change (JS.get (128 :: ll :: cid :: atc1 :: atc2 :: ac) 2) with (Some cid).
  rewrite and_byte by first [assumption | lia].
  change (128 :: ll :: cid :: atc1 :: atc2 :: ac)
    with ([128; ll; cid] ++ atc1 :: atc2 :: ac).
  change 3 with (JS.len [128; ll; cid]).
  change 11 with (JS.len [128; ll; cid] + 8).
  rewrite slice_take by lia.
  eexists. split; [reflexivity|]. destruct ctx; cbn. auto.
Qed.

(** C4 (the code at the failing input): for the Format 1 response
    [80 0B 80 0001 A1A2A3A4A5A6A7A8] the cryptogram type is the top two bits
    of the CID, but the cryptogram stored is [0001 A1A2A3A4A5A6], the ATC
    followed by six bytes of the AC, where Format 2 with the same CID and AC
    stores [A1A2A3A4A5A6A7A8]. *)
Theorem genac_format1_cryptogram_includes_atc :
  (exists c, processGenACResponse 8 newContext Examples.genac_format1 = Ok (c, true) /\
     cryptogramType c = Some CryptogramType.ARQC /\
     cryptogram c = Some [0; 1; 161; 162; 163; 164; 165; 166]) /\
  (exists c, processGenACResponse 8 newContext Examples.genac_format2 = Ok (c, true) /\
     cryptogramType c = Some CryptogramType.ARQC /\
     cryptogram c = Some [161; 162; 163; 164; 165; 166; 167; 168]).
Proof.
  split; eexists; (split; [vm_compute; reflexivity|]); split; reflexivity.
Qed.

End GenACClaims.

(** ** The DOL codec *)

Module DOLFacts.
Import DOLParser DOLSpec.

Lemma decode_repeat00 (n : nat) :
  Hex.to_bytes (Hex.strip (repeat00 n)) = replicate n 0.
Proof.
  induction n as [|n IH]; [reflexivity|].
  change (Hex.strip (repeat00 (S n)))
    with (String "0"%char (String "0"%char (Hex.strip (repeat00 n)))).
  change (Hex.to_bytes (String "0"%char (String "0"%char (Hex.strip (repeat00 n)))))
    with (0 :: Hex.to_bytes (Hex.strip (repeat00 n))).
  rewrite IH. reflexivity.
Qed.

Lemma len_replicate (n : nat) : JS.len (replicate n 0) = Z.of_nat n.
Proof. unfold JS.len. rewrite length_replicate. reflexivity. Qed.

(** Left padding: [Buffer.alloc] and [copy] put the value at the end of a
    zero buffer. *)
Lemma copy_pads (v : list Z) (n : Z) :
  JS.len v < n ->
  JS.copy v (JS.alloc n) (n - JS.len v)
    = replicate (Z.to_nat n - List.length v) 0 ++ v.
Proof.
  intros Hlt. unfold JS.copy, JS.alloc, JS.len in *.
  rewrite length_replicate.
  replace (Z.to_nat n - Z.to_nat (n - Z.of_nat (List.length v)))%nat with (List.length v) by lia.
  rewrite firstn_all, take_replicate, drop_replicate.
  replace (Z.to_nat n - (Z.to_nat (n - Z.of_nat (List.length v)) + List.length v))%nat with 0%nat by lia.
  replace (Z.to_nat (n - Z.of_nat (List.length v)) `min` Z.to_nat n)%nat
    with (Z.to_nat n - List.length v)%nat by lia.
  cbn [replicate]. rewrite app_nil_r. reflexivity.
Qed.

(** Truncation keeps the last [n] bytes. *)
Lemma slice_from_drops (v : list Z) (n : Z) :
  0 <= n < JS.len v ->
  JS.slice_from v (JS.len v - n) = drop (List.length v - Z.to_nat n) v.
Proof.
  intros Hn. unfold JS.slice_from.
  set (k := (List.length v - Z.to_nat n)%nat).
  assert (Hk : JS.len (take k v) = JS.len v - n).
  { unfold JS.len in *. rewrite length_take. lia. }
  rewrite <- (take_drop k v) at 1. rewrite <- Hk.
  replace (JS.len v) with (JS.len (take k v) + n) by lia.
  apply slice_truncated. unfold JS.len in *. rewrite length_drop. lia.
Qed.

Lemma fit_piece (e : entry) (n : Z) (v : list Z) :
  length e = Some n -> 0 <= n ->
  fit e v = piece_of (Z.to_nat n) (Some v).
Proof.
  intros He Hn. unfold fit, piece_of. rewrite He.
  destruct (Z.ltb_spec (JS.len v) n) as [Hlt|Hge].
  - rewrite copy_pads by assumption.
    destruct (Nat.ltb_spec (List.length v) (Z.to_nat n)); [reflexivity|].
    unfold JS.len in Hlt. lia.
  - destruct (Nat.ltb_spec (List.length v) (Z.to_nat n)) as [Hlt'|_].
    { unfold JS.len in Hge. lia. }
    destruct (Z.ltb_spec n (JS.len v)) as [Hgt|Hle].
    + rewrite slice_from_drops by lia.
      destruct (Nat.ltb_spec (Z.to_nat n) (List.length v)); [reflexivity|].
      unfold JS.len in Hgt. lia.
    + destruct (Nat.ltb_spec (Z.to_nat n) (List.length v)); [|reflexivity].
      unfold JS.len in Hle. lia.
Qed.

Lemma piece_of_zeros (n : nat) : piece_of n (Some (replicate n 0)) = replicate n 0.
Proof.
  unfold piece_of. rewrite length_replicate.
  rewrite Nat.ltb_irrefl. reflexivity.
Qed.

Lemma piece_of_empty (n : nat) : piece_of n (Some []) = replicate n 0.
Proof.
  unfold piece_of. cbn [List.length].
  destruct n; [reflexivity|].
  change (0 <? S n)%nat with true. cbv iota.
  rewrite Nat.sub_0_r, app_nil_r. reflexivity.
Qed.

Lemma piece_of_length (n : nat) (v : option (list Z)) :
  List.length (piece_of n v) = n.
Proof.
  unfold piece_of. destruct v as [v|]; [|apply length_replicate].
  destruct (Nat.ltb_spec (List.length v) n).
  - rewrite length_app, length_replicate. lia.
  - destruct (Nat.ltb_spec n (List.length v)).
    + rewrite length_drop. lia.
    + lia.
Qed.

(** The buffer that [buildData] pushes for one sized entry. *)
Lemma entry_piece (e : entry) (values : gmap string string) :
  sized e ->
  exists value,
    value_for e values = Ok value /\
    fit e (Hex.to_bytes (Hex.strip value)) = piece values e.
Proof.
  intros (n & He & Hn). unfold value_for, piece, supplied. rewrite He.
  destruct (Z.ltb_spec n 0); [lia|].
  destruct (values !! tagHex e) as [s|].
  - destruct s as [|c s'].
    + eexists. split; [reflexivity|].
      rewrite decode_repeat00, (fit_piece e n) by assumption.
      cbn [Hex.strip Hex.to_bytes].
      rewrite piece_of_zeros, piece_of_empty. reflexivity.
    + eexists. split; [reflexivity|]. apply fit_piece; assumption.
  - eexists. split; [reflexivity|].
    rewrite decode_repeat00, (fit_piece e n) by assumption.
    apply piece_of_zeros.
Qed.

Lemma buildData_pieces (entries : list entry) (values : gmap string string) :
  Forall sized entries ->
  buildData entries values = Ok (concat (map (piece values) entries)).
Proof.
  induction 1 as [|e entries He Hes IH]; [reflexivity|].
  cbn [buildData map concat].
  destruct (entry_piece e values He) as (value & Hv & Hfit).
  rewrite Hv. cbn [bind]. rewrite IH. cbn [bind]. rewrite Hfit. reflexivity.
Qed.

End DOLFacts.

(** ** [DOLParser.parse] always returns *)

Module DOLParseFacts.
Import TLVParser DOLParser.

Lemma parseTag_loop_length (rest : list Z) (tag tagLength : Z) :
  tagLength < snd (parseTag_loop rest tag tagLength).
Proof.
  revert tag tagLength. induction rest as [|b rest IH]; intros tag tagLength; cbn [parseTag_loop].
  - cbn. lia.
  - destruct (JS.and b 128 =? 128); [|cbn; lia].
    specialize (IH (JS.or (JS.shl tag 8) b) (tagLength + 1)). lia.
Qed.

Lemma parseTag_in_range (buffer : list Z) (offset : Z) :
  0 <= offset < JS.len buffer ->
  exists tag tagLength, parseTag buffer offset = (Some tag, tagLength) /\ 1 <= tagLength.
Proof.
  intros Hin. unfold parseTag.
  destruct (JS.get buffer offset) as [b|] eqn:Hget.
  - destruct (JS.and b 31 =? 31).
    + pose proof (parseTag_loop_length (drop (Z.to_nat offset + 1) buffer) b 1) as Hl.
      destruct (parseTag_loop _ b 1) as [tag' tl]. cbn in Hl.
      exists tag', tl. split; [reflexivity|lia].
    + exists b, 1. split; [reflexivity|lia].
  - exfalso. unfold JS.get, JS.len in *.
    destruct (Z.ltb_spec offset 0); [lia|].
    apply lookup_ge_None in Hget. lia.
Qed.

Lemma parse_loop_total (fuel : nat) (buffer : list Z) (offset : Z) :
  0 <= offset -> JS.len buffer - offset <= Z.of_nat fuel ->
  exists entries, parse_loop fuel buffer offset = Ok entries.
Proof.
  revert offset. induction fuel as [|fuel IH]; intros offset H0 Hfuel.
  - cbn [parse_loop]. destruct (Z.ltb_spec offset (JS.len buffer)); [lia|]. eauto.
  - cbn [parse_loop]. destruct (Z.ltb_spec offset (JS.len buffer)); cbn [negb]; [|eauto].
    destruct (parseTag_in_range buffer offset) as (tag & tl & Htag & Htl); [lia|].
    rewrite Htag.
    destruct (IH (offset + tl + 1)) as (rest & Hrest); [lia | lia |].
    rewrite Hrest. cbn [bind]. eauto.
Qed.

(** Every DOL text is parsed to a list of entries: the loop neither throws
    nor needs more iterations than the buffer has bytes. *)
Lemma parse_total (dolHex : string) : exists entries, parse dolHex = Ok entries.
Proof.
  unfold parse. apply parse_loop_total; [lia|]. unfold JS.len. lia.
Qed.

End DOLParseFacts.

(** C7: for every list of DOL entries with byte lengths and every map of
    values, [buildData] returns the concatenation, in entry order, of one
    buffer per entry; that buffer has exactly [entry.length] bytes and is the
    supplied value zero-left-padded when shorter, its rightmost bytes when
    longer, and all zeros when nothing is supplied.  The entry for 9F02 of
    length 6 with the value '0010' gives 000000000010. *)
Theorem buildData_materializes (entries : list DOLParser.entry)
    (values : gmap string string) :
  Forall DOLSpec.sized entries ->
  DOLParser.buildData entries values
    = Ok (concat (map (DOLSpec.piece values) entries)) /\
  Forall (fun e => DOLParser.length e = Some (JS.len (DOLSpec.piece values e))) entries /\
  DOLParser.buildData [DOLSpec.amount_entry] {["9F02" := "0010"]}
    = Ok [0; 0; 0; 0; 0; 16].
Proof.
  intros Hs. split; [apply DOLFacts.buildData_pieces, Hs|]. split; [|reflexivity].
  eapply Forall_impl; [exact Hs|]. intros e (n & He & Hn).
  unfold DOLSpec.piece, JS.len. rewrite He, DOLFacts.piece_of_length.
  f_equal. lia.
Qed.

Lemma buildData_materializes_witness :
  let entries :=
    [DOLSpec.amount_entry; DOLParser.mkEntry 149 "95" (Some 5);
     DOLParser.mkEntry 154 "9A" (Some 2)] in
  let values : gmap string string := {["9F02" := "0010"; "9A" := "251231"]} in
  Forall DOLSpec.sized entries /\
  DOLParser.buildData entries values
    = Ok (concat (map (DOLSpec.piece values) entries)).
Proof.
  intros entries values.
  assert (Hs : Forall DOLSpec.sized entries).
  { repeat constructor; eexists; (split; [reflexivity|lia]). }
  split; [exact Hs|].
  exact (proj1 (buildData_materializes entries values Hs)).
Defined.

(** ** Tags *)

Module TagFacts.
Import TLVParser TagSpec.

Lemma land_shiftl8_low (x b : Z) : 0 <= b < 256 -> Z.land (Z.shiftl x 8) b = 0.
Proof.
  intros Hb. apply Z.bits_inj'. intros n Hn.
  rewrite Z.land_spec, Z.bits_0.
  destruct (Z.lt_ge_cases n 8) as [Hlt|Hge].
  - rewrite Z.shiftl_spec_low by assumption. reflexivity.
  - destruct (Z.eq_dec b 0) as [->|Hnz].
    + rewrite Z.bits_0. apply andb_false_r.
    + rewrite (Z.bits_above_log2 b n); [apply andb_false_r | lia |].
      assert (Z.log2 b < 8) by (apply Z.log2_lt_pow2; lia). lia.
Qed.

Lemma lor_shiftl8 (x b : Z) : 0 <= b < 256 -> Z.lor (Z.shiftl x 8) b = x * 256 + b.
Proof.
  intros Hb.
  pose proof (Z.add_lor_land (Z.shiftl x 8) b) as H.
  rewrite land_shiftl8_low in H by assumption.
  rewrite (Z.shiftl_mul_pow2 x 8) in * by lia. change (2 ^ 8) with 256 in *. lia.
Qed.

(** [(x << 8) | b] without overflow. *)
Lemma or_shl_byte (x b : Z) :
  0 <= x < 8388608 -> byte_ok b -> JS.or (JS.shl x 8) b = x * 256 + b.
Proof.
  unfold byte_ok. intros Hx Hb. unfold JS.or, JS.shl.
  rewrite (to_int32_small x) by lia.
  rewrite Z.shiftl_mul_pow2 by lia. change (2 ^ 8) with 256.
  rewrite !(to_int32_small (x * 256)) by lia.
  rewrite (to_int32_small b) by lia.
  rewrite <- lor_shiftl8 by assumption.
  rewrite Z.shiftl_mul_pow2 by lia. reflexivity.
Qed.

Lemma and_small (b m : Z) :
  -2147483648 <= b < 2147483648 -> -2147483648 <= m < 2147483648 ->
  JS.and b m = Z.land b m.
Proof. intros Hb Hm. unfold JS.and. rewrite !to_int32_small by lia. reflexivity. Qed.

(** [(x >> 8) & 0xFF] is the second-lowest byte. *)
Lemma sar8_and (x b : Z) :
  0 <= x < 8388608 -> byte_ok b ->
  JS.and (JS.sar (x * 256 + b) 8) 255 = x mod 256.
Proof.
  unfold byte_ok. intros Hx Hb. unfold JS.sar.
  rewrite (to_int32_small (x * 256 + b)) by lia.
  rewrite Z.shiftr_div_pow2 by lia. change (2 ^ 8) with 256.
  rewrite Z.div_add_l by lia. rewrite (Z.div_small b 256) by lia.
  rewrite Z.add_0_r, and_small by lia.
  change 255 with (Z.ones 8). rewrite Z.land_ones by lia. reflexivity.
Qed.

Lemma number_1 (b : Z) : number [b] = b.
Proof. unfold number. cbn. lia. Qed.

Lemma number_2 (b c : Z) : number [b; c] = b * 256 + c.
Proof. unfold number. cbn. lia. Qed.

Lemma number_3 (b c d : Z) : number [b; c; d] = (b * 256 + c) * 256 + d.
Proof. unfold number. cbn. lia. Qed.

Lemma long_first_byte (b : Z) : byte_ok b -> Z.land b 31 = 31 -> 31 <= b.
Proof.
  unfold byte_ok. intros Hb H31.
  change 31 with (Z.ones 5) in H31 at 1. rewrite Z.land_ones in H31 by lia.
  change (2 ^ 5) with 32 in H31.
  pose proof (Z.mod_le b 32). lia.
Qed.

(** [parseTag] reads a well-formed tag wherever it stands in a buffer. *)
Lemma parseTag_well_formed (pre t rest : list Z) :
  well_formed t ->
  parseTag (pre ++ t ++ rest) (JS.len pre) = (Some (number t), JS.len t).
Proof.
  intros Hwf. unfold parseTag.
  assert (Hdrop : forall b t', drop (Z.to_nat (JS.len pre) + 1) (pre ++ (b :: t') ++ rest)
                               = t' ++ rest).
  { intros b t'. unfold JS.len. rewrite Nat2Z.id.
    replace (length pre + 1)%nat with (length (pre ++ [b])) by (rewrite length_app; reflexivity).
    change ((b :: t') ++ rest) with ([b] ++ t' ++ rest).
    rewrite (app_assoc pre [b]). apply drop_app_length. }
  destruct Hwf as [b Hb H31 | b c Hb Hc H31 H128 | b c d Hb Hc Hd H31 Hc128 Hd128];
    rewrite get_app_r0; change (JS.get ((b :: _) ++ rest) 0) with (Some b);
    cbv iota; unfold byte_ok in *; rewrite (and_small b 31) by lia.
  - destruct (Z.eqb_spec (Z.land b 31) 31); [contradiction|].
    rewrite number_1. reflexivity.
  - rewrite H31, Z.eqb_refl, Hdrop. cbn [app parseTag_loop].
    rewrite (and_small c 128), H128 by lia. cbv iota.
    change (0 =? 128) with false. cbv iota.
    rewrite or_shl_byte by (unfold byte_ok; lia). rewrite number_2. reflexivity.
  - rewrite H31, Z.eqb_refl, Hdrop. cbn [app parseTag_loop].
    rewrite (and_small c 128), Hc128, Z.eqb_refl by lia.
    rewrite (and_small d 128), Hd128 by lia.
    change (0 =? 128) with false. cbv iota.
    rewrite (or_shl_byte b c) by (unfold byte_ok; lia).
    rewrite or_shl_byte by (unfold byte_ok; lia). rewrite number_3. reflexivity.
Qed.

(** For tags of one and two bytes the test looks at the first byte. *)
Lemma isConstructedTag_short (t : list Z) :
  well_formed t -> (length t <= 2)%nat ->
  isConstructedTag (number t) = first_byte_constructed t.
Proof.
  intros Hwf Hlen. unfold isConstructedTag.
  destruct Hwf as [b Hb H31 | b c Hb Hc H31 H128 | b c d Hb Hc Hd H31 Hc128 Hd128];
    [| |cbn in Hlen; lia]; unfold byte_ok in *.
  - rewrite number_1. destruct (Z.ltb_spec 255 b); [lia|].
    rewrite and_small by lia. reflexivity.
  - rewrite number_2. pose proof (long_first_byte b Hb H31).
    destruct (Z.ltb_spec 255 (b * 256 + c)); [|lia].
    rewrite sar8_and by (unfold byte_ok; lia). rewrite Z.mod_small by lia.
    rewrite and_small by lia. reflexivity.
Qed.

(** For a tag of three bytes the test looks at the second byte. *)
Lemma isConstructedTag_three (b c d : Z) :
  well_formed [b; c; d] ->
  isConstructedTag (number [b; c; d]) = (Z.land c 32 =? 32).
Proof.
  intros Hwf. unfold isConstructedTag. inversion Hwf as [| |? ? ? Hb Hc Hd H31 Hc128 Hd128]; subst.
  rewrite number_3. pose proof (long_first_byte b Hb H31). unfold byte_ok in *.
  destruct (Z.ltb_spec 255 ((b * 256 + c) * 256 + d)); [|lia].
  rewrite sar8_and by (unfold byte_ok; lia).
  replace (b * 256 + c) with (c + b * 256) by lia.
  rewrite Z.mod_add by lia. rewrite Z.mod_small by lia.
  rewrite and_small by lia. reflexivity.
Qed.

End TagFacts.

(** ** Lengths *)

Module LengthFacts.
Import TLVParser TLVBuilder.

Lemma land_128_small (n : Z) : 0 <= n < 128 -> Z.land n 128 = 0.
Proof.
  intros Hn. apply Z.bits_inj'. intros m Hm.
  rewrite Z.land_spec, Z.bits_0.
  change 128 with (2 ^ 7). rewrite Z.pow2_bits_eqb by lia.
  destruct (Z.eqb_spec 7 m) as [<-|]; [|apply andb_false_r].
  destruct (Z.eq_dec n 0) as [->|]; [reflexivity|].
  rewrite Z.bits_above_log2; [reflexivity | lia |].
  apply Z.log2_lt_pow2; lia.
Qed.

Lemma byte_of_and_255 (n : Z) :
  0 <= n < 2147483648 -> JS.to_uint8 (JS.and n 255) = n mod 256.
Proof.
  intros Hn. rewrite TagFacts.and_small by lia.
  change 255 with (Z.ones 8). rewrite Z.land_ones by lia. change (2 ^ 8) with 256.
  apply to_uint8_byte. unfold byte_ok. apply Z.mod_pos_bound. lia.
Qed.

Lemma sar_div (n k : Z) :
  0 <= n < 2147483648 -> 0 <= k -> JS.sar n k = n / 2 ^ k.
Proof.
  intros Hn Hk. unfold JS.sar. rewrite to_int32_small by lia.
  apply Z.shiftr_div_pow2. assumption.
Qed.

(** The bytes of [encodeLength] by band. *)
Lemma encodeLength_bands (n : Z) :
  0 <= n < 16777216 ->
  encodeLength n =
    if n <? 128 then [n]
    else if n <? 256 then [129; n]
    else if n <? 65536 then [130; n / 256; n mod 256]
    else [131; n / 65536; n / 256 mod 256; n mod 256].
Proof.
  intros Hn. unfold encodeLength.
  destruct (Z.ltb_spec n 128).
  { rewrite to_uint8_byte by (unfold byte_ok; lia). reflexivity. }
  destruct (Z.ltb_spec n 256).
  { rewrite to_uint8_byte by (unfold byte_ok; lia). reflexivity. }
  assert (H8 : 0 <= n / 256 < 65536).
  { split; [apply Z.div_pos; lia | apply Z.div_lt_upper_bound; lia]. }
  assert (H16 : 0 <= n / 65536 < 256).
  { split; [apply Z.div_pos; lia | apply Z.div_lt_upper_bound; lia]. }
  rewrite !sar_div by lia. change (2 ^ 8) with 256. change (2 ^ 16) with 65536.
  rewrite !byte_of_and_255 by lia.
  destruct (Z.ltb_spec n 65536).
  - rewrite (Z.mod_small (n / 256)); [reflexivity|].
    split; [lia | apply Z.div_lt_upper_bound; lia].
  - rewrite (Z.mod_small (n / 65536)) by lia. reflexivity.
Qed.

Lemma encodeLength_bytes (n : Z) : 0 <= n < 16777216 -> bytes_ok (encodeLength n).
Proof.
  intros Hn. rewrite encodeLength_bands by assumption.
  assert (0 <= n mod 256 < 256) by (apply Z.mod_pos_bound; lia).
  assert (0 <= n / 256 mod 256 < 256) by (apply Z.mod_pos_bound; lia).
  assert (0 <= n / 256) by (apply Z.div_pos; lia).
  assert (0 <= n / 65536) by (apply Z.div_pos; lia).
  assert (n / 65536 < 256) by (apply Z.div_lt_upper_bound; lia).
  destruct (Z.ltb_spec n 128); [|destruct (Z.ltb_spec n 256); [|destruct (Z.ltb_spec n 65536)]];
    unfold bytes_ok, byte_ok; repeat constructor; try lia.
  apply Z.div_lt_upper_bound; lia.
Qed.

Lemma get_after (pre l : list Z) (i : Z) (b : Z) :
  JS.get l i = Some b -> 0 <= i -> JS.get (pre ++ l) (JS.len pre + i) = Some b.
Proof. intros H Hi. rewrite get_app_r by assumption. exact H. Qed.

Lemma int_of_byte (b : Z) : byte_ok b -> JS.int_of (Some b) = b.
Proof. unfold byte_ok. intros Hb. cbn. apply to_int32_small. lia. Qed.

(** [parseLength] reads back what [encodeLength] wrote, wherever it stands
    in a buffer. *)
Lemma parseLength_encodeLength (pre rest : list Z) (n : Z) :
  0 <= n < 16777216 ->
  parseLength (pre ++ encodeLength n ++ rest) (JS.len pre)
    = (Some n, JS.len (encodeLength n)).
Proof.
  intros Hn. rewrite encodeLength_bands by assumption. unfold parseLength.
  assert (Hm : 0 <= n mod 256 < 256) by (apply Z.mod_pos_bound; lia).
  assert (Hm2 : 0 <= n / 256 mod 256 < 256) by (apply Z.mod_pos_bound; lia).
  assert (Hd : 0 <= n / 256) by (apply Z.div_pos; lia).
  assert (Hd2 : 0 <= n / 65536 < 256).
  { split; [apply Z.div_pos; lia | apply Z.div_lt_upper_bound; lia]. }
  pose proof (Z.div_mod n 256) as Hdm.
  pose proof (Z.div_mod (n / 256) 256) as Hdm2.
  assert (Hdd : n / 256 / 256 = n / 65536) by (rewrite Z.div_div by lia; reflexivity).
  rewrite get_app_r0.
  destruct (Z.ltb_spec n 128).
  { change (JS.get ([n] ++ rest) 0) with (Some n).
    rewrite int_of_byte by (unfold byte_ok; lia).
    rewrite TagFacts.and_small, land_128_small by lia. reflexivity. }
  destruct (Z.ltb_spec n 256).
  { change (JS.get ([129; n] ++ rest) 0) with (Some 129).
    change (JS.and (JS.int_of (Some 129)) 128 =? 0) with false.
    change (JS.and (JS.int_of (Some 129)) 127) with 1.
    change (Z.to_nat 1) with 1%nat. cbn [parseLength_loop].
    rewrite (get_after pre ([129; n] ++ rest) 1 n) by (reflexivity || lia).
    rewrite int_of_byte by (unfold byte_ok; lia).
    rewrite TagFacts.or_shl_byte by (unfold byte_ok; lia). reflexivity. }
  destruct (Z.ltb_spec n 65536).
  { assert (n / 256 < 256) by (apply Z.div_lt_upper_bound; lia).
    change (JS.get ([130; n / 256; n mod 256] ++ rest) 0) with (Some 130).
    change (JS.and (JS.int_of (Some 130)) 128 =? 0) with false.
    change (JS.and (JS.int_of (Some 130)) 127) with 2.
    change (Z.to_nat 2) with 2%nat. cbn [parseLength_loop].
    rewrite (get_after pre _ 1 (n / 256)) by (reflexivity || lia).
    change (1 + 1) with 2.
    rewrite (get_after pre _ 2 (n mod 256)) by (reflexivity || lia).
    rewrite !int_of_byte by (unfold byte_ok; lia).
    rewrite (TagFacts.or_shl_byte 0) by (unfold byte_ok; lia).
    rewrite TagFacts.or_shl_byte by (unfold byte_ok; lia).
    f_equal. f_equal. lia. }
  change (JS.get ([131; n / 65536; n / 256 mod 256; n mod 256] ++ rest) 0) with (Some 131).
  change (JS.and (JS.int_of (Some 131)) 128 =? 0) with false.
  change (JS.and (JS.int_of (Some 131)) 127) with 3.
  change (Z.to_nat 3) with 3%nat. cbn [parseLength_loop].
  rewrite (get_after pre _ 1 (n / 65536)) by (reflexivity || lia).
  change (1 + 1) with 2.
  rewrite (get_after pre _ 2 (n / 256 mod 256)) by (reflexivity || lia).
  change (2 + 1) with 3.
  rewrite (get_after pre _ 3 (n mod 256)) by (reflexivity || lia).
  rewrite !int_of_byte by (unfold byte_ok; lia).
  rewrite (TagFacts.or_shl_byte 0) by (unfold byte_ok; lia).
  rewrite (TagFacts.or_shl_byte (0 * 256 + n / 65536)) by (unfold byte_ok; lia).
  rewrite TagFacts.or_shl_byte by (unfold byte_ok; lia).
  f_equal. f_equal. lia.
Qed.

End LengthFacts.

(** ** The hexadecimal text of a tag number *)

Module TagHexFacts.
Import TLVParser TagSpec.

Lemma digits_more (f k : nat) (z : Z) (acc : string) :
  (1 <= f)%nat -> 0 <= z < 16 ^ Z.of_nat f ->
  Hex.digits (f + k) z acc = Hex.digits f z acc.
Proof.
  revert z acc. induction f as [|f IH]; intros z acc Hf Hz; [lia|].
  cbn [Nat.add Hex.digits].
  destruct (Z.ltb_spec z 16) as [|Hge]; [reflexivity|].
  destruct f as [|f'].
  { change (16 ^ Z.of_nat 1) with 16 in Hz. lia. }
  apply IH; [lia|].
  split; [apply Z.div_pos; lia|].
  apply Z.div_lt_upper_bound; [lia|].
  rewrite Nat2Z.inj_succ, Z.pow_succ_r in Hz by lia. lia.
Qed.

Lemma of_number_digits (N : nat) (z : Z) :
  (1 <= N)%nat -> 0 <= z < 16 ^ Z.of_nat N ->
  Hex.of_number z = Hex.digits N z EmptyString.
Proof.
  intros HN Hz. unfold Hex.of_number.
  destruct (Z.ltb_spec z 0); [lia|].
  set (f := (Z.to_nat (Z.log2 z) + 1)%nat).
  assert (Hf : 0 <= z < 16 ^ Z.of_nat f).
  { split; [lia|]. pose proof (Z.log2_nonneg z) as Hl.
    destruct (Z.eq_dec z 0) as [->|Hnz].
    - apply Z.pow_pos_nonneg; lia.
    - assert (Hlt : z < 2 ^ Z.succ (Z.log2 z)) by (apply Z.log2_spec; lia).
      assert (Hfe : Z.of_nat f = Z.succ (Z.log2 z)) by (unfold f; lia).
      rewrite Hfe.
      assert (2 ^ Z.succ (Z.log2 z) <= 16 ^ Z.succ (Z.log2 z))
        by (apply Z.pow_le_mono_l; lia).
      lia. }
  rewrite <- (digits_more f N) by (unfold f; lia || assumption).
  rewrite Nat.add_comm. apply digits_more; assumption.
Qed.

Lemma digits_byte (f : nat) (x b : Z) (acc : string) :
  byte_ok b -> 0 < x ->
  Hex.digits (S (S f)) (x * 256 + b) acc
    = Hex.digits f x (String (Hex.digit (b / 16)) (String (Hex.digit (b mod 16)) acc)).
Proof.
  intros Hb Hx. destruct (byte_nibbles b Hb) as (Hh & Hl & Heq).
  unfold byte_ok in Hb.
  assert (Hz16 : (x * 256 + b) / 16 = x * 16 + b / 16).
  { replace (x * 256 + b) with (b + (x * 16) * 16) by lia.
    rewrite Z.div_add by lia. lia. }
  assert (Hm16 : (x * 256 + b) mod 16 = b mod 16).
  { replace (x * 256 + b) with (b + (x * 16) * 16) by lia.
    apply Z.mod_add. lia. }
  assert (Hz256 : (x * 16 + b / 16) / 16 = x).
  { replace (x * 16 + b / 16) with (b / 16 + x * 16) by lia.
    rewrite Z.div_add by lia. rewrite (Z.div_small (b / 16)) by lia. lia. }
  assert (Hm256 : (x * 16 + b / 16) mod 16 = b / 16).
  { replace (x * 16 + b / 16) with (b / 16 + x * 16) by lia.
    rewrite Z.mod_add by lia. apply Z.mod_small. lia. }
  cbn [Hex.digits].
  destruct (Z.ltb_spec (x * 256 + b) 16); [lia|].
  rewrite Hz16, Hm16.
  destruct (Z.ltb_spec (x * 16 + b / 16) 16); [lia|].
  rewrite Hz256, Hm256. reflexivity.
Qed.

Lemma digits_first_byte (f : nat) (b : Z) (acc : string) :
  byte_ok b -> 16 <= b ->
  Hex.digits (S (S f)) b acc
    = String (Hex.digit (b / 16)) (String (Hex.digit (b mod 16)) acc).
Proof.
  intros Hb H16. destruct (byte_nibbles b Hb) as (Hh & Hl & Heq).
  cbn [Hex.digits].
  destruct (Z.ltb_spec b 16); [lia|].
  destruct (Z.ltb_spec (b / 16) 16); [reflexivity|lia].
Qed.

(** The text that the parser gives a well-formed tag is the hexadecimal
    text of its bytes. *)
Lemma tagHexOf_number (t : list Z) :
  well_formed t -> tagHexOf (number t) = Hex.of_bytes t.
Proof.
  intros Hwf. unfold tagHexOf.
  destruct Hwf as [b Hb H31 | b c Hb Hc H31 H128 | b c d Hb Hc Hd H31 Hc128 Hd128].
  - rewrite TagFacts.number_1, (of_number_digits 2) by (unfold byte_ok in Hb; lia).
    destruct (Z.lt_ge_cases b 16) as [Hlt|Hge].
    + unfold byte_ok in Hb. cbn [Hex.digits Hex.of_bytes].
      destruct (Z.ltb_spec b 16); [|lia].
      rewrite Z.div_small, Z.mod_small by lia. reflexivity.
    + rewrite digits_first_byte by assumption. reflexivity.
  - pose proof (TagFacts.long_first_byte b Hb H31).
    rewrite TagFacts.number_2, (of_number_digits 4)
      by (unfold byte_ok in *; change (16 ^ Z.of_nat 4) with 65536; lia).
    rewrite digits_byte by (assumption || lia).
    rewrite digits_first_byte by (assumption || lia). reflexivity.
  - pose proof (TagFacts.long_first_byte b Hb H31).
    rewrite TagFacts.number_3, (of_number_digits 6)
      by (unfold byte_ok in *; change (16 ^ Z.of_nat 6) with 16777216; lia).
    rewrite digits_byte by (assumption || (unfold byte_ok in *; lia)).
    rewrite digits_byte by (assumption || lia).
    rewrite digits_first_byte by (assumption || lia). reflexivity.
Qed.

End TagHexFacts.

(** ** Decoding one node *)

Module ParseFacts.
Import TLVParser TLVBuilder TagSpec.

Lemma parseBuffer_S (fuel : nat) (buffer : list Z) (offset endOffset : Z) :
  parseBuffer (S fuel) buffer offset endOffset =
  if negb (offset <? endOffset) then Ok []
  else if is_padding (JS.get buffer offset) then
    parseBuffer fuel buffer (offset + 1) endOffset
  else
    let '(tag, tagLength) := parseTag buffer offset in
    let offset1 := offset + tagLength in
    let '(length, lengthBytes) := parseLength buffer offset1 in
    let offset2 := offset1 + lengthBytes in
    let value :=
      match length with
      | Some n => JS.slice buffer offset2 (offset2 + n)
      | None => []
      end in
    match tag with
    | None => Throw TypeError
    | Some tag =>
        let isConstructed := isConstructedTag tag in
        do children <-
          (if isConstructed then parseBuffer fuel value 0 (JS.len value)
           else Ok []);
        let tlvObject :=
          TLVObject.mk tag (tagHexOf tag) length value (Hex.of_bytes value)
            isConstructed children in
        do rest <-
          (match length with
           | Some n => parseBuffer fuel buffer (offset2 + n) endOffset
           | None => Ok []
           end);
        Ok (tlvObject :: rest)
    end.
Proof. reflexivity. Qed.

(** At or past the end offset the loop is over. *)
Lemma parseBuffer_end (fuel : nat) (buffer : list Z) (offset endOffset : Z) :
  endOffset <= offset -> parseBuffer (S fuel) buffer offset endOffset = Ok [].
Proof.
  intros H. rewrite parseBuffer_S.
  destruct (Z.ltb_spec offset endOffset); [lia|reflexivity].
Qed.

Lemma well_formed_len (t : list Z) : well_formed t -> 1 <= JS.len t <= 3.
Proof. intros [| |]; unfold JS.len; cbn; lia. Qed.

Lemma well_formed_bytes (t : list Z) : well_formed t -> bytes_ok t.
Proof.
  intros [| |]; unfold bytes_ok;
    repeat (apply Forall_cons_2; [assumption|]); apply Forall_nil_2.
Qed.

Lemma not_padding_get (t rest : list Z) :
  not_padding t -> is_padding (JS.get (t ++ rest) 0) = false.
Proof.
  destruct t as [|b t']; [contradiction|]. intros [H0 H255].
  change (JS.get ((b :: t') ++ rest) 0) with (Some b).
  unfold is_padding, JS.strict_eq.
  destruct (Z.eqb_spec b 0); [contradiction|].
  destruct (Z.eqb_spec b 255); [contradiction|]. reflexivity.
Qed.

(** One step of the loop on a buffer that holds, after [pre], a well-formed
    tag, the encoded length [n] and the value bytes [v]: either all [n] of
    them, followed by [post], or fewer of them at the very end of the
    buffer. *)
Lemma parseBuffer_node (fuel : nat) (pre t v post : list Z) (n : Z) :
  well_formed t -> not_padding t ->
  0 <= n < 16777216 ->
  JS.len v = n \/ (JS.len v < n /\ post = []) ->
  let buffer := pre ++ t ++ encodeLength n ++ v ++ post in
  let tag := number t in
  parseBuffer (S fuel) buffer (JS.len pre) (JS.len buffer) =
  do children <-
    (if isConstructedTag tag then parseBuffer fuel v 0 (JS.len v) else Ok []);
  do rest <-
    parseBuffer fuel buffer
      (JS.len pre + JS.len t + JS.len (encodeLength n) + n) (JS.len buffer);
  Ok (TLVObject.mk tag (tagHexOf tag) (Some n) v (Hex.of_bytes v)
        (isConstructedTag tag) children :: rest).
Proof.
  intros Hwf Hnp Hn Hv buffer tag.
  pose proof (well_formed_len t Hwf) as Ht.
  rewrite parseBuffer_S.
  assert (Hlt : JS.len pre < JS.len buffer).
  { unfold buffer. rewrite !len_app.
    pose proof (len_nonneg (encodeLength n)). pose proof (len_nonneg v).
    pose proof (len_nonneg post). lia. }
  destruct (Z.ltb_spec (JS.len pre) (JS.len buffer)); [|lia]. cbn [negb].
  unfold buffer at 1. rewrite get_app_r0, not_padding_get by assumption.
  unfold buffer at 1. rewrite TagFacts.parseTag_well_formed by assumption.
  cbv zeta. fold tag.
  assert (Hlen : parseLength buffer (JS.len pre + JS.len t)
                 = (Some n, JS.len (encodeLength n))).
  { unfold buffer. rewrite <- len_app, (app_assoc pre t).
    apply LengthFacts.parseLength_encodeLength. assumption. }
  rewrite Hlen.
  assert (Hslice : JS.slice buffer (JS.len pre + JS.len t + JS.len (encodeLength n))
                     (JS.len pre + JS.len t + JS.len (encodeLength n) + n) = v).
  { unfold buffer. rewrite <- !len_app.
    rewrite (app_assoc pre t), (app_assoc (pre ++ t)).
    destruct Hv as [<-|[Hshort ->]].
    - apply slice_middle.
    - rewrite app_nil_r. apply slice_truncated. lia. }
  rewrite Hslice. reflexivity.
Qed.

End ParseFacts.

(** ** Decoding what the builder encoded *)

Module RoundTrip.
Import TLVParser TLVBuilder TagSpec TLVSpec.

(** Induction on builder calls, with the hypothesis for every call of a
    [buildFn]. *)
Lemma call_ind' (P : call -> Prop)
    (Hprim : forall tagHex v, P (Primitive tagHex v))
    (Hcons : forall tagHex buildFn, Forall P buildFn -> P (Constructed tagHex buildFn)) :
  forall c, P c.
Proof.
  exact (fix F (c : call) : P c :=
           match c with
           | Primitive tagHex v => Hprim tagHex v
           | Constructed tagHex buildFn =>
               Hcons tagHex buildFn
                 ((fix G (l : list call) : Forall P l :=
                     match l with
                     | [] => @List.Forall_nil _ P
                     | x :: l' => @List.Forall_cons _ P x l' (F x) (G l')
                     end) buildFn)
           end).
Qed.

Lemma valid_all (l : list call) :
  (fix all (l : list call) : Prop :=
     match l with
     | [] => True
     | c' :: l' => valid c' /\ all l'
     end) l <-> Forall valid l.
Proof.
  induction l as [|c l IH]; [split; [constructor | trivial]|].
  rewrite Forall_cons, <- IH. reflexivity.
Qed.

Lemma agreeing_all (l : list call) :
  (fix all (l : list call) : Prop :=
     match l with
     | [] => True
     | c' :: l' => agreeing c' /\ all l'
     end) l <-> Forall agreeing l.
Proof.
  induction l as [|c l IH]; [split; [constructor | trivial]|].
  rewrite Forall_cons, <- IH. reflexivity.
Qed.

(** The builder appends the item of each call, in order. *)
Lemma run_call_item (c : call) (acc : list item) : run_call c acc = acc ++ [item_of c].
Proof.
  revert acc. induction c as [tagHex v|tagHex buildFn IH] using call_ind'; intros acc;
    [reflexivity|].
  cbn [run_call item_of]. do 3 f_equal.
  assert (Hrun : forall acc',
    (fix run (cs : list call) (acc : list item) : list item :=
       match cs with
       | [] => acc
       | c' :: cs' => run cs' (run_call c' acc)
       end) buildFn acc' = acc' ++ map item_of buildFn).
  { induction IH as [|c l Hc _ IHl]; intros acc'; [symmetry; apply app_nil_r|].
    rewrite Hc, IHl, <- app_assoc. reflexivity. }
  rewrite Hrun. reflexivity.
Qed.

Lemma run_items (cs : list call) (acc : list item) : run cs acc = acc ++ map item_of cs.
Proof.
  revert acc. induction cs as [|c cs IH]; intros acc; [symmetry; apply app_nil_r|].
  cbn [run map]. rewrite run_call_item, IH, <- app_assoc. reflexivity.
Qed.

Lemma built_encode (cs : list call) : built cs = encode cs.
Proof. unfold built, encode. rewrite run_items. reflexivity. Qed.

(** On the agreeing tags the parser's test gives the bit of the first
    byte. *)
Lemma isConstructedTag_agreeing (t : list Z) :
  well_formed t -> second_byte_agrees t ->
  isConstructedTag (number t) = first_byte_constructed t.
Proof.
  intros Hwf Hag.
  destruct Hwf as [b Hb H31 | b c Hb Hc H31 H128 | b c d Hb Hc Hd H31 Hc128 Hd128].
  - apply TagFacts.isConstructedTag_short; [constructor; assumption | cbn; lia].
  - apply TagFacts.isConstructedTag_short; [constructor; assumption | cbn; lia].
  - rewrite TagFacts.isConstructedTag_three by (constructor; assumption).
    exact Hag.
Qed.

Lemma item_value_len (c : call) : valid c -> 0 <= JS.len (value (item_of c)) < 16777216.
Proof.
  destruct c as [tagHex v|tagHex buildFn]; cbn [valid item_of value].
  - intros (_ & _ & Hlen). pose proof (len_nonneg (to_buffer v)). lia.
  - intros (_ & _ & Hlen). fold (encode buildFn). pose proof (len_nonneg (encode buildFn)). lia.
Qed.

Lemma item_tag (c : call) :
  valid c ->
  exists t, well_formed t /\ not_padding t /\
    tag (item_of c) = Hex.of_bytes t /\ encodeTag (tag (item_of c)) = t /\
    first_byte_constructed t = constructed (item_of c).
Proof.
  assert (H : forall tagHex k, valid_tag tagHex k ->
    exists t, well_formed t /\ not_padding t /\
      toUpperCase tagHex = Hex.of_bytes t /\
      encodeTag (toUpperCase tagHex) = t /\ first_byte_constructed t = k).
  { intros tagHex k (t & Hwf & Hnp & Hhex & Hk). exists t.
    repeat split; try assumption.
    unfold encodeTag. rewrite Hhex.
    apply to_bytes_of_bytes, ParseFacts.well_formed_bytes, Hwf. }
  destruct c as [tagHex v|tagHex buildFn]; cbn [valid item_of tag constructed];
    intros (Htag & _); apply H, Htag.
Qed.

Lemma decodes_list (cs : list call) :
  Forall valid cs -> Forall agreeing cs -> Forall children_decode cs -> decodes cs.
Proof.
  induction cs as [|c cs IH]; intros Hv Ha Hc fuel pre Hfuel.
  - destruct fuel as [|fuel]; [cbn in Hfuel; lia|].
    apply ParseFacts.parseBuffer_end. unfold encode. cbn [map build].
    rewrite app_nil_r. lia.
  - apply Forall_cons in Hv as [Hvc Hv]. apply Forall_cons in Ha as [Hac Ha].
    apply Forall_cons in Hc as [Hcc Hc].
    destruct (item_tag c Hvc) as (t & Hwf & Hnp & Htag & Henc & Hbit).
    pose proof (item_value_len c Hvc) as Hlen.
    pose proof (ParseFacts.well_formed_len t Hwf) as Htlen.
    assert (Hagree : second_byte_agrees t).
    { destruct c; cbn [agreeing item_of tag] in *; rewrite <- Henc; tauto. }
    set (v := value (item_of c)) in *.
    assert (Hencode : encode (c :: cs) = t ++ encodeLength (JS.len v) ++ v ++ encode cs).
    { unfold encode. cbn [map build]. rewrite Henc. reflexivity. }
    rewrite Hencode in *.
    destruct fuel as [|fuel]; [lia|].
    rewrite ParseFacts.parseBuffer_node by (assumption || lia || (left; reflexivity)).
    rewrite isConstructedTag_agreeing, Hbit by assumption.
    assert (Hsize : (length v + length (encode cs) < fuel)%nat).
    { rewrite !length_app in Hfuel. unfold JS.len in Htlen. lia. }
    assert (Hchildren :
      (if constructed (item_of c) then parseBuffer fuel v 0 (JS.len v) else Ok [])
      = Ok (TLVObject.children (expected c))).
    { destruct c as [tagHex w|tagHex buildFn]; [reflexivity|].
      cbn [item_of constructed expected TLVObject.children].
      unfold v. cbn [item_of value]. fold (encode buildFn).
      apply (Hcc fuel []). unfold v in Hsize. cbn [item_of value] in Hsize.
      fold (encode buildFn) in Hsize. lia. }
    rewrite Hchildren. cbn [bind].
    replace (JS.len pre + JS.len t + JS.len (encodeLength (JS.len v)) + JS.len v)
      with (JS.len (pre ++ t ++ encodeLength (JS.len v) ++ v))
      by (rewrite !len_app; lia).
    replace (pre ++ t ++ encodeLength (JS.len v) ++ v ++ encode cs)
      with ((pre ++ t ++ encodeLength (JS.len v) ++ v) ++ encode cs)
      by (rewrite <- !app_assoc; reflexivity).
    rewrite (IH Hv Ha Hc fuel) by lia. cbn [bind map].
    f_equal. f_equal.
    rewrite TagHexFacts.tagHexOf_number by assumption.
    destruct c as [tagHex w|tagHex buildFn];
      cbn [expected item_of tag value constructed TLVObject.children] in *;
      rewrite Henc, Htag; reflexivity.
Qed.

Lemma children_decode_all (c : call) : valid c -> agreeing c -> children_decode c.
Proof.
  induction c as [tagHex v|tagHex buildFn IH] using call_ind'; [constructor|].
  cbn [valid agreeing children_decode]. intros (_ & Hv & _) (_ & Ha).
  apply valid_all in Hv. apply agreeing_all in Ha.
  apply decodes_list; try assumption.
  clear - IH Hv Ha. induction IH as [|c l Hc _ IHl]; [constructor|].
  apply Forall_cons in Hv as [Hvc Hv]. apply Forall_cons in Ha as [Hac Ha].
  constructor; auto.
Qed.

(** Round trip on the trees that are valid and whose tags are agreeing. *)
Lemma decode_encode (cs : list call) :
  Forall valid cs -> Forall agreeing cs -> decodes cs.
Proof.
  intros Hv Ha. apply decodes_list; try assumption.
  clear - Hv Ha. induction Hv as [|c l Hc _ IHl]; [constructor|].
  apply Forall_cons in Ha as [Hac Ha].
  constructor; [apply children_decode_all; assumption | apply IHl, Ha].
Qed.

End RoundTrip.

Module ParseHex.
Import TLVParser TLVBuilder TagSpec TLVSpec.

Lemma to_bytes_ok (s : string) : bytes_ok (Hex.to_bytes s).
Proof.
  assert (Hv : forall c z, Hex.value c = Some z -> 0 <= z < 16).
  { intros c z. unfold Hex.value.
    repeat match goal with
           | |- context [if ?b then _ else _] => destruct b eqn:?
           end; intros [= <-]; lia. }
  assert (H : forall n s, (String.length s <= n)%nat -> bytes_ok (Hex.to_bytes s)).
  { induction n as [|n IH]; intros s' Hlen.
    - destruct s'; [constructor | cbn in Hlen; lia].
    - destruct s' as [|c1 [|c2 s'']]; try constructor.
      cbn [Hex.to_bytes].
      destruct (Hex.value c1) as [h|] eqn:H1; [|constructor].
      destruct (Hex.value c2) as [l|] eqn:H2; [|constructor].
      apply Forall_cons_2.
      + apply Hv in H1. apply Hv in H2. unfold byte_ok. lia.
      + apply IH. cbn in Hlen. lia. }
  apply (H (String.length s)). lia.
Qed.

(** [parse] of the hexadecimal text of a buffer works on that buffer. *)
Lemma parse_of_bytes (fuel : nat) (buffer : list Z) :
  bytes_ok buffer ->
  parse fuel (Hex.of_bytes buffer) = parseBuffer fuel buffer 0 (JS.len buffer).
Proof.
  intros Hok. unfold parse.
  rewrite strip_of_bytes, to_bytes_of_bytes by assumption. reflexivity.
Qed.

Lemma item_bytes (c : call) : valid c -> bytes_ok (encode [c]).
Proof.
  induction c as [tagHex v|tagHex buildFn IH] using RoundTrip.call_ind'; intros Hv.
  - destruct (RoundTrip.item_tag _ Hv) as (t & Hwf & _ & _ & Henc & _).
    pose proof (RoundTrip.item_value_len _ Hv) as Hlen.
    unfold encode. cbn [map build]. rewrite Henc, app_nil_r.
    repeat apply bytes_ok_app.
    + apply ParseFacts.well_formed_bytes, Hwf.
    + apply LengthFacts.encodeLength_bytes, Hlen.
    + cbn [valid] in Hv. cbn [item_of value]. tauto.
  - destruct (RoundTrip.item_tag _ Hv) as (t & Hwf & _ & _ & Henc & _).
    pose proof (RoundTrip.item_value_len _ Hv) as Hlen.
    unfold encode. cbn [map build]. rewrite Henc, app_nil_r.
    repeat apply bytes_ok_app.
    + apply ParseFacts.well_formed_bytes, Hwf.
    + apply LengthFacts.encodeLength_bytes, Hlen.
    + cbn [valid] in Hv. destruct Hv as (_ & Hall & _).
      apply RoundTrip.valid_all in Hall.
      cbn [item_of value]. clear - IH Hall.
      induction IH as [|c l Hc _ IHl]; [constructor|].
      apply Forall_cons in Hall as [Hvc Hall].
      specialize (Hc Hvc). unfold encode in Hc. cbn [map build] in *.
      rewrite app_nil_r in Hc.
      rewrite !app_assoc. apply bytes_ok_app; [|apply IHl, Hall].
      rewrite <- !app_assoc. exact Hc.
Qed.

Lemma encode_bytes (cs : list call) : Forall valid cs -> bytes_ok (encode cs).
Proof.
  induction 1 as [|c l Hc _ IHl]; [constructor|].
  pose proof (item_bytes c Hc) as H. unfold encode in *. cbn [map build] in *.
  rewrite app_nil_r in H.
  rewrite !app_assoc. apply bytes_ok_app; [|exact IHl].
  rewrite <- !app_assoc. exact H.
Qed.

(** Round trip through the hexadecimal text, as the engine calls the
    parser, for valid trees with agreeing tags. *)
Lemma parse_built (cs : list call) (fuel : nat) :
  Forall valid cs -> Forall agreeing cs ->
  (length (encode cs) < fuel)%nat ->
  parse fuel (Hex.of_bytes (built cs)) = Ok (map expected cs).
Proof.
  intros Hv Ha Hfuel. rewrite RoundTrip.built_encode.
  rewrite parse_of_bytes by (apply encode_bytes, Hv).
  apply (RoundTrip.decode_encode cs Hv Ha fuel [] Hfuel).
Qed.

End ParseHex.

(** ** Claims about the TLV codec *)

(** The tag text [tagHex] is valid, being the text of the bytes [t]. *)
Ltac valid_tag_by t :=
  exists t; split;
  [ constructor;
    first [ unfold byte_ok; lia | reflexivity | vm_compute; congruence ]
  | split; [ unfold TagSpec.not_padding; split; lia | split; reflexivity ] ].

Section TLVClaims.
Import TLVParser TLVBuilder TagSpec TLVSpec.

(** C8 (the code at the failing input): for the three-byte tag BF 81 01 the
    first byte has bit 0x20 set, yet [isConstructedTag] answers false; for
    DF A1 01 the first byte has the bit clear, yet it answers true.  The test
    reads [(tag >> 8) & 0xFF], which is the second byte of a three-byte tag
    (lemma [TagFacts.isConstructedTag_three]); it is the first byte only for
    tags of one and two bytes (lemma [TagFacts.isConstructedTag_short]). *)
Theorem constructed_bit_of_three_byte_tags :
  (parseTag [191; 129; 1] 0 = (Some 12550401, 3) /\
   first_byte_constructed [191; 129; 1] = true /\
   isConstructedTag 12550401 = false) /\
  (parseTag [223; 161; 1] 0 = (Some 14655745, 3) /\
   first_byte_constructed [223; 161; 1] = false /\
   isConstructedTag 14655745 = true).
Proof. repeat split; reflexivity. Qed.

(** C1 (the code at the failing input): the tree built by
    [addConstructed('BF8101', b => b.addPrimitive('50', '41'))] is encoded as
    [BF8101 03 500141]; decoding these bytes gives a node that is not
    constructed and has no children, where the tree that was built has one
    child.  Conversely the primitive node [DFA101] comes back constructed,
    with a child. *)
Theorem three_byte_tag_tree_not_reproduced :
  built TLVExamples.three_byte_constructed = [191; 129; 1; 3; 80; 1; 65] /\
  Forall valid TLVExamples.three_byte_constructed /\
  parse 8 (buildHex (run TLVExamples.three_byte_constructed []))
    = Ok [TLVObject.mk 12550401 "BF8101" (Some 3) [80; 1; 65] "500141" false []] /\
  parse 8 (buildHex (run TLVExamples.three_byte_constructed []))
    <> Ok (map expected TLVExamples.three_byte_constructed) /\
  parse 8 (buildHex (run TLVExamples.three_byte_primitive []))
    <> Ok (map expected TLVExamples.three_byte_primitive).
Proof.
  split; [reflexivity|]. split.
  { apply Forall_cons_2; [|apply Forall_nil_2].
    cbn [TLVExamples.three_byte_constructed valid].
    split; [valid_tag_by [191; 129; 1]|]. split; [|reflexivity].
    split; [|exact I]. split; [valid_tag_by [80]|].
    split; [apply ParseHex.to_bytes_ok | reflexivity]. }
  split; [vm_compute; reflexivity|].
  split; vm_compute; intros H; discriminate H.
Qed.

End TLVClaims.

Section PastTheEnd.
Import TLVParser TLVBuilder TagSpec TLVSpec.














End PastTheEnd.

Section GPOLayout.
Import TLVParser TLVBuilder TagSpec TLVSpec EMVProtocolEngine.

(** The bytes that GPO processing reads from a response in Format 1. *)
Lemma gpo_format1_slices (aipv aflv : list Z) :
  JS.len aipv = 2 ->
  let data := TLVExamples.gpo_format1 aipv aflv in
  JS.get data 0 = Some 128 /\
  JS.get data 1 = Some (JS.len aipv + JS.len aflv) /\
  JS.slice data 2 4 = aipv /\
  JS.slice data 4 (2 + (JS.len aipv + JS.len aflv)) = aflv.
Proof.
  intros Hlen data. unfold data, TLVExamples.gpo_format1.
  set (ll := JS.len aipv + JS.len aflv).
  repeat split.
  - change (128 :: ll :: aipv ++ aflv) with ([128; ll] ++ aipv ++ aflv).
    change 2 with (JS.len [128; ll]) at 1.
    replace 4 with (JS.len [128; ll] + JS.len aipv) by (rewrite Hlen; reflexivity).
    apply slice_middle.
  - change (128 :: ll :: aipv ++ aflv) with ([128; ll] ++ aipv ++ aflv).
    rewrite app_assoc.
    replace 4 with (JS.len ([128; ll] ++ aipv))
      by (rewrite len_app, Hlen; reflexivity).
    replace (2 + ll) with (JS.len ([128; ll] ++ aipv) + JS.len aflv)
      by (rewrite len_app; change (JS.len [128; ll]) with 2; unfold ll; lia).
    rewrite <- (app_nil_r aflv) at 1. apply slice_middle.
Qed.

End GPOLayout.

(** ** The outcomes of the parser that are not a list of nodes *)

Section ParserOutcomes.
Import TLVParser.

(** A length field of four bytes with the high bit set decodes to a
    negative number.  In [50 84 FFFFFFFA] the length is -6, which moves the
    offset back to 0: the [while] loop of [parseBuffer] never ends, and no
    amount of fuel gives a result. *)
Example negative_length_never_returns (fuel : nat) :
  parse fuel "5084FFFFFFFA" = OutOfFuel.
Proof.
  unfold parse.
  change (Hex.to_bytes (Hex.strip "5084FFFFFFFA")) with [80; 132; 255; 255; 255; 250].
  change (JS.len [80; 132; 255; 255; 255; 250]) with 6.
  induction fuel as [|fuel IH]; [reflexivity|].
  change (parseBuffer (S fuel) [80; 132; 255; 255; 255; 250] 0 6)
    with (do rest <- parseBuffer fuel [80; 132; 255; 255; 255; 250] 0 6;
          Ok (TLVObject.mk 80 "50" (Some (-6)) [] "" false [] :: rest)).
  rewrite IH. reflexivity.
Qed.

(** In [50 84 80000000] the length is -2^31; the next tag is read at a
    negative offset, is [undefined], and [tag.toString] throws. *)
Example negative_offset_throws : parse 8 "508480000000" = Throw TypeError.
Proof. reflexivity. Qed.

(** The examples of the specification for status words and the AFL. *)
Example status_word_examples :
  SW.isSuccess 36864 = true /\ SW.isSuccess 37120 = true /\
  SW.isSuccess 27266 = false /\
  SW.hasMoreData 24837 = true /\ SW.getBytesAvailable 24837 = 5.
Proof. repeat split; reflexivity. Qed.

Example afl_example :
  EMVProtocolEngine.parseAFL [8; 1; 1; 0] = [mkAFL 1 (Some 1) (Some 1) (Some 0)].
Proof. reflexivity. Qed.

(** The example of the specification for the kernel fallback: preferred C8,
    actual C6. *)
Example kernel_fallback_example :
  EMVProtocolEngine.detectKernelFallback KernelID.C8 KernelID.C6
    = [("KERNEL_FALLBACK", WARNING); ("C8_FALLBACK", WARNING)].
Proof. reflexivity. Qed.

End ParserOutcomes.

(** * Further properties of the code *)

(** ** Response APDUs and status words *)

Module ResponseFacts.
Import ResponseAPDU.

(** The last two bytes of a buffer and what stands before them. *)
Lemma last_two (d : list Z) (a b : Z) :
  JS.get (d ++ [a; b]) (JS.len (d ++ [a; b]) - 2) = Some a /\
  JS.get (d ++ [a; b]) (JS.len (d ++ [a; b]) - 1) = Some b /\
  JS.slice (d ++ [a; b]) 0 (JS.len (d ++ [a; b]) - 2) = d.
Proof.
  rewrite len_app. change (JS.len [a; b]) with 2.
  replace (JS.len d + 2 - 2) with (JS.len d + 0) by lia.
  replace (JS.len d + 2 - 1) with (JS.len d + 1) by lia.
  rewrite !get_app_r by lia. split; [reflexivity|]. split; [reflexivity|].
  pose proof (slice_middle [] d [a; b]) as H.
  cbn [app] in H. change (JS.len []) with 0 in H.
  rewrite Z.add_0_r. rewrite Z.add_0_l in H. exact H.
Qed.

Lemma split_last_two (buffer : list Z) :
  2 <= JS.len buffer -> exists d a b, buffer = d ++ [a; b].
Proof.
  unfold JS.len. intros Hlen.
  rewrite <- (take_drop (length buffer - 2) buffer).
  assert (Hd : length (drop (length buffer - 2) buffer) = 2%nat)
    by (rewrite length_drop; lia).
  destruct (drop (length buffer - 2) buffer) as [|a [|b [|? ?]]]; try discriminate.
  eauto.
Qed.

(** [(sw1 << 8) | sw2] and the three masks of the status word. *)
Lemma sw_bytes (r : t) :
  byte_ok (sw1 r) -> byte_ok (sw2 r) -> sw r = sw1 r * 256 + sw2 r.
Proof.
  unfold byte_ok. intros H1 H2. unfold sw.
  apply TagFacts.or_shl_byte; unfold byte_ok; lia.
Qed.

Lemma land_high_byte (x b : Z) :
  0 <= x < 256 -> 0 <= b < 256 -> Z.land (x * 256 + b) 65280 = x * 256.
Proof.
  intros Hx Hb. rewrite <- TagFacts.lor_shiftl8 by assumption.
  rewrite Z.land_lor_distr_l.
  change 65280 with (Z.shiftl 255 8).
  rewrite (Z.land_comm b), (TagFacts.land_shiftl8_low 255 b) by assumption.
  rewrite Z.lor_0_r, <- Z.shiftl_land.
  change 255 with (Z.ones 8). rewrite Z.land_ones by lia.
  rewrite Z.mod_small by (change (2 ^ 8) with 256; lia).
  rewrite Z.shiftl_mul_pow2 by lia. reflexivity.
Qed.

Lemma land_low_byte (x b : Z) :
  0 <= x -> 0 <= b < 256 -> Z.land (x * 256 + b) 255 = b.
Proof.
  intros Hx Hb. change 255 with (Z.ones 8). rewrite Z.land_ones by lia.
  change (2 ^ 8) with 256. rewrite Z.add_comm, Z.mod_add by lia.
  apply Z.mod_small. assumption.
Qed.

End ResponseFacts.

Section ResponseProperties.
Import ResponseAPDU ResponseFacts.

(** X1: reading back a serialised response gives its data and the low
    eight bits of SW1 and SW2, whatever the response; so a response whose
    status bytes are bytes is read back as it was. *)
Theorem response_apdu_roundtrip (r : t) :
  fromBuffer (toBuffer r)
    = Ok (mk (data r) (JS.to_uint8 (sw1 r)) (JS.to_uint8 (sw2 r))).
Proof.
  unfold fromBuffer, toBuffer.
  destruct (last_two (data r) (JS.to_uint8 (sw1 r)) (JS.to_uint8 (sw2 r)))
    as (H1 & H2 & H3).
  rewrite H1, H2, H3.
  pose proof (len_nonneg (data r)).
  rewrite len_app. change (JS.len [JS.to_uint8 (sw1 r); JS.to_uint8 (sw2 r)]) with 2.
  destruct (Z.ltb_spec (JS.len (data r) + 2) 2); [lia|reflexivity].
Qed.

(** X2: [ResponseAPDU.fromBuffer] on a buffer of bytes either throws
    'Invalid response: too short', exactly when fewer than two bytes are
    given, or returns a response that [toBuffer] serialises to the very
    buffer; reading [undefined] status bytes does not happen. *)
Theorem response_apdu_reencode (buffer : list Z) :
  bytes_ok buffer ->
  match fromBuffer buffer with
  | Ok r => 2 <= JS.len buffer /\ toBuffer r = buffer
  | Throw e => e = Error "Invalid response: too short" /\ JS.len buffer < 2
  | OutOfFuel => False
  end.
Proof.
  intros Hb. unfold fromBuffer.
  destruct (Z.ltb_spec (JS.len buffer) 2) as [Hlt|Hge]; [split; [reflexivity|lia]|].
  destruct (split_last_two buffer Hge) as (d & a & b & ->).
  destruct (last_two d a b) as (H1 & H2 & H3). rewrite H1, H2, H3.
  split; [assumption|]. unfold toBuffer. cbn [data sw1 sw2].
  apply Forall_app in Hb as [_ Hab].
  inversion Hab as [|? ? Ha Hb']; subst. inversion Hb' as [|? ? Hb'' _]; subst.
  rewrite !to_uint8_byte by assumption. reflexivity.
Qed.

Lemma response_apdu_reencode_witness :
  bytes_ok [111; 0; 144; 0] /\
  match fromBuffer [111; 0; 144; 0] with
  | Ok r => 2 <= JS.len [111; 0; 144; 0] /\ toBuffer r = [111; 0; 144; 0]
  | Throw e => e = Error "Invalid response: too short" /\ JS.len [111; 0; 144; 0] < 2
  | OutOfFuel => False
  end.
Proof.
  assert (H : bytes_ok [111; 0; 144; 0])
    by (unfold bytes_ok, byte_ok; repeat constructor; lia).
  split; [exact H | exact (response_apdu_reencode [111; 0; 144; 0] H)].
Defined.

(** X3: for a response whose SW1 and SW2 are bytes, the status word is
    SW1 * 256 + SW2; the response is a success exactly for 9000 and 91xx; it
    has more data exactly when SW1 is 61, and then SW2 is the number of
    bytes available (0 otherwise); no response is both a success and one
    with more data. *)
Theorem status_word_classes (r : t) :
  byte_ok (sw1 r) -> byte_ok (sw2 r) ->
  sw r = sw1 r * 256 + sw2 r /\
  isSuccess r = ((sw1 r =? 144) && (sw2 r =? 0)) || (sw1 r =? 145) /\
  hasMoreData r = (sw1 r =? 97) /\
  bytesAvailable r = (if sw1 r =? 97 then sw2 r else 0) /\
  isSuccess r && hasMoreData r = false.
Proof.
  intros H1 H2. pose proof (sw_bytes r H1 H2) as Hsw.
  unfold byte_ok in *.
  assert (Hhi : JS.and (sw r) 65280 = sw1 r * 256).
  { rewrite Hsw, TagFacts.and_small by lia. apply land_high_byte; lia. }
  assert (Hlo : JS.and (sw r) 255 = sw2 r).
  { rewrite Hsw, TagFacts.and_small by lia. apply land_low_byte; lia. }
  unfold isSuccess, hasMoreData, bytesAvailable, SW.isSuccess, SW.hasMoreData,
    SW.getBytesAvailable.
  rewrite Hhi, Hlo. split; [exact Hsw|]. rewrite Hsw.
  destruct (Z.eqb_spec (sw1 r) 144), (Z.eqb_spec (sw2 r) 0), (Z.eqb_spec (sw1 r) 145),
    (Z.eqb_spec (sw1 r) 97), (Z.eqb_spec (sw1 r * 256 + sw2 r) 36864),
    (Z.eqb_spec (sw1 r * 256) 24832),
    (Z.leb_spec 37120 (sw1 r * 256 + sw2 r)), (Z.leb_spec (sw1 r * 256 + sw2 r) 37375);
    cbn; repeat split; try reflexivity; lia.
Qed.

Lemma status_word_classes_witness :
  let r := mk [] 97 16 in
  byte_ok (sw1 r) /\ byte_ok (sw2 r) /\
  sw r = 24848 /\ isSuccess r = false /\ hasMoreData r = true /\ bytesAvailable r = 16.
Proof.
  assert (H1 : byte_ok 97) by (unfold byte_ok; lia).
  assert (H2 : byte_ok 16) by (unfold byte_ok; lia).
  destruct (status_word_classes (mk [] 97 16) H1 H2) as (Hs & Hi & Hm & Hb & _).
  cbv zeta. cbn [sw1 sw2] in *.
  split; [exact H1|]. split; [exact H2|]. split; [exact Hs|].
  split; [exact Hi|]. split; [exact Hm | exact Hb].
Defined.

(** X4: [ResponseAPDU.error(sw)] for a 16-bit status word carries no data
    and exactly that status word, and is sent as its two bytes, high byte
    first. *)
Theorem error_response_status (w : Z) :
  0 <= w < 65536 ->
  data (error w) = [] /\ sw (error w) = w /\
  toBuffer (error w) = [w / 256; w mod 256] /\
  isSuccess (error w) = SW.isSuccess w.
Proof.
  intros Hw.
  assert (Hhi : 0 <= w / 256 < 256).
  { split; [apply Z.div_pos; lia | apply Z.div_lt_upper_bound; lia]. }
  assert (Hlo : 0 <= w mod 256 < 256) by (apply Z.mod_pos_bound; lia).
  assert (E : error w = mk [] (w / 256) (w mod 256)).
  { unfold error. rewrite LengthFacts.sar_div by lia. change (2 ^ 8) with 256.
    rewrite !TagFacts.and_small by lia.
    change 255 with (Z.ones 8). rewrite !Z.land_ones by lia. change (2 ^ 8) with 256.
    rewrite (Z.mod_small (w / 256)) by lia. reflexivity. }
  assert (Hsw : sw (error w) = w).
  { rewrite E. rewrite sw_bytes by (cbn [sw1 sw2]; unfold byte_ok; lia).
    cbn [sw1 sw2]. pose proof (Z.div_mod w 256). lia. }
  split; [rewrite E; reflexivity|]. split; [exact Hsw|].
  split.
  - rewrite E. unfold toBuffer. cbn [data sw1 sw2 app].
    rewrite !to_uint8_byte by (unfold byte_ok; lia). reflexivity.
  - unfold isSuccess. rewrite Hsw. reflexivity.
Qed.

Lemma error_response_status_witness :
  0 <= 27266 < 65536 /\
  sw (error 27266) = 27266 /\ toBuffer (error 27266) = [106; 130].
Proof.
  assert (H : 0 <= 27266 < 65536) by lia.
  destruct (error_response_status 27266 H) as (_ & Hs & Hb & _).
  split; [exact H|]. split; [exact Hs | exact Hb].
Defined.

End ResponseProperties.

(** ** Command APDUs read from bytes, and the READ RECORD commands *)

Module RangeFacts.

(** A check that holds on every number below [n], by running it. *)
Lemma range_check (n : Z) (f : Z -> bool) :
  forallb f (seqZ 0 n) = true -> forall b, 0 <= b < n -> f b = true.
Proof.
  intros H b Hb. rewrite forallb_forall in H. apply H.
  apply list_elem_of_In, elem_of_seqZ. lia.
Qed.

Lemma land_248 (b : Z) : byte_ok b -> Z.land b 248 = b - b mod 8.
Proof.
  intros Hb. apply Z.eqb_eq.
  apply (range_check 256 (fun b => Z.land b 248 =? b - b mod 8));
    [vm_compute; reflexivity | exact Hb].
Qed.

(** [(aflData[i] & 0xF8) >> 3] *)
Lemma sfi_of_byte (b : Z) :
  byte_ok b -> JS.sar (JS.and (JS.int_of (Some b)) 248) 3 = b / 8.
Proof.
  intros Hb. apply Z.eqb_eq.
  apply (range_check 256
           (fun b => JS.sar (JS.and (JS.int_of (Some b)) 248) 3 =? b / 8));
    [vm_compute; reflexivity | exact Hb].
Qed.

(** [(sfi << 3) | 0x04] *)
Lemma p2_of_sfi (sfi : Z) : 0 <= sfi < 32 -> JS.or (JS.shl sfi 3) 4 = sfi * 8 + 4.
Proof.
  intros Hs. apply Z.eqb_eq.
  apply (range_check 32 (fun s => JS.or (JS.shl s 3) 4 =? s * 8 + 4));
    [vm_compute; reflexivity | exact Hs].
Qed.

End RangeFacts.

Module ReadFacts.
Import EMVProtocolEngine ReadSpec.

Lemma le_byte_read (b : Z) :
  byte_ok b -> CommandAPDU.le_byte (if b =? 0 then 256 else b) = b.
Proof.
  unfold byte_ok. intros Hb. unfold CommandAPDU.le_byte.
  destruct (Z.eqb_spec b 0) as [->|Hne]; [reflexivity|].
  destruct (Z.eqb_spec b 256); [lia|].
  apply to_uint8_byte. unfold byte_ok. lia.
Qed.

Lemma readLoop_range (n : nat) (e : AFLEntry) (f rec : Z) :
  firstRecord e = Some f ->
  readLoop n e f rec = map (read_of e) (seqZ rec (Z.of_nat n)).
Proof.
  intros Hf. revert rec. induction n as [|n IH]; intros rec; [reflexivity|].
  rewrite seqZ_cons by lia. cbn [readLoop map].
  replace (Z.pred (Z.of_nat (S n))) with (Z.of_nat n) by lia.
  rewrite <- IH. unfold read_of at 1. rewrite Hf.
  replace (Z.succ rec) with (rec + 1) by lia. reflexivity.
Qed.

Lemma commandsFor_range (e : AFLEntry) :
  commandsFor e = map (read_of e) (records_of e).
Proof.
  unfold commandsFor, records_of.
  destruct (firstRecord e) as [f|] eqn:Hf; [|reflexivity].
  destruct (lastRecord e) as [l|]; [|reflexivity].
  rewrite (readLoop_range _ e f f Hf).
  destruct (Z.le_gt_cases 0 (l - f + 1)).
  - rewrite Z2Nat.id by assumption. reflexivity.
  - replace (Z.to_nat (l - f + 1)) with 0%nat by lia.
    rewrite (seqZ_nil f (l - f + 1)) by lia. reflexivity.
Qed.

(** The loop of [parseAFL] looks only at the bytes from its index on. *)
Lemma parseAFL_loop_app (n : nat) (pre rest : list Z) (i : Z) :
  0 <= i ->
  parseAFL_loop n (pre ++ rest) (JS.len pre + i) = parseAFL_loop n rest i.
Proof.
  revert i. induction n as [|n IH]; intros i Hi; [reflexivity|].
  cbn [parseAFL_loop]. rewrite len_app.
  replace (JS.len pre + i + 1) with (JS.len pre + (i + 1)) by lia.
  replace (JS.len pre + i + 2) with (JS.len pre + (i + 2)) by lia.
  replace (JS.len pre + i + 3) with (JS.len pre + (i + 3)) by lia.
  replace (JS.len pre + i + 4) with (JS.len pre + (i + 4)) by lia.
  rewrite !get_app_r by lia. rewrite IH by lia.
  destruct (Z.ltb_spec (JS.len pre + i) (JS.len pre + JS.len rest)),
    (Z.ltb_spec i (JS.len rest)); try lia; reflexivity.
Qed.

(** Iterations beyond the bytes that remain change nothing. *)
Lemma parseAFL_loop_more (n k : nat) (l : list Z) (i : Z) :
  JS.len l - i <= Z.of_nat n ->
  parseAFL_loop (n + k) l i = parseAFL_loop n l i.
Proof.
  revert i. induction n as [|n IH]; intros i Hi.
  - destruct k as [|k]; [reflexivity|]. cbn [Nat.add parseAFL_loop].
    destruct (Z.ltb_spec i (JS.len l)); [lia|reflexivity].
  - cbn [Nat.add parseAFL_loop]. rewrite IH by lia. reflexivity.
Qed.

Lemma parseAFL_loop_S (n : nat) (aflData : list Z) (i : Z) :
  parseAFL_loop (S n) aflData i =
  if i <? JS.len aflData then
    mkAFL (JS.sar (JS.and (JS.int_of (JS.get aflData i)) 248) 3)
          (JS.get aflData (i + 1)) (JS.get aflData (i + 2)) (JS.get aflData (i + 3))
      :: parseAFL_loop n aflData (i + 4)
  else [].
Proof. reflexivity. Qed.

Lemma parseAFL_group (b0 f l k : Z) (rest : list Z) :
  byte_ok b0 ->
  parseAFL (b0 :: f :: l :: k :: rest)
    = mkAFL (b0 / 8) (Some f) (Some l) (Some k) :: parseAFL rest.
Proof.
  intros Hb. unfold parseAFL.
  replace (length (b0 :: f :: l :: k :: rest)) with (S (length rest + 3))
    by (cbn [length]; lia).
  rewrite parseAFL_loop_S.
  change (JS.get (b0 :: f :: l :: k :: rest) 0) with (Some b0).
  change (JS.get (b0 :: f :: l :: k :: rest) (0 + 1)) with (Some f).
  change (JS.get (b0 :: f :: l :: k :: rest) (0 + 2)) with (Some l).
  change (JS.get (b0 :: f :: l :: k :: rest) (0 + 3)) with (Some k).
  rewrite RangeFacts.sfi_of_byte by assumption.
  pose proof (len_nonneg rest).
  destruct (Z.ltb_spec 0 (JS.len (b0 :: f :: l :: k :: rest))) as [_|Hge];
    [|rewrite !len_cons in Hge; lia].
  f_equal.
  change (b0 :: f :: l :: k :: rest) with ([b0; f; l; k] ++ rest).
  change (0 + 4) with (JS.len [b0; f; l; k] + 0).
  rewrite parseAFL_loop_app by lia.
  apply parseAFL_loop_more. unfold JS.len. lia.
Qed.

Lemma parseAFL_groups (groups : list (Z * Z * Z * Z)) :
  Forall group_ok groups -> parseAFL (afl_of groups) = map entry_of groups.
Proof.
  induction 1 as [|[[[b0 f] l] k] groups Hg _ IH]; [reflexivity|].
  unfold afl_of. cbn [map concat app]. fold (afl_of groups).
  destruct Hg as (Hb & _).
  rewrite parseAFL_group by assumption. rewrite IH. reflexivity.
Qed.

Lemma readRecord_bytes (rec sfi : Z) :
  byte_ok rec -> 0 <= sfi < 32 ->
  CommandAPDU.toBuffer (EMVCommands.readRecord rec sfi) = [0; 178; rec; sfi * 8 + 4; 0].
Proof.
  intros Hr Hs. unfold EMVCommands.readRecord, CommandAPDU.toBuffer.
  cbn [CommandAPDU.cla CommandAPDU.ins CommandAPDU.p1 CommandAPDU.p2
       CommandAPDU.data CommandAPDU.le app].
  rewrite RangeFacts.p2_of_sfi by assumption.
  rewrite (to_uint8_byte rec) by assumption.
  rewrite (to_uint8_byte (sfi * 8 + 4)) by (unfold byte_ok; lia).
  reflexivity.
Qed.

Lemma generateReadCommands_range (ctx : TransactionContext) :
  generateReadCommands ctx =
  match afl ctx with
  | None => []
  | Some entries => concat (map (fun e => map (read_of e) (records_of e)) entries)
  end.
Proof.
  unfold generateReadCommands. destruct (afl ctx) as [entries|]; [|reflexivity].
  f_equal. apply map_ext. intros e. apply commandsFor_range.
Qed.

Lemma group_reads (g : Z * Z * Z * Z) :
  group_ok g ->
  map (fun c => CommandAPDU.toBuffer (command c))
      (map (read_of (entry_of g)) (records_of (entry_of g)))
    = reads_of g.
Proof.
  destruct g as [[[b0 f] l] k]. intros (Hb & Hf & Hl & Hk).
  unfold reads_of, records_of, entry_of. cbn [firstRecord lastRecord].
  rewrite map_map. apply map_ext_in. intros r Hr.
  apply list_elem_of_In, elem_of_seqZ in Hr.
  unfold read_of. cbn [command sfi]. unfold byte_ok in *.
  assert (0 <= b0 / 8 < 32).
  { split; [apply Z.div_pos; lia | apply Z.div_lt_upper_bound; lia]. }
  rewrite readRecord_bytes by (unfold byte_ok; lia).
  pose proof (Z.div_mod b0 8).
  replace (b0 / 8 * 8 + 4) with (b0 - b0 mod 8 + 4) by lia. reflexivity.
Qed.

End ReadFacts.

Section CommandProperties.
Import CommandAPDU.

(** X5: [CommandAPDU.fromBuffer] on a buffer of bytes either returns a
    command that [toBuffer] serialises to the very buffer, or throws: 'too
    short' exactly when fewer than four bytes are given, 'incorrect length'
    only on six bytes or more (when the byte Lc fits neither the data alone
    nor the data and one Le byte). *)
Theorem command_apdu_reencode (buffer : list Z) :
  bytes_ok buffer ->
  match fromBuffer buffer with
  | Ok a => 4 <= JS.len buffer /\ toBuffer a = buffer
  | Throw e =>
      (e = Error "Invalid APDU: too short" /\ JS.len buffer < 4) \/
      (e = Error "Invalid APDU: incorrect length" /\ 6 <= JS.len buffer)
  | OutOfFuel => False
  end.
Proof.
  intros Hb.
  destruct buffer as [|c [|i [|q1 [|q2 body]]]];
    try (left; split; [reflexivity | unfold JS.len; cbn; lia]).
  unfold bytes_ok in Hb.
  apply Forall_cons in Hb as [Hc Hb]. apply Forall_cons in Hb as [Hi Hb].
  apply Forall_cons in Hb as [H1 Hb]. apply Forall_cons in Hb as [H2 Hb].
  assert (Hlen4 : 4 <= JS.len (c :: i :: q1 :: q2 :: body)).
  { rewrite !len_cons. pose proof (len_nonneg body). lia. }
  destruct body as [|lc [|x rest]].
  - split; [exact Hlen4|]. unfold toBuffer. cbn [cla ins p1 p2 data le].
    rewrite !to_uint8_byte by assumption. reflexivity.
  - apply Forall_cons in Hb as [Hlc _].
    cbn [fromBuffer]. split; [exact Hlen4|].
    unfold toBuffer. cbn [cla ins p1 p2 data le app].
    rewrite ReadFacts.le_byte_read by assumption.
    rewrite !to_uint8_byte by assumption. reflexivity.
  - apply Forall_cons in Hb as [Hlc Hb].
    rewrite APDUFacts.fromBuffer_long. cbv zeta.
    set (hd := [c; i; q1; q2; lc]).
    assert (Hhd : JS.len hd = 5) by reflexivity.
    pose proof (len_nonneg rest) as Hrest.
    rewrite len_app, Hhd.
    destruct (Z.eqb_spec (5 + JS.len (x :: rest)) (5 + lc)) as [E5|N5].
    + split; [exact Hlen4|].
      replace (JS.slice (hd ++ x :: rest) 5 (5 + lc)) with (x :: rest)
        by (rewrite <- Hhd; symmetry; apply slice_truncated; lia).
      unfold toBuffer. cbn [cla ins p1 p2 data le app].
      replace (JS.len (x :: rest)) with lc by lia.
      rewrite !to_uint8_byte by assumption. reflexivity.
    + destruct (Z.eqb_spec (5 + JS.len (x :: rest)) (6 + lc)) as [E6|N6].
      * destruct (@exists_last _ (x :: rest)) as (d & b & Hd); [discriminate|].
        rewrite Hd in *. rewrite len_app in E6. change (JS.len [b]) with 1 in E6.
        apply Forall_app in Hb as [_ Hbb]. apply Forall_cons in Hbb as [Hbb _].
        replace (JS.slice (hd ++ d ++ [b]) 5 (5 + lc)) with d
          by (rewrite <- Hhd; replace lc with (JS.len d) by lia;
              symmetry; apply slice_middle).
        replace (5 + lc) with (JS.len (hd ++ d) + 0) by (rewrite len_app, Hhd; lia).
        rewrite app_assoc, get_app_r by lia.
        change (JS.get [b] 0) with (Some b). cbv beta iota.
        split; [exact Hlen4|].
        unfold toBuffer. cbn [cla ins p1 p2 data le].
        rewrite ReadFacts.le_byte_read by assumption.
        replace (JS.len d) with lc by lia.
        rewrite !to_uint8_byte by assumption. reflexivity.
      * right. split; [reflexivity|]. rewrite !len_cons. lia.
Qed.

Lemma command_apdu_reencode_witness :
  let buffer := [0; 164; 4; 0; 2; 160; 0; 0] in
  bytes_ok buffer /\ exists a, fromBuffer buffer = Ok a /\ toBuffer a = buffer.
Proof.
  assert (H : bytes_ok [0; 164; 4; 0; 2; 160; 0; 0])
    by (unfold bytes_ok, byte_ok; repeat constructor; lia).
  pose proof (command_apdu_reencode [0; 164; 4; 0; 2; 160; 0; 0] H) as R.
  cbv zeta. split; [exact H|].
  destruct (fromBuffer [0; 164; 4; 0; 2; 160; 0; 0]) as [a|e|] eqn:E.
  - exists a. destruct R as [_ R]. split; [reflexivity | exact R].
  - exfalso. vm_compute in E. discriminate E.
  - contradiction.
Defined.

End CommandProperties.

Section ReadProperties.
Import EMVProtocolEngine ReadSpec.

(** X6: [EMVCommands.readRecord] for a record number that is a byte and an
    SFI below 32 is a case 2 command whose P2 holds the SFI in its five high
    bits and 100 in its three low bits, and whose bytes are
    00 B2 record P2 00. *)
Theorem read_record_command (recordNumber sfi : Z) :
  byte_ok recordNumber -> 0 <= sfi < 32 ->
  let c := EMVCommands.readRecord recordNumber sfi in
  CommandAPDU.case c = 2 /\
  CommandAPDU.p2 c / 8 = sfi /\ CommandAPDU.p2 c mod 8 = 4 /\
  CommandAPDU.toBuffer c = [0; 178; recordNumber; sfi * 8 + 4; 0].
Proof.
  intros Hr Hs c. split; [reflexivity|].
  assert (Hp : CommandAPDU.p2 c = sfi * 8 + 4) by (apply RangeFacts.p2_of_sfi; exact Hs).
  rewrite Hp. split; [|split].
  - rewrite Z.add_comm, Z.div_add by lia. reflexivity.
  - rewrite Z.add_comm, Z.mod_add by lia. reflexivity.
  - apply ReadFacts.readRecord_bytes; assumption.
Qed.

Lemma read_record_command_witness :
  byte_ok 2 /\ 0 <= 1 < 32 /\
  CommandAPDU.toBuffer (EMVCommands.readRecord 2 1) = [0; 178; 2; 12; 0].
Proof.
  assert (H1 : byte_ok 2) by (unfold byte_ok; lia).
  assert (H2 : 0 <= 1 < 32) by lia.
  destruct (read_record_command 2 1 H1 H2) as (_ & _ & _ & Hb).
  split; [exact H1|]. split; [exact H2 | exact Hb].
Defined.

(** X7: [parseAFL] turns every complete group of four bytes into one entry:
    the SFI is the first byte divided by 8 and the three record bytes are
    taken as they are, and the groups that follow are parsed alike. *)
Theorem parse_afl_by_groups (b0 f l k : Z) (rest : list Z) :
  byte_ok b0 ->
  parseAFL (b0 :: f :: l :: k :: rest)
    = mkAFL (b0 / 8) (Some f) (Some l) (Some k) :: parseAFL rest.
Proof. apply ReadFacts.parseAFL_group. Qed.

Lemma parse_afl_by_groups_witness :
  byte_ok 8 /\
  parseAFL [8; 1; 2; 1; 16; 1; 1; 0]
    = [mkAFL 1 (Some 1) (Some 2) (Some 1); mkAFL 2 (Some 1) (Some 1) (Some 0)].
Proof.
  assert (H : byte_ok 8) by (unfold byte_ok; lia).
  split; [exact H|].
  rewrite (parse_afl_by_groups 8 1 2 1 [16; 1; 1; 0] H). reflexivity.
Defined.

(** X8: [generateReadCommands] returns nothing when the context has no
    AFL; otherwise it returns, entry after entry, one command per record
    number from the first to the last of the entry, in increasing order, for
    the entry's SFI, flagged for offline data authentication when it is among
    the first [numODARecords] of the entry.  An entry whose first or last
    record is [undefined], or whose first exceeds its last, gives nothing. *)
Theorem generate_read_commands_by_entry (ctx : TransactionContext) :
  generateReadCommands ctx =
  match afl ctx with
  | None => []
  | Some entries => concat (map (fun e => map (read_of e) (records_of e)) entries)
  end.
Proof. apply ReadFacts.generateReadCommands_range. Qed.

(** X9: the READ RECORD commands that the engine derives from an AFL made
    of complete groups (first byte, first record, last record, number of
    records for authentication): serialised, they are, group after group and
    for each record from first to last, the bytes 00 B2 record P2 00 where
    P2 is the first byte of the group with its three low bits replaced by
    100. *)
Theorem read_commands_of_afl (ctx : TransactionContext)
    (groups : list (Z * Z * Z * Z)) :
  Forall group_ok groups ->
  map (fun c => CommandAPDU.toBuffer (command c))
      (generateReadCommands (set_afl ctx (Some (parseAFL (afl_of groups)))))
    = concat (map reads_of groups).
Proof.
  intros Hg. rewrite ReadFacts.generateReadCommands_range.
  cbn [afl set_afl]. rewrite ReadFacts.parseAFL_groups by assumption.
  rewrite concat_map, !map_map.
  f_equal. apply map_ext_in. intros g Hin.
  apply ReadFacts.group_reads.
  rewrite Forall_forall in Hg. apply Hg, list_elem_of_In, Hin.
Qed.

Lemma read_commands_of_afl_witness :
  let groups := [(8, 1, 2, 1); (16, 1, 1, 0)] in
  Forall group_ok groups /\
  map (fun c => CommandAPDU.toBuffer (command c))
      (generateReadCommands (set_afl newContext (Some (parseAFL (afl_of groups)))))
    = [[0; 178; 1; 12; 0]; [0; 178; 2; 12; 0]; [0; 178; 1; 20; 0]].
Proof.
  assert (H : Forall group_ok [(8, 1, 2, 1); (16, 1, 1, 0)])
    by (repeat constructor; unfold byte_ok; lia).
  split; [exact H|].
  rewrite (read_commands_of_afl newContext [(8, 1, 2, 1); (16, 1, 1, 0)] H).
  reflexivity.
Defined.

End ReadProperties.

(** ** The TLV codec: lengths, tags, the builder, padding *)

Module CodecFacts.
Import TLVParser TLVBuilder TagSpec TLVSpec.

Lemma build_app (l1 l2 : list item) : build (l1 ++ l2) = build l1 ++ build l2.
Proof.
  induction l1 as [|it l1 IH]; [reflexivity|].
  cbn [app build]. rewrite IH, <- !app_assoc. reflexivity.
Qed.

(** The three low bytes of a number. *)
Lemma low_bytes (n : Z) :
  0 <= n ->
  n mod 16777216
    = (n / 65536 mod 256 * 256 + n / 256 mod 256) * 256 + n mod 256.
Proof.
  intros Hn.
  pose proof (Z.div_mod n 256) as H1.
  pose proof (Z.div_mod (n / 256) 256) as H2.
  pose proof (Z.div_mod (n / 65536) 256) as H3.
  assert (Hdd : n / 256 / 256 = n / 65536) by (rewrite Z.div_div by lia; reflexivity).
  rewrite Hdd in H2.
  pose proof (Z.mod_pos_bound n 256). pose proof (Z.mod_pos_bound (n / 256) 256).
  pose proof (Z.mod_pos_bound (n / 65536) 256).
  symmetry. apply Z.mod_unique with (q := n / 65536 / 256); lia.
Qed.

Lemma encodeLength_large (n : Z) :
  65536 <= n < 2147483648 ->
  encodeLength n = [131; n / 65536 mod 256; n / 256 mod 256; n mod 256].
Proof.
  intros Hn. unfold encodeLength.
  destruct (Z.ltb_spec n 128); [lia|]. destruct (Z.ltb_spec n 256); [lia|].
  destruct (Z.ltb_spec n 65536); [lia|].
  assert (0 <= n / 256 < 2147483648).
  { split; [apply Z.div_pos; lia | apply Z.div_lt_upper_bound; lia]. }
  assert (0 <= n / 65536 < 2147483648).
  { split; [apply Z.div_pos; lia | apply Z.div_lt_upper_bound; lia]. }
  rewrite !LengthFacts.sar_div by lia.
  change (2 ^ 8) with 256. change (2 ^ 16) with 65536.
  rewrite !LengthFacts.byte_of_and_255 by lia. reflexivity.
Qed.

(** A long-form length field of three bytes is read as their big-endian
    number. *)
Lemma parseLength_three (pre rest : list Z) (a b c : Z) :
  byte_ok a -> byte_ok b -> byte_ok c ->
  parseLength (pre ++ [131; a; b; c] ++ rest) (JS.len pre)
    = (Some ((a * 256 + b) * 256 + c), 4).
Proof.
  unfold byte_ok. intros Ha Hb Hc. unfold parseLength. rewrite get_app_r0.
  change (JS.get ([131; a; b; c] ++ rest) 0) with (Some 131).
  change (JS.and (JS.int_of (Some 131)) 128 =? 0) with false.
  change (JS.and (JS.int_of (Some 131)) 127) with 3.
  change (Z.to_nat 3) with 3%nat. cbn [parseLength_loop].
  rewrite (LengthFacts.get_after pre _ 1 a) by (reflexivity || lia).
  change (1 + 1) with 2.
  rewrite (LengthFacts.get_after pre _ 2 b) by (reflexivity || lia).
  change (2 + 1) with 3.
  rewrite (LengthFacts.get_after pre _ 3 c) by (reflexivity || lia).
  rewrite !LengthFacts.int_of_byte by (unfold byte_ok; lia).
  rewrite (TagFacts.or_shl_byte 0) by (unfold byte_ok; lia).
  rewrite (TagFacts.or_shl_byte (0 * 256 + a)) by (unfold byte_ok; lia).
  rewrite TagFacts.or_shl_byte by (unfold byte_ok; lia).
  reflexivity.
Qed.

End CodecFacts.

Module PaddingFacts.
Import TLVParser TLVBuilder TagSpec TLVSpec PaddingSpec.

Lemma padding_bytes (l : list Z) : padding l -> bytes_ok l.
Proof.
  intros H. eapply Forall_impl; [exact H|].
  intros b [->| ->]; unfold byte_ok; lia.
Qed.

(** The loop passes over a run of padding, one byte per iteration. *)
Lemma skip_padding (fuel : nat) (pad pre rest : list Z) (e : Z) :
  padding pad -> JS.len pre + JS.len pad <= e ->
  parseBuffer (length pad + fuel) (pre ++ pad ++ rest) (JS.len pre) e
    = parseBuffer fuel (pre ++ pad ++ rest) (JS.len pre + JS.len pad) e.
Proof.
  intros Hpad. revert pre. induction Hpad as [|b pad Hb _ IH]; intros pre He.
  - cbn [length Nat.add]. change (JS.len []) with 0. rewrite Z.add_0_r. reflexivity.
  - cbn [length Nat.add]. rewrite ParseFacts.parseBuffer_S.
    rewrite len_cons in He. pose proof (len_nonneg pad).
    destruct (Z.ltb_spec (JS.len pre) e); [|lia]. cbn [negb].
    rewrite get_app_r0. change (JS.get ((b :: pad) ++ rest) 0) with (Some b).
    assert (Hp : is_padding (Some b) = true) by (destruct Hb as [->| ->]; reflexivity).
    rewrite Hp.
    change ((b :: pad) ++ rest) with ([b] ++ pad ++ rest).
    rewrite (app_assoc pre [b]).
    replace (JS.len pre + 1) with (JS.len (pre ++ [b])) by (rewrite len_app; reflexivity).
    rewrite IH by (rewrite len_app; change (JS.len [b]) with 1; lia).
    f_equal. rewrite len_app, !len_cons. change (JS.len []) with 0. lia.
Qed.

Lemma padded_bytes (l : list (list Z * call)) (trailing : list Z) :
  Forall (fun pc => padding (fst pc)) l -> padding trailing ->
  Forall valid (map snd l) -> bytes_ok (padded l trailing).
Proof.
  intros Hp Ht. induction Hp as [|[pad c] l Hpad _ IH]; intros Hv.
  - apply padding_bytes, Ht.
  - cbn [map snd] in Hv. apply Forall_cons in Hv as [Hvc Hv].
    cbn [padded]. apply bytes_ok_app; [apply padding_bytes, Hpad|].
    apply bytes_ok_app; [apply ParseHex.item_bytes, Hvc | apply IH, Hv].
Qed.

(** Decoding the padded bytes of valid calls with agreeing tags, wherever
    they end a buffer. *)
Lemma padded_decodes (l : list (list Z * call)) (trailing : list Z) :
  Forall (fun pc => padding (fst pc)) l -> padding trailing ->
  Forall valid (map snd l) -> Forall agreeing (map snd l) ->
  forall fuel pre,
    (length (padded l trailing) < fuel)%nat ->
    parseBuffer fuel (pre ++ padded l trailing) (JS.len pre)
      (JS.len (pre ++ padded l trailing))
    = Ok (map expected (map snd l)).
Proof.
  intros Hp Ht. induction Hp as [|[pad c] l Hpad _ IH]; intros Hv Ha fuel pre Hfuel.
  - cbn [padded map] in *.
    pose proof (skip_padding (S (fuel - length trailing - 1)) trailing pre []
                  (JS.len (pre ++ trailing)) Ht) as Hskip.
    rewrite app_nil_r in Hskip.
    replace (length trailing + S (fuel - length trailing - 1))%nat with fuel in Hskip by lia.
    rewrite Hskip by (rewrite len_app; lia).
    apply ParseFacts.parseBuffer_end. rewrite len_app. lia.
  - cbn [map snd fst] in *.
    apply Forall_cons in Hv as [Hvc Hv]. apply Forall_cons in Ha as [Hac Ha].
    destruct (RoundTrip.item_tag c Hvc) as (t & Hwf & Hnp & Htag & Henc & Hbit).
    pose proof (RoundTrip.item_value_len c Hvc) as Hlen.
    pose proof (ParseFacts.well_formed_len t Hwf) as Htlen.
    assert (Hagree : second_byte_agrees t).
    { destruct c; cbn [agreeing item_of tag] in *; rewrite <- Henc; tauto. }
    set (v := value (item_of c)) in *.
    assert (Hencode : encode [c] = t ++ encodeLength (JS.len v) ++ v).
    { unfold encode. cbn [map build]. rewrite Henc, app_nil_r. reflexivity. }
    cbn [padded] in *. rewrite Hencode in *.
    set (X := padded l trailing) in *.
    rewrite !length_app in Hfuel.
    replace fuel with (length pad + S (fuel - length pad - 1))%nat by lia.
    set (fuel' := (fuel - length pad - 1)%nat).
    assert (Hfuel' : (length t + (length (encodeLength (JS.len v)) + length v)
                      + length X < S fuel')%nat) by lia.
    rewrite skip_padding by (assumption || (rewrite !len_app; pose proof (len_nonneg X);
      pose proof (len_nonneg v); pose proof (len_nonneg (encodeLength (JS.len v))); lia)).
    replace (pre ++ pad ++ (t ++ encodeLength (JS.len v) ++ v) ++ X)
      with ((pre ++ pad) ++ t ++ encodeLength (JS.len v) ++ v ++ X)
      by (rewrite <- !app_assoc; reflexivity).
    replace (JS.len pre + JS.len pad) with (JS.len (pre ++ pad)) by apply len_app.
    rewrite ParseFacts.parseBuffer_node by (assumption || lia || (left; reflexivity)).
    rewrite RoundTrip.isConstructedTag_agreeing, Hbit by assumption.
    assert (Hchildren :
      (if constructed (item_of c) then parseBuffer fuel' v 0 (JS.len v) else Ok [])
      = Ok (TLVObject.children (expected c))).
    { pose proof (RoundTrip.children_decode_all c Hvc Hac) as Hcc.
      destruct c as [tagHex w|tagHex buildFn]; [reflexivity|].
      cbn [item_of constructed expected TLVObject.children].
      unfold v. cbn [item_of value]. fold (encode buildFn).
      apply (Hcc fuel' []). unfold v in Hfuel'. cbn [item_of value] in Hfuel'.
      fold (encode buildFn) in Hfuel'. unfold JS.len in Htlen. lia. }
    rewrite Hchildren. cbn [bind].
    replace (JS.len (pre ++ pad) + JS.len t + JS.len (encodeLength (JS.len v)) + JS.len v)
      with (JS.len ((pre ++ pad) ++ t ++ encodeLength (JS.len v) ++ v))
      by (rewrite !len_app; lia).
    replace ((pre ++ pad) ++ t ++ encodeLength (JS.len v) ++ v ++ X)
      with (((pre ++ pad) ++ t ++ encodeLength (JS.len v) ++ v) ++ X)
      by (rewrite <- !app_assoc; reflexivity).
    rewrite (IH Hv Ha fuel') by (unfold JS.len in Htlen; lia). cbn [bind map].
    f_equal. f_equal.
    rewrite TagHexFacts.tagHexOf_number by assumption.
    destruct c as [tagHex w|tagHex buildFn];
      cbn [expected item_of tag value constructed TLVObject.children] in *;
      rewrite Henc, Htag; reflexivity.
Qed.

End PaddingFacts.

Module TreeFacts.
Import TLVParser TLVBuilder TagSpec TLVSpec TreeExamples.

Lemma fci_valid : Forall valid fci /\ Forall agreeing fci.
Proof.
  split.
  - apply Forall_cons_2; [|apply Forall_nil_2]. cbn [valid].
    split; [valid_tag_by [111]|]. split; [|reflexivity].
    split; [|split; [|exact I]].
    + split; [valid_tag_by [132]|].
      split; [apply ParseHex.to_bytes_ok | reflexivity].
    + split; [valid_tag_by [165]|]. split; [|reflexivity].
      split; [|split; [|exact I]].
      * split; [valid_tag_by [80]|].
        split; [apply ParseHex.to_bytes_ok | reflexivity].
      * split; [valid_tag_by [159; 56]|].
        split; [apply ParseHex.to_bytes_ok | reflexivity].
  - apply Forall_cons_2; [|apply Forall_nil_2]. cbn [agreeing].
    repeat split.
Qed.

End TreeFacts.

Section CodecProperties.
Import TLVParser TLVBuilder TagSpec TLVSpec PaddingSpec.

(** X10: the parser gives back every tree that the builder wrote, when the
    tree is valid (well-formed tags that do not start with a padding byte and
    whose constructed bit says what the node is, values of bytes shorter
    than 2^24) and its three-byte tags have the same bit 0x20 in the second
    byte as in the first: [TLVParser.parse(builder.buildHex())] returns the
    nodes with their tag, text, length, value, kind and children, once the
    fuel exceeds the number of bytes. *)
Theorem builder_parser_roundtrip (cs : list call) (fuel : nat) :
  Forall valid cs -> Forall agreeing cs ->
  (length (built cs) < fuel)%nat ->
  parse fuel (buildHex (run cs [])) = Ok (map expected cs).
Proof.
  intros Hv Ha Hfuel.
  change (buildHex (run cs [])) with (Hex.of_bytes (built cs)).
  apply ParseHex.parse_built; try assumption.
  rewrite <- RoundTrip.built_encode. exact Hfuel.
Qed.

Lemma builder_parser_roundtrip_witness :
  Forall valid TreeExamples.fci /\ Forall agreeing TreeExamples.fci /\
  parse 40 (buildHex (run TreeExamples.fci [])) = Ok (map expected TreeExamples.fci).
Proof.
  destruct TreeFacts.fci_valid as [Hv Ha].
  split; [exact Hv|]. split; [exact Ha|].
  apply (builder_parser_roundtrip TreeExamples.fci 40 Hv Ha).
  vm_compute. lia.
Defined.

(** X11: [parseLength] reads back the length field that [encodeLength]
    wrote for a length below 2^24, wherever the field stands in a buffer, and
    reports the number of bytes of the field; the field is made of bytes
    and has one byte below 128, two below 256, three below 65536 and four
    otherwise. *)
Theorem length_field_roundtrip (pre rest : list Z) (n : Z) :
  0 <= n < 16777216 ->
  parseLength (pre ++ encodeLength n ++ rest) (JS.len pre)
    = (Some n, JS.len (encodeLength n)) /\
  bytes_ok (encodeLength n) /\
  JS.len (encodeLength n)
    = (if n <? 128 then 1 else if n <? 256 then 2 else if n <? 65536 then 3 else 4).
Proof.
  intros Hn. split; [apply LengthFacts.parseLength_encodeLength, Hn|].
  split; [apply LengthFacts.encodeLength_bytes, Hn|].
  rewrite LengthFacts.encodeLength_bands by assumption.
  destruct (n <? 128); [reflexivity|]. destruct (n <? 256); [reflexivity|].
  destruct (n <? 65536); reflexivity.
Qed.

Lemma length_field_roundtrip_witness :
  0 <= 300 < 16777216 /\
  parseLength ([80] ++ encodeLength 300 ++ [7]) 1 = (Some 300, 3).
Proof.
  assert (H : 0 <= 300 < 16777216) by lia.
  split; [exact H|].
  destruct (length_field_roundtrip [80] [7] 300 H) as (Hp & _ & _). exact Hp.
Defined.

(** X12: [encodeLength] never writes more than four bytes: a length from
    2^24 up to 2^31 is written with its three low bytes only, and
    [parseLength] reads the field back as the length modulo 2^24. *)
Theorem length_field_wraps (pre rest : list Z) (n : Z) :
  16777216 <= n < 2147483648 ->
  JS.len (encodeLength n) = 4 /\
  parseLength (pre ++ encodeLength n ++ rest) (JS.len pre)
    = (Some (n mod 16777216), 4).
Proof.
  intros Hn. rewrite CodecFacts.encodeLength_large by lia.
  split; [reflexivity|].
  rewrite CodecFacts.parseLength_three
    by (unfold byte_ok; apply Z.mod_pos_bound; lia).
  rewrite CodecFacts.low_bytes by lia. reflexivity.
Qed.

Lemma length_field_wraps_witness :
  16777216 <= 16777217 < 2147483648 /\
  parseLength (encodeLength 16777217) 0 = (Some 1, 4).
Proof.
  assert (H : 16777216 <= 16777217 < 2147483648) by lia.
  split; [exact H|].
  destruct (length_field_wraps [] [] 16777217 H) as (_ & Hp).
  rewrite app_nil_r in Hp. exact Hp.
Defined.

(** X13: a well-formed tag of one, two or three bytes is read by
    [parseTag], wherever it stands in a buffer, as the big-endian number of
    its bytes, with its number of bytes; the text that the parser stores for
    that number is the upper-case hexadecimal text of the bytes;
    [encodeTag] of that text gives the bytes back; and for a tag of one or
    two bytes [isConstructedTag] is bit 0x20 of the first byte. *)
Theorem tag_decoding (pre t rest : list Z) :
  well_formed t ->
  parseTag (pre ++ t ++ rest) (JS.len pre) = (Some (number t), JS.len t) /\
  tagHexOf (number t) = Hex.of_bytes t /\
  encodeTag (tagHexOf (number t)) = t /\
  ((length t <= 2)%nat -> isConstructedTag (number t) = first_byte_constructed t).
Proof.
  intros Hwf. split; [apply TagFacts.parseTag_well_formed, Hwf|].
  pose proof (TagHexFacts.tagHexOf_number t Hwf) as Hhex.
  split; [exact Hhex|]. split.
  - rewrite Hhex. unfold encodeTag.
    apply to_bytes_of_bytes, ParseFacts.well_formed_bytes, Hwf.
  - apply TagFacts.isConstructedTag_short, Hwf.
Qed.

Lemma tag_decoding_witness :
  well_formed [159; 56] /\
  parseTag ([0] ++ [159; 56] ++ [6]) 1 = (Some 40760, 2) /\
  tagHexOf 40760 = "9F38".
Proof.
  assert (H : well_formed [159; 56])
    by (constructor; first [unfold byte_ok; lia | reflexivity]).
  split; [exact H|].
  destruct (tag_decoding [0] [159; 56] [6] H) as (Hp & Hh & _).
  split; [exact Hp | exact Hh].
Defined.

(** X14: the bytes of a builder are the concatenation of the bytes of its
    calls, in order: a primitive call contributes tag, length field and
    value; [addConstructed] contributes tag, length field and the bytes that
    the child builder built from [buildFn]. *)
Theorem builder_concatenates (cs1 cs2 buildFn : list call) (tagHex : string)
    (v : input) :
  built (cs1 ++ cs2) = built cs1 ++ built cs2 /\
  built [Primitive tagHex v]
    = encodeTag (toUpperCase tagHex) ++ encodeLength (JS.len (to_buffer v))
        ++ to_buffer v /\
  built [Constructed tagHex buildFn]
    = encodeTag (toUpperCase tagHex) ++ encodeLength (JS.len (built buildFn))
        ++ built buildFn.
Proof.
  rewrite !RoundTrip.built_encode. unfold encode.
  split; [rewrite map_app; apply CodecFacts.build_app|].
  split.
  - cbn [map build item_of tag value]. rewrite app_nil_r. reflexivity.
  - cbn [map build item_of tag value]. rewrite app_nil_r. reflexivity.
Qed.

(** X15: padding bytes 00 and FF before, between and after the top-level
    objects are skipped: the parser returns, for the bytes of valid calls
    with agreeing tags with any runs of padding around them, the same nodes
    as without the padding. *)
Theorem padding_is_skipped (l : list (list Z * call)) (trailing : list Z)
    (fuel : nat) :
  Forall (fun pc => padding (fst pc)) l -> padding trailing ->
  Forall valid (map snd l) -> Forall agreeing (map snd l) ->
  (length (padded l trailing) < fuel)%nat ->
  parse fuel (Hex.of_bytes (padded l trailing)) = Ok (map expected (map snd l)) /\
  parse fuel (Hex.of_bytes (padded l trailing))
    = parse fuel (buildHex (run (map snd l) [])).
Proof.
  intros Hp Ht Hv Ha Hfuel.
  assert (H : parse fuel (Hex.of_bytes (padded l trailing))
              = Ok (map expected (map snd l))).
  { rewrite ParseHex.parse_of_bytes by (apply PaddingFacts.padded_bytes; assumption).
    apply (PaddingFacts.padded_decodes l trailing Hp Ht Hv Ha fuel [] Hfuel). }
  split; [exact H|]. rewrite H. symmetry.
  change (buildHex (run (map snd l) [])) with (Hex.of_bytes (built (map snd l))).
  apply ParseHex.parse_built; try assumption.
  assert (Hle : forall l', (length (encode (map snd l')) <= length (padded l' trailing))%nat).
  { induction l' as [|[pad c] l' IH]; [cbn; lia|].
    cbn [map snd padded]. unfold encode in *. cbn [map build] in *.
    rewrite app_nil_r. rewrite !length_app in *. lia. }
  specialize (Hle l). lia.
Qed.

Lemma padding_is_skipped_witness :
  let l := [([0; 0], Primitive "50" (Str "56495341"));
            ([255], Primitive "9F38" (Str "9F0206"))] in
  Forall (fun pc => padding (fst pc)) l /\ padding [0; 255] /\
  parse 20 "0000500456495341FF9F38039F020600FF"
    = Ok (map expected (map snd l)).
Proof.
  set (l := [([0; 0], Primitive "50" (Str "56495341"));
             ([255], Primitive "9F38" (Str "9F0206"))]).
  assert (Hpad : forall p, forallb (fun b => (b =? 0) || (b =? 255)) p = true -> padding p).
  { intros p Hall. apply Forall_forall. intros b Hb.
    rewrite forallb_forall in Hall. apply list_elem_of_In, Hall in Hb.
    destruct (Z.eqb_spec b 0); [left; assumption|].
    destruct (Z.eqb_spec b 255); [right; assumption | discriminate]. }
  assert (Hp : Forall (fun pc => padding (fst pc)) l).
  { repeat (apply Forall_cons_2; [apply Hpad; reflexivity|]). apply Forall_nil_2. }
  assert (Ht : padding [0; 255]) by (apply Hpad; reflexivity).
  assert (Hv : Forall valid (map snd l)).
  { apply Forall_cons_2; [|apply Forall_cons_2; [|apply Forall_nil_2]]; cbn [valid].
    - split; [valid_tag_by [80]|]. split; [apply ParseHex.to_bytes_ok | reflexivity].
    - split; [valid_tag_by [159; 56]|].
      split; [apply ParseHex.to_bytes_ok | reflexivity]. }
  assert (Ha : Forall agreeing (map snd l)) by (repeat constructor).
  split; [exact Hp|]. split; [exact Ht|].
  refine (proj1 (padding_is_skipped l [0; 255] 20 Hp Ht Hv Ha _)).
  vm_compute. lia.
Defined.

End CodecProperties.

(** ** Searching a tree, and the card data of the context *)

Module FindFacts.
Import TLVParser FindSpec.

(** Induction on TLV objects, with the hypothesis for every child. *)
Lemma tlv_ind' (P : TLVObject.t -> Prop)
    (Hnode : forall t, Forall P (TLVObject.children t) -> P t) :
  forall t, P t.
Proof.
  exact (fix F (t : TLVObject.t) : P t :=
           Hnode t
             (match t as t0 return Forall P (TLVObject.children t0) with
              | TLVObject.mk _ _ _ _ _ _ children =>
                  (fix G (l : list TLVObject.t) : Forall P l :=
                     match l with
                     | [] => @List.Forall_nil _ P
                     | x :: l' => @List.Forall_cons _ P x l' (F x) (G l')
                     end) children
              end)).
Qed.

Lemma findTag_in_eq (s : string) (t : TLVObject.t) :
  findTag_in s t =
  if String.eqb (TLVObject.tagHex t) s then Some t
  else if searched t then findTag_scan s (TLVObject.children t) else None.
Proof.
  destruct t as [tag tagHex len value valueHex constructed children].
  unfold searched. cbn [findTag_in TLVObject.tagHex TLVObject.constructed TLVObject.children].
  destruct (String.eqb tagHex s); [reflexivity|].
  destruct (constructed && _); [|reflexivity].
  induction children as [|c l IH]; [reflexivity|].
  cbn [findTag_scan]. rewrite <- IH. reflexivity.
Qed.

Lemma findAllTags_in_eq (s : string) (t : TLVObject.t) :
  findAllTags_in s t =
  (if String.eqb (TLVObject.tagHex t) s then [t] else [])
  ++ (if searched t then findAllTags_scan s (TLVObject.children t) else []).
Proof.
  destruct t as [tag tagHex len value valueHex constructed children].
  unfold searched.
  cbn [findAllTags_in TLVObject.tagHex TLVObject.constructed TLVObject.children].
  f_equal. destruct (constructed && _); [|reflexivity].
  induction children as [|c l IH]; [reflexivity|].
  cbn [findAllTags_scan]. rewrite <- IH. reflexivity.
Qed.

Lemma addRecursive_in_eq (t : TLVObject.t) (m : gmap string string) :
  addRecursive_in t m =
  let m1 := <[TLVObject.tagHex t := TLVObject.valueHex t]> m in
  if searched t then addRecursive (TLVObject.children t) m1 else m1.
Proof.
  destruct t as [tag tagHex len value valueHex constructed children].
  unfold searched.
  cbn [addRecursive_in TLVObject.tagHex TLVObject.valueHex TLVObject.constructed
       TLVObject.children].
  destruct (constructed && _); [|reflexivity].
  generalize (<[tagHex := valueHex]> m).
  induction children as [|c l IH]; intros m'; [reflexivity|].
  change (addRecursive (c :: l) m') with (addRecursive l (addRecursive_in c m')).
  apply IH.
Qed.

(** The first match is the head of all matches. *)
Lemma findTag_in_head (s : string) (t : TLVObject.t) :
  findTag_in s t = head (findAllTags_in s t).
Proof.
  induction t as [t IH] using tlv_ind'.
  rewrite findTag_in_eq, findAllTags_in_eq.
  destruct (String.eqb (TLVObject.tagHex t) s); [reflexivity|].
  cbn [app]. destruct (searched t); [|reflexivity].
  induction IH as [|c l Hc _ IHl]; [reflexivity|].
  cbn [findTag_scan findAllTags_scan]. rewrite head_app, <- Hc, IHl.
  destruct (findTag_in s c); reflexivity.
Qed.

Lemma findTag_scan_head (s : string) (l : list TLVObject.t) :
  findTag_scan s l = head (findAllTags_scan s l).
Proof.
  induction l as [|c l IH]; [reflexivity|].
  cbn [findTag_scan findAllTags_scan]. rewrite head_app, <- findTag_in_head, IH.
  destruct (findTag_in s c); reflexivity.
Qed.

(** Every match carries the search tag. *)
Lemma findAllTags_in_tag (s : string) (t : TLVObject.t) :
  Forall (fun x => TLVObject.tagHex x = s) (findAllTags_in s t).
Proof.
  induction t as [t IH] using tlv_ind'.
  rewrite findAllTags_in_eq. apply Forall_app. split.
  - destruct (String.eqb_spec (TLVObject.tagHex t) s);
      [apply Forall_cons_2; [assumption | apply Forall_nil_2] | apply Forall_nil_2].
  - destruct (searched t); [|apply Forall_nil_2].
    induction IH as [|c l Hc _ IHl]; [apply Forall_nil_2|].
    cbn [findAllTags_scan]. apply Forall_app. split; assumption.
Qed.

Lemma findAllTags_scan_tag (s : string) (l : list TLVObject.t) :
  Forall (fun x => TLVObject.tagHex x = s) (findAllTags_scan s l).
Proof.
  induction l as [|c l IH]; [apply Forall_nil_2|].
  cbn [findAllTags_scan]. apply Forall_app. split; [apply findAllTags_in_tag | exact IH].
Qed.

Lemma upper_char_idem (c : ascii) : upper_char (upper_char c) = upper_char c.
Proof. destruct c as [[] [] [] [] [] [] [] []]; reflexivity. Qed.

Lemma toUpperCase_idem (s : string) : toUpperCase (toUpperCase s) = toUpperCase s.
Proof.
  induction s as [|c s IH]; [reflexivity|].
  cbn [toUpperCase]. rewrite upper_char_idem, IH. reflexivity.
Qed.

Lemma latest_app (l1 l2 : list TLVObject.t) (before : option string) :
  latest (l1 ++ l2) before = latest l2 (latest l1 before).
Proof. unfold latest. rewrite last_app. destruct (last l2); reflexivity. Qed.

Lemma addRecursive_in_lookup (k : string) (t : TLVObject.t) :
  forall m, addRecursive_in t m !! k = latest (findAllTags_in k t) (m !! k).
Proof.
  induction t as [t IH] using tlv_ind'. intros m.
  rewrite addRecursive_in_eq, findAllTags_in_eq, latest_app. cbv zeta.
  assert (Hown : <[TLVObject.tagHex t := TLVObject.valueHex t]> m !! k
                 = latest (if String.eqb (TLVObject.tagHex t) k then [t] else [])
                     (m !! k)).
  { destruct (String.eqb_spec (TLVObject.tagHex t) k) as [->|Hne].
    - apply lookup_insert_eq.
    - apply lookup_insert_ne, Hne. }
  destruct (searched t); [|exact Hown].
  rewrite <- Hown. generalize (<[TLVObject.tagHex t := TLVObject.valueHex t]> m).
  induction IH as [|c l Hc _ IHl]; intros m'; [reflexivity|].
  cbn [addRecursive findAllTags_scan]. rewrite latest_app, IHl, Hc. reflexivity.
Qed.

Lemma addRecursive_lookup (k : string) (l : list TLVObject.t) :
  forall m, addRecursive l m !! k = latest (findAllTags_scan k l) (m !! k).
Proof.
  induction l as [|c l IH]; intros m; [reflexivity|].
  cbn [addRecursive findAllTags_scan].
  rewrite latest_app, IH, addRecursive_in_lookup. reflexivity.
Qed.

End FindFacts.

Section FindProperties.
Import TLVParser EMVProtocolEngine.

(** X16: [findTag] returns the first of the objects that [findAllTags]
    returns (null when there is none); every object found carries the
    upper-cased search tag; and the search does not depend on the case of the
    search tag. *)
Theorem find_tag_first_of_all (tlvArray : list TLVObject.t) (tagHex : string) :
  findTag tlvArray tagHex = head (findAllTags tlvArray tagHex) /\
  Forall (fun t => TLVObject.tagHex t = toUpperCase tagHex)
    (findAllTags tlvArray tagHex) /\
  findTag tlvArray (toUpperCase tagHex) = findTag tlvArray tagHex /\
  findAllTags tlvArray (toUpperCase tagHex) = findAllTags tlvArray tagHex.
Proof.
  unfold findTag, findAllTags. rewrite FindFacts.toUpperCase_idem.
  split; [apply FindFacts.findTag_scan_head|].
  split; [apply FindFacts.findAllTags_scan_tag|]. split; reflexivity.
Qed.

(** X17: after [addCardData(tlvArray)], [getCardData(tag)] is the value
    text of the last object, in document order, that [findAllTags] finds for
    the tag in the array, and what it was before when there is none; the
    rest of the context is as it was. *)
Theorem card_data_last_wins (ctx : TransactionContext)
    (tlvArray : list TLVObject.t) (tagHex : string) :
  getCardData (addCardData ctx tlvArray) tagHex =
    match last (findAllTags tlvArray tagHex) with
    | Some t => Some (TLVObject.valueHex t)
    | None => getCardData ctx tagHex
    end /\
  set_cardData (addCardData ctx tlvArray) (cardData ctx) = ctx.
Proof.
  split.
  - unfold getCardData, addCardData, findAllTags. cbn [cardData set_cardData].
    apply FindFacts.addRecursive_lookup.
  - destruct ctx. reflexivity.
Qed.

End FindProperties.

(** ** DOLs read and filled, and the GPO and GENERATE AC commands *)

Module DOLCodecFacts.
Import TLVParser DOLParser DOLSpec DOLCodecSpec.

Lemma parse_loop_S (fuel : nat) (buffer : list Z) (offset : Z) :
  parse_loop (S fuel) buffer offset =
  if negb (offset <? JS.len buffer) then Ok []
  else
    let '(tag, tagLength) := parseTag buffer offset in
    let offset1 := offset + tagLength in
    let length := JS.get buffer offset1 in
    match tag with
    | None => Throw TypeError
    | Some tag =>
        do rest <- parse_loop fuel buffer (offset1 + 1);
        Ok (mkEntry tag (tagHexOf tag) length :: rest)
    end.
Proof. reflexivity. Qed.

Lemma parse_loop_end (fuel : nat) (buffer : list Z) (offset : Z) :
  JS.len buffer <= offset -> parse_loop fuel buffer offset = Ok [].
Proof.
  intros H. destruct fuel as [|fuel]; [cbn [parse_loop]|rewrite parse_loop_S];
    destruct (Z.ltb_spec offset (JS.len buffer)); try lia; reflexivity.
Qed.

(** Reading the bytes of a DOL, wherever they end a buffer. *)
Lemma parse_loop_pairs (l : list (list Z * Z)) :
  Forall pair_ok l ->
  forall fuel pre,
    (List.length (dol_bytes l) <= fuel)%nat ->
    parse_loop fuel (pre ++ dol_bytes l) (JS.len pre) = Ok (map dol_entry l).
Proof.
  induction 1 as [|[t n] l [Hwf Hn] _ IH]; intros fuel pre Hfuel.
  - apply parse_loop_end. unfold dol_bytes. cbn [map concat].
    rewrite app_nil_r. lia.
  - cbn [fst snd] in *.
    assert (Hbytes : dol_bytes ((t, n) :: l) = t ++ [n] ++ dol_bytes l).
    { unfold dol_bytes. cbn [map concat fst snd]. rewrite <- app_assoc. reflexivity. }
    rewrite Hbytes in *. rewrite !length_app in Hfuel. cbn [List.length] in Hfuel.
    pose proof (ParseFacts.well_formed_len t Hwf) as Htlen.
    destruct fuel as [|fuel]; [lia|].
    rewrite parse_loop_S.
    pose proof (len_nonneg (dol_bytes l)).
    destruct (Z.ltb_spec (JS.len pre) (JS.len (pre ++ t ++ [n] ++ dol_bytes l))) as [_|Hge];
      [|rewrite !len_app in Hge; change (JS.len [n]) with 1 in Hge; lia].
    cbn [negb]. rewrite TagFacts.parseTag_well_formed by assumption. cbv zeta.
    replace (JS.len pre + JS.len t) with (JS.len (pre ++ t) + 0)
      by (rewrite len_app; lia).
    rewrite (app_assoc pre t), get_app_r by lia.
    change (JS.get ([n] ++ dol_bytes l) 0) with (Some n).
    replace (JS.len (pre ++ t) + 0 + 1) with (JS.len ((pre ++ t) ++ [n]))
      by (rewrite (len_app (pre ++ t)); change (JS.len [n]) with 1; lia).
    rewrite (app_assoc (pre ++ t) [n]).
    rewrite IH by lia. cbn [bind map]. unfold dol_entry at 2. cbn [fst snd].
    rewrite TagHexFacts.tagHexOf_number by assumption. reflexivity.
Qed.

Lemma dol_bytes_ok (l : list (list Z * Z)) : Forall pair_ok l -> bytes_ok (dol_bytes l).
Proof.
  induction 1 as [|[t n] l [Hwf Hn] _ IH]; [apply Forall_nil_2|].
  unfold dol_bytes. cbn [map concat fst snd] in *.
  apply bytes_ok_app; [|exact IH].
  apply bytes_ok_app; [apply ParseFacts.well_formed_bytes, Hwf|].
  apply Forall_cons_2; [exact Hn | apply Forall_nil_2].
Qed.

Lemma dol_entries_sized (l : list (list Z * Z)) :
  Forall pair_ok l -> Forall sized (map dol_entry l).
Proof.
  induction 1 as [|[t n] l [Hwf Hn] _ IH]; [apply Forall_nil_2|].
  cbn [map]. apply Forall_cons_2; [|exact IH].
  exists n. split; [reflexivity | unfold byte_ok in Hn; cbn [snd] in Hn; lia].
Qed.

Lemma piece_bytes (values : gmap string string) (e : entry) : bytes_ok (piece values e).
Proof.
  unfold piece. destruct (length e) as [n|]; [|apply Forall_nil_2].
  unfold piece_of, supplied.
  destruct (values !! tagHex e) as [s|]; [|apply Forall_replicate; unfold byte_ok; lia].
  pose proof (ParseHex.to_bytes_ok (Hex.strip s)) as Hv.
  destruct (_ <? _)%nat.
  - apply bytes_ok_app; [apply Forall_replicate; unfold byte_ok; lia | exact Hv].
  - destruct (_ <? _)%nat; [apply Forall_drop, Hv | exact Hv].
Qed.

Lemma pieces_bytes (values : gmap string string) (entries : list entry) :
  bytes_ok (concat (map (piece values) entries)).
Proof.
  induction entries as [|e l IH]; [apply Forall_nil_2|].
  cbn [map concat]. apply bytes_ok_app; [apply piece_bytes | exact IH].
Qed.

Lemma pieces_length (values : gmap string string) (entries : list entry) :
  Forall sized entries ->
  JS.len (concat (map (piece values) entries)) = dol_length entries.
Proof.
  induction 1 as [|e l (n & Hn & Hpos) _ IH]; [reflexivity|].
  cbn [map concat]. unfold dol_length. cbn [fold_right]. fold (dol_length l).
  rewrite len_app, IH, Hn. f_equal.
  unfold piece. rewrite Hn. unfold JS.len. rewrite DOLFacts.piece_of_length. lia.
Qed.

End DOLCodecFacts.

Module GPOFacts.
Import TLVParser TLVBuilder TLVSpec DOLSpec DOLCodecSpec GPOSpec EMVProtocolEngine.

Lemma template_valid (data : list Z) :
  bytes_ok data -> JS.len data < 16777216 ->
  Forall valid [Primitive "83" (Buf data)] /\ Forall agreeing [Primitive "83" (Buf data)].
Proof.
  intros Hb Hlen. split.
  - apply Forall_cons_2; [|apply Forall_nil_2]. cbn [valid to_buffer].
    split; [valid_tag_by [131]|]. split; assumption.
  - apply Forall_cons_2; [exact I | apply Forall_nil_2].
Qed.

Lemma template_bytes (data : list Z) :
  built [Primitive "83" (Buf data)] = [131] ++ encodeLength (JS.len data) ++ data.
Proof.
  rewrite RoundTrip.built_encode. unfold encode.
  cbn [map build item_of tag value to_buffer]. rewrite app_nil_r. reflexivity.
Qed.

Lemma buildGPOData_bytes (ctx : TransactionContext) (terminalData : gmap string string) :
  Forall sized (pdol_entries ctx) ->
  buildGPOData ctx terminalData
    = Ok ([131] ++ encodeLength (JS.len (pdol_data ctx terminalData))
            ++ pdol_data ctx terminalData).
Proof.
  unfold buildGPOData, pdol_data, pdol_entries.
  destruct (pdol ctx) as [[|e l]|]; intros Hs; try reflexivity.
  rewrite (DOLFacts.buildData_pieces _ _ Hs). cbn [bind].
  f_equal. apply template_bytes.
Qed.

Lemma short_length (n : Z) : 0 <= n < 128 -> encodeLength n = [n].
Proof.
  intros Hn. rewrite LengthFacts.encodeLength_bands by lia.
  destruct (Z.ltb_spec n 128); [reflexivity | lia].
Qed.

(** The command of [getProcessingOptions] for data of at most 253 bytes. *)
Lemma getProcessingOptions_bytes (data : list Z) :
  bytes_ok data -> JS.len data <= 253 ->
  CommandAPDU.data (EMVCommands.getProcessingOptions (Buf data))
    = Some ([131; JS.len data] ++ data) /\
  CommandAPDU.toBuffer (EMVCommands.getProcessingOptions (Buf data))
    = [128; 168; 0; 0; JS.len data + 2; 131; JS.len data] ++ data ++ [0].
Proof.
  intros Hb Hlen. pose proof (len_nonneg data) as H0.
  assert (Hd : CommandAPDU.data (EMVCommands.getProcessingOptions (Buf data))
               = Some ([131; JS.len data] ++ data)).
  { unfold EMVCommands.getProcessingOptions. cbn [CommandAPDU.data to_buffer].
    rewrite to_uint8_byte by (unfold byte_ok; lia). reflexivity. }
  split; [exact Hd|].
  unfold CommandAPDU.toBuffer. rewrite Hd.
  cbn [EMVCommands.getProcessingOptions CommandAPDU.cla CommandAPDU.ins
       CommandAPDU.p1 CommandAPDU.p2 CommandAPDU.le].
  rewrite len_app. change (JS.len [131; JS.len data]) with 2.
  rewrite (to_uint8_byte (2 + JS.len data)) by (unfold byte_ok; lia).
  replace (2 + JS.len data) with (JS.len data + 2) by lia. reflexivity.
Qed.

End GPOFacts.

Section DOLProperties.
Import TLVParser TLVBuilder TLVSpec DOLSpec DOLCodecSpec GPOSpec EMVProtocolEngine.

(** X18: [DOLParser.parse] reads a DOL made of well-formed tags, each
    followed by a length byte, into one entry per pair, in order, with the
    tag number, the tag text and the length; and [buildData] on these
    entries returns, for any values, exactly as many bytes as the lengths
    add up to. *)
Theorem dol_parse_then_build (l : list (list Z * Z)) (values : gmap string string) :
  Forall pair_ok l ->
  DOLParser.parse (Hex.of_bytes (dol_bytes l)) = Ok (map dol_entry l) /\
  exists data,
    DOLParser.buildData (map dol_entry l) values = Ok data /\
    bytes_ok data /\
    JS.len data = fold_right (fun p acc => snd p + acc) 0 l.
Proof.
  intros Hl. split.
  - unfold DOLParser.parse.
    rewrite strip_of_bytes, to_bytes_of_bytes by (apply DOLCodecFacts.dol_bytes_ok, Hl).
    apply (DOLCodecFacts.parse_loop_pairs l Hl _ []). lia.
  - pose proof (DOLCodecFacts.dol_entries_sized l Hl) as Hs.
    exists (concat (map (piece values) (map dol_entry l))).
    split; [apply DOLFacts.buildData_pieces, Hs|].
    split; [apply DOLCodecFacts.pieces_bytes|].
    rewrite DOLCodecFacts.pieces_length by assumption.
    clear. induction l as [|p l IH]; [reflexivity|].
    cbn [map fold_right]. rewrite <- IH. reflexivity.
Qed.

Lemma dol_parse_then_build_witness :
  let l := [([159; 2], 6); ([159; 26], 2)] in
  Forall pair_ok l /\
  DOLParser.parse "9F02069F1A02"
    = Ok [DOLParser.mkEntry 40706 "9F02" (Some 6); DOLParser.mkEntry 40730 "9F1A" (Some 2)].
Proof.
  set (l := [([159; 2], 6); ([159; 26], 2)]).
  assert (H : Forall pair_ok l).
  { repeat (apply Forall_cons_2;
      [split; [constructor; first [unfold byte_ok; lia | reflexivity]
              | unfold byte_ok; cbn; lia]|]).
    apply Forall_nil_2. }
  split; [exact H|]. exact (proj1 (dol_parse_then_build l ∅ H)).
Defined.

(** X19: [buildGPOData] returns the command template 83: the tag 83, the
    BER length field of the PDOL data and the PDOL data, which has as many
    bytes as the PDOL lengths add up to; the two bytes 83 00 of the branch
    without a PDOL are that template for empty data.  [TLVParser.parse]
    reads the result as one primitive node 83 holding the PDOL data. *)
Theorem build_gpo_data_template (ctx : TransactionContext)
    (terminalData : gmap string string) (fuel : nat) :
  Forall sized (pdol_entries ctx) ->
  dol_length (pdol_entries ctx) < 16777216 ->
  (Z.to_nat (dol_length (pdol_entries ctx)) + 5 < fuel)%nat ->
  let data := pdol_data ctx terminalData in
  JS.len data = dol_length (pdol_entries ctx) /\
  buildGPOData ctx terminalData = Ok ([131] ++ encodeLength (JS.len data) ++ data) /\
  parse fuel (Hex.of_bytes ([131] ++ encodeLength (JS.len data) ++ data))
    = Ok [TLVObject.mk 131 "83" (Some (JS.len data)) data (Hex.of_bytes data) false []].
Proof.
  intros Hs Hlen Hfuel data.
  assert (Hd : JS.len data = dol_length (pdol_entries ctx))
    by (apply DOLCodecFacts.pieces_length, Hs).
  assert (Hb : bytes_ok data) by apply DOLCodecFacts.pieces_bytes.
  split; [exact Hd|]. split; [apply GPOFacts.buildGPOData_bytes, Hs|].
  destruct (GPOFacts.template_valid data Hb) as [Hv Ha]; [lia|].
  rewrite <- GPOFacts.template_bytes.
  rewrite (ParseHex.parse_built _ fuel Hv Ha); [reflexivity|].
  rewrite <- RoundTrip.built_encode, GPOFacts.template_bytes.
  pose proof (len_nonneg data) as Hd0.
  pose proof (LengthFacts.encodeLength_bands (JS.len data)) as Hbands.
  rewrite !length_app. cbn [List.length].
  assert (List.length (encodeLength (JS.len data)) <= 4)%nat.
  { rewrite Hbands by lia.
    destruct (_ <? 128); [cbn; lia|]. destruct (_ <? 256); [cbn; lia|].
    destruct (_ <? 65536); cbn; lia. }
  unfold JS.len in Hd. lia.
Qed.

Lemma build_gpo_data_template_witness :
  let ctx := set_pdol newContext (Some [amount_entry]) in
  let values : gmap string string := {["9F02" := "0010"]} in
  Forall sized (pdol_entries ctx) /\
  buildGPOData ctx values = Ok [131; 6; 0; 0; 0; 0; 0; 16] /\
  parse 20 "8306000000000010"
    = Ok [TLVObject.mk 131 "83" (Some 6) [0; 0; 0; 0; 0; 16] "000000000010" false []].
Proof.
  set (ctx := set_pdol newContext (Some [amount_entry])).
  assert (Hs : Forall sized (pdol_entries ctx)).
  { apply Forall_cons_2; [|apply Forall_nil_2]. exists 6. split; [reflexivity | lia]. }
  assert (Hlen : dol_length (pdol_entries ctx) < 16777216) by (vm_compute; reflexivity).
  assert (Hfuel : (Z.to_nat (dol_length (pdol_entries ctx)) + 5 < 20)%nat)
    by (vm_compute; lia).
  destruct (build_gpo_data_template ctx {["9F02" := "0010"]} 20 Hs Hlen Hfuel)
    as (_ & Hb & Hp).
  split; [exact Hs|]. split; [exact Hb | exact Hp].
Defined.

(** X20: [EMVCommands.getProcessingOptions] puts the tag 83 and one length
    byte before its data.  For data of fewer than 128 bytes that is the BER
    template that [TLVBuilder] writes for a primitive 83, and the command is
    sent as 80 A8 00 00 Lc 83 L data 00 with Lc = L + 2. *)
Theorem gpo_command_template (pdolData : input) :
  bytes_ok (to_buffer pdolData) -> JS.len (to_buffer pdolData) < 128 ->
  let data := to_buffer pdolData in
  CommandAPDU.data (EMVCommands.getProcessingOptions pdolData)
    = Some (built [Primitive "83" (Buf data)]) /\
  CommandAPDU.toBuffer (EMVCommands.getProcessingOptions pdolData)
    = [128; 168; 0; 0; JS.len data + 2; 131; JS.len data] ++ data ++ [0].
Proof.
  intros Hb Hlen data. pose proof (len_nonneg data) as H0.
  change (to_buffer pdolData) with data in Hb, Hlen.
  change (EMVCommands.getProcessingOptions pdolData)
    with (EMVCommands.getProcessingOptions (Buf data)).
  destruct (GPOFacts.getProcessingOptions_bytes data Hb) as [Hd Ht]; [lia|].
  split; [|exact Ht].
  rewrite Hd, GPOFacts.template_bytes, GPOFacts.short_length by lia. reflexivity.
Qed.

Lemma gpo_command_template_witness :
  bytes_ok (to_buffer (Str "000000000010")) /\
  CommandAPDU.toBuffer (EMVCommands.getProcessingOptions (Str "000000000010"))
    = [128; 168; 0; 0; 8; 131; 6; 0; 0; 0; 0; 0; 16; 0].
Proof.
  assert (Hb : bytes_ok (to_buffer (Str "000000000010"))) by apply ParseHex.to_bytes_ok.
  assert (Hlen : JS.len (to_buffer (Str "000000000010")) < 128) by (vm_compute; reflexivity).
  split; [exact Hb|].
  exact (proj2 (gpo_command_template (Str "000000000010") Hb Hlen)).
Defined.

(** X21: the GPO command of the mobile emulator, which hands the result
    of [buildGPOData], already the template 83, to
    [EMVCommands.getProcessingOptions], which puts 83 and a length byte
    before its argument: for PDOL data of n <= 125 bytes the command data is
    83 (n+2) 83 n data, so the PDOL data is wrapped in two templates, and
    [TLVParser.parse] reads the command data as one node 83 whose value is
    the inner template. *)
Theorem gpo_command_of_engine (ctx : TransactionContext)
    (terminalData : gmap string string) (fuel : nat) :
  Forall sized (pdol_entries ctx) ->
  dol_length (pdol_entries ctx) <= 125 ->
  (140 < fuel)%nat ->
  let data := pdol_data ctx terminalData in
  let n := JS.len data in
  exists gpoData commandData,
    buildGPOData ctx terminalData = Ok gpoData /\
    gpoData = [131; n] ++ data /\
    CommandAPDU.data (EMVCommands.getProcessingOptions (Buf gpoData))
      = Some commandData /\
    commandData = [131; n + 2; 131; n] ++ data /\
    parse fuel (Hex.of_bytes commandData)
      = Ok [TLVObject.mk 131 "83" (Some (n + 2)) gpoData (Hex.of_bytes gpoData)
              false []].
Proof.
  intros Hs Hlen Hfuel data n.
  assert (Hd : n = dol_length (pdol_entries ctx))
    by (apply DOLCodecFacts.pieces_length, Hs).
  assert (Hb : bytes_ok data) by apply DOLCodecFacts.pieces_bytes.
  pose proof (len_nonneg data) as H0. fold n in H0.
  set (gpoData := [131; n] ++ data).
  assert (Hg : bytes_ok gpoData).
  { apply bytes_ok_app; [|exact Hb].
    apply Forall_cons_2; [unfold byte_ok; lia|].
    apply Forall_cons_2; [unfold byte_ok; lia | apply Forall_nil_2]. }
  assert (Hglen : JS.len gpoData = n + 2).
  { unfold gpoData. rewrite len_app. change (JS.len [131; n]) with 2.
    fold n. lia. }
  exists gpoData, ([131; n + 2; 131; n] ++ data).
  split.
  { rewrite GPOFacts.buildGPOData_bytes by assumption. fold data. fold n.
    rewrite GPOFacts.short_length by lia. reflexivity. }
  split; [reflexivity|].
  destruct (GPOFacts.getProcessingOptions_bytes gpoData Hg) as [Hc _]; [lia|].
  split; [rewrite Hc, Hglen; reflexivity|]. split; [reflexivity|].
  destruct (GPOFacts.template_valid gpoData Hg) as [Hv Ha]; [lia|].
  pose proof (GPOFacts.template_bytes gpoData) as Ht.
  rewrite Hglen, GPOFacts.short_length in Ht by lia.
  change ([131] ++ [n + 2] ++ gpoData) with ([131; n + 2; 131; n] ++ data) in Ht.
  rewrite <- Ht.
  rewrite (ParseHex.parse_built _ fuel Hv Ha).
  - cbn [map expected item_of tag value constructed to_buffer].
    rewrite Hglen. reflexivity.
  - rewrite <- RoundTrip.built_encode, Ht.
    rewrite length_app. cbn [List.length]. unfold n, JS.len in *. lia.
Qed.

Lemma gpo_command_of_engine_witness :
  Forall sized (pdol_entries newContext) /\
  exists gpoData,
    buildGPOData newContext ∅ = Ok gpoData /\
    CommandAPDU.toBuffer (EMVCommands.getProcessingOptions (Buf gpoData))
      = [128; 168; 0; 0; 4; 131; 2; 131; 0; 0].
Proof.
  assert (Hs : Forall sized (pdol_entries newContext)) by apply Forall_nil_2.
  assert (Hlen : dol_length (pdol_entries newContext) <= 125) by (vm_compute; discriminate).
  assert (Hfuel : (140 < 141)%nat) by lia.
  destruct (gpo_command_of_engine newContext ∅ 141 Hs Hlen Hfuel)
    as (gpoData & commandData & Hb & Hg & _).
  split; [exact Hs|]. exists gpoData. split; [exact Hb|].
  rewrite Hg. reflexivity.
Defined.

(** X22: [buildGenACData] returns null, after recording one GENERATE_AC
    error, exactly when the context has no CDOL1; with a CDOL1 whose
    lengths add up to n <= 255 it returns n bytes and leaves the context as it
    is, and [EMVCommands.generateAC] of these bytes for a cryptogram type
    that is a byte is sent as 80 AE type 00 n data 00. *)
Theorem genac_command_of_engine (ctx : TransactionContext)
    (terminalData : gmap string string) (type : Z) :
  byte_ok type ->
  match cdol1 ctx with
  | None =>
      exists c, buildGenACData ctx terminalData = Ok (c, None) /\
        errors c = errors ctx ++ [mkError "GENERATE_AC" None] /\
        set_errors c (errors ctx) = ctx
  | Some entries =>
      Forall sized entries -> dol_length entries <= 255 ->
      exists data, buildGenACData ctx terminalData = Ok (ctx, Some data) /\
        JS.len data = dol_length entries /\
        CommandAPDU.toBuffer (EMVCommands.generateAC type (Buf data))
          = [128; 174; type; 0; JS.len data] ++ data ++ [0]
  end.
Proof.
  intros Ht. unfold buildGenACData. destruct (cdol1 ctx) as [entries|] eqn:Hc.
  - intros Hs Hlen.
    rewrite (DOLFacts.buildData_pieces _ _ Hs). cbn [bind].
    eexists. split; [reflexivity|].
    pose proof (DOLCodecFacts.pieces_length terminalData entries Hs) as Hd.
    split; [exact Hd|].
    unfold CommandAPDU.toBuffer, EMVCommands.generateAC.
    cbn [CommandAPDU.cla CommandAPDU.ins CommandAPDU.p1 CommandAPDU.p2
         CommandAPDU.data CommandAPDU.le to_buffer].
    pose proof (len_nonneg (concat (map (piece terminalData) entries))).
    rewrite (to_uint8_byte type) by assumption.
    rewrite (to_uint8_byte (JS.len _)) by (unfold byte_ok; lia).
    reflexivity.
  - eexists. split; [reflexivity|]. split; [reflexivity|].
    destruct ctx. reflexivity.
Qed.

Lemma genac_command_of_engine_witness :
  let ctx := set_cdol1 newContext (Some [amount_entry]) in
  let values : gmap string string := {["9F02" := "0010"]} in
  byte_ok 128 /\
  exists data, buildGenACData ctx values = Ok (ctx, Some data) /\
    CommandAPDU.toBuffer (EMVCommands.generateAC 128 (Buf data))
      = [128; 174; 128; 0; 6; 0; 0; 0; 0; 0; 16; 0].
Proof.
  set (ctx := set_cdol1 newContext (Some [amount_entry])).
  assert (Ht : byte_ok 128) by (unfold byte_ok; lia).
  assert (Hs : Forall sized [amount_entry]).
  { apply Forall_cons_2; [|apply Forall_nil_2]. exists 6. split; [reflexivity | lia]. }
  assert (Hlen : dol_length [amount_entry] <= 255) by (vm_compute; discriminate).
  destruct (genac_command_of_engine ctx {["9F02" := "0010"]} 128 Ht Hs Hlen)
    as (data & Hb & _ & Hc).
  cbv zeta. split; [exact Ht|]. exists data. split; [exact Hb|].
  rewrite Hc. injection Hb as <-. reflexivity.
Defined.

End DOLProperties.

(** ** The engine: outcomes of response processing *)

Module FrameFacts.
Import EMVProtocolEngine EngineSpec FFISpec HistorySpec.

(** A check returns the context with issues appended, and nothing else
    changed. *)
Lemma validateFFI_shape (detect : bool) (ctx : TransactionContext) (t : TLVObject.t) :
  exists added,
    validateFFI detect ctx t = set_interopIssues ctx (interopIssues ctx ++ added).
Proof.
  destruct detect.
  - eexists. apply CheckFacts.validateFFI_on.
  - exists []. rewrite CheckFacts.validateFFI_off. symmetry.
    apply CheckFacts.set_issues_same.
Qed.

Lemma validatePAR_shape (detect : bool) (ctx : TransactionContext) (t : TLVObject.t) :
  exists added,
    validatePAR detect ctx t = set_interopIssues ctx (interopIssues ctx ++ added).
Proof.
  destruct detect.
  - eexists. apply CheckFacts.validatePAR_on.
  - exists []. symmetry. apply CheckFacts.set_issues_same.
Qed.

(** Replace the checks in the goal by their shape. *)
Ltac shape_checks :=
  cbn [bind]; cbv beta zeta;
  repeat match goal with
    | |- context [validateFFI ?d ?c ?t] =>
        let E := fresh "E" in
        destruct (validateFFI_shape d c t) as [? E]; rewrite E; clear E
    | |- context [validatePAR ?d ?c ?t] =>
        let E := fresh "E" in
        destruct (validatePAR_shape d c t) as [? E]; rewrite E; clear E
    end.

Ltac extends_by_fields ctx :=
  shape_checks; unfold extends; destruct ctx; cbn;
  repeat split; repeat (apply prefix_app_r); reflexivity.

Lemma select_extends (detect : bool) (fuel : nat) (ctx : TransactionContext)
    (r : ResponseAPDU.t) :
  match processSelectResponse detect fuel ctx r with
  | Ok (c, _) => extends ctx c
  | _ => True
  end.
Proof.
  unfold processSelectResponse.
  destruct (ResponseAPDU.isSuccess r); cbn [negb]; [|extends_by_fields ctx].
  destruct (TLVParser.parse fuel _) as [tlv|e|]; cbn [bind]; trivial.
  destruct (TLVParser.findTag tlv "9F38") as [pdolTag|];
    [destruct (DOLParser.parse _); cbn [bind]; trivial|];
    destruct (TLVParser.findTag tlv "9F2A"), (TLVParser.findTag tlv "9F6E");
    extends_by_fields ctx.
Qed.

Lemma gpo_extends (fuel : nat) (ctx : TransactionContext) (r : ResponseAPDU.t) :
  match processGPOResponse fuel ctx r with
  | Ok (c, _) => extends ctx c
  | _ => True
  end.
Proof.
  unfold processGPOResponse.
  destruct (ResponseAPDU.isSuccess r); cbn [negb]; [|extends_by_fields ctx].
  cbv zeta.
  destruct (JS.strict_eq _ 128); [extends_by_fields ctx|].
  destruct (JS.strict_eq _ 119).
  - destruct (TLVParser.parse fuel _) as [tlv|e|]; cbn [bind]; trivial.
    destruct (TLVParser.findTag tlv "82"), (TLVParser.findTag tlv "94");
      extends_by_fields ctx.
  - destruct (JS.get _ 0); [extends_by_fields ctx | trivial].
Qed.

Lemma read_extends (detect : bool) (fuel : nat) (ctx : TransactionContext)
    (r : ResponseAPDU.t) (sfi record : Z) :
  match processReadRecordResponse detect fuel ctx r sfi record with
  | Ok (c, _) => extends ctx c
  | _ => True
  end.
Proof.
  unfold processReadRecordResponse.
  destruct (ResponseAPDU.isSuccess r); cbn [negb]; [|extends_by_fields ctx].
  destruct (TLVParser.parse fuel _) as [tlv|e|]; cbn [bind]; trivial.
  destruct (TLVParser.findTag tlv "8C") as [t1|];
    [destruct (DOLParser.parse _); cbn [bind]; trivial|];
    (destruct (TLVParser.findTag tlv "8D") as [t2|];
     [destruct (DOLParser.parse _); cbn [bind]; trivial|]);
    destruct (TLVParser.findTag tlv "DF8101");
    extends_by_fields ctx.
Qed.

Lemma genac_extends (fuel : nat) (ctx : TransactionContext) (r : ResponseAPDU.t) :
  match processGenACResponse fuel ctx r with
  | Ok (c, _) => extends ctx c
  | _ => True
  end.
Proof.
  unfold processGenACResponse.
  destruct (ResponseAPDU.isSuccess r); cbn [negb]; [|extends_by_fields ctx].
  cbv zeta.
  destruct (JS.strict_eq _ 128); [extends_by_fields ctx|].
  destruct (JS.strict_eq _ 119); [|extends_by_fields ctx].
  destruct (TLVParser.parse fuel _) as [tlv|e|]; cbn [bind]; trivial.
  destruct (TLVParser.findTag tlv "9F27"), (TLVParser.findTag tlv "9F26");
    extends_by_fields ctx.
Qed.

(** The text of an empty buffer parses to no node. *)
Lemma parse_empty (fuel : nat) : (0 < fuel)%nat -> TLVParser.parse fuel (toHex []) = Ok [].
Proof. intros H. destruct fuel as [|fuel]; [lia | reflexivity]. Qed.

End FrameFacts.

Section OutcomeProperties.
Import EMVProtocolEngine EngineSpec HistorySpec.

(** X23: [processSelectResponse] on a response with a success status
    throws exactly what [TLVParser.parse] throws on the response data, the
    context not having been written to yet; and when the parser returns a
    tree, it returns true in the state INITIATE_APPLICATION_PROCESSING, with
    the tree as [fci], its tags added to the card data, and [errors],
    [warnings] and [records] as they were.  In particular reading a PDOL
    never throws. *)
Theorem select_outcome (detect : bool) (fuel : nat) (ctx : TransactionContext)
    (r : ResponseAPDU.t) :
  ResponseAPDU.isSuccess r = true ->
  match TLVParser.parse fuel (toHex (ResponseAPDU.data r)) with
  | Ok tlv =>
      exists c, processSelectResponse detect fuel ctx r = Ok (c, true) /\
        state c = INITIATE_APPLICATION_PROCESSING /\
        fci c = Some tlv /\
        cardData c = addRecursive tlv (cardData ctx) /\
        errors c = errors ctx /\ warnings c = warnings ctx /\
        records c = records ctx
  | Throw e => processSelectResponse detect fuel ctx r = Throw e
  | OutOfFuel => processSelectResponse detect fuel ctx r = OutOfFuel
  end.
Proof.
  intros Hok. unfold processSelectResponse. rewrite Hok. cbn [negb].
  destruct (TLVParser.parse fuel _) as [tlv|e|]; cbn [bind]; try reflexivity.
  destruct (TLVParser.findTag tlv "9F38") as [pdolTag|];
    [destruct (DOLParseFacts.parse_total (TLVObject.valueHex pdolTag)) as [p ->];
     cbn [bind]|];
    destruct (TLVParser.findTag tlv "9F2A"), (TLVParser.findTag tlv "9F6E");
    FrameFacts.shape_checks;
    (eexists; split; [reflexivity|]); destruct ctx; cbn; repeat split; reflexivity.
Qed.

Lemma select_outcome_witness :
  let r := ResponseAPDU.success (TLVBuilder.built TreeExamples.fci) in
  ResponseAPDU.isSuccess r = true /\
  exists c, processSelectResponse true 40 newContext r = Ok (c, true) /\
    state c = INITIATE_APPLICATION_PROCESSING /\
    cardData c !! "50" = Some "56495341".
Proof.
  set (r := ResponseAPDU.success (TLVBuilder.built TreeExamples.fci)).
  assert (Hok : ResponseAPDU.isSuccess r = true) by reflexivity.
  split; [exact Hok|].
  pose proof (select_outcome true 40 newContext r Hok) as H.
  destruct (TLVParser.parse 40 (toHex (ResponseAPDU.data r))) as [tlv|e|] eqn:E.
  - destruct H as (c & Hc & Hs & _ & Hd & _).
    exists c. split; [exact Hc|]. split; [exact Hs|].
    rewrite Hd. vm_compute in E. injection E as <-. vm_compute. reflexivity.
  - exfalso. vm_compute in E. discriminate E.
  - exfalso. vm_compute in E. discriminate E.
Defined.

(** X24: [processReadRecordResponse] on a response with a success status
    throws exactly what [TLVParser.parse] throws on the response data; and
    when the parser returns a tree, it returns true, appends the record with
    the given SFI and record number to [records], adds the tags of the tree
    to the card data, and leaves the state, [errors] and [warnings] as they
    were.  In particular reading CDOL1 and CDOL2 never throws. *)
Theorem read_record_outcome (detect : bool) (fuel : nat) (ctx : TransactionContext)
    (r : ResponseAPDU.t) (sfi record : Z) :
  ResponseAPDU.isSuccess r = true ->
  match TLVParser.parse fuel (toHex (ResponseAPDU.data r)) with
  | Ok tlv =>
      exists c, processReadRecordResponse detect fuel ctx r sfi record = Ok (c, true) /\
        state c = state ctx /\
        records c = records ctx ++ [mkRecord sfi record tlv] /\
        cardData c = addRecursive tlv (cardData ctx) /\
        errors c = errors ctx /\ warnings c = warnings ctx
  | Throw e => processReadRecordResponse detect fuel ctx r sfi record = Throw e
  | OutOfFuel => processReadRecordResponse detect fuel ctx r sfi record = OutOfFuel
  end.
Proof.
  intros Hok. unfold processReadRecordResponse. rewrite Hok. cbn [negb].
  destruct (TLVParser.parse fuel _) as [tlv|e|]; cbn [bind]; try reflexivity.
  destruct (TLVParser.findTag tlv "8C") as [t1|];
    [destruct (DOLParseFacts.parse_total (TLVObject.valueHex t1)) as [d1 ->];
     cbn [bind]|];
    (destruct (TLVParser.findTag tlv "8D") as [t2|];
     [destruct (DOLParseFacts.parse_total (TLVObject.valueHex t2)) as [d2 ->];
      cbn [bind]|]);
    destruct (TLVParser.findTag tlv "DF8101");
    FrameFacts.shape_checks;
    (eexists; split; [reflexivity|]); destruct ctx; cbn; repeat split; reflexivity.
Qed.

Lemma read_record_outcome_witness :
  let r := ResponseAPDU.success [112; 4; 140; 2; 149; 5] in
  ResponseAPDU.isSuccess r = true /\
  exists c, processReadRecordResponse true 20 newContext r 1 2 = Ok (c, true) /\
    state c = IDLE /\
    cdol1 c = Some [DOLParser.mkEntry 149 "95" (Some 5)].
Proof.
  set (r := ResponseAPDU.success [112; 4; 140; 2; 149; 5]).
  assert (Hok : ResponseAPDU.isSuccess r = true) by reflexivity.
  split; [exact Hok|].
  pose proof (read_record_outcome true 20 newContext r 1 2 Hok) as H.
  destruct (TLVParser.parse 20 (toHex (ResponseAPDU.data r))) as [tlv|e|] eqn:E.
  - destruct H as (c & Hc & Hs & _).
    exists c. split; [exact Hc|]. split; [exact Hs|].
    assert (Hv : processReadRecordResponse true 20 newContext r 1 2
                 = Ok (c, true)) by exact Hc.
    vm_compute in Hv. injection Hv as <-. reflexivity.
  - exfalso. vm_compute in E. discriminate E.
  - exfalso. vm_compute in E. discriminate E.
Defined.

(** X25: a response with a success status and no data.  SELECT processing
    stores an empty FCI and goes on; READ RECORD processing appends a record
    without nodes; GPO processing throws a TypeError, reading the first byte
    of the data for its message, before it writes anything; GENERATE AC
    processing completes the transaction without a cryptogram having been
    stored. *)
Theorem success_without_data (detect : bool) (fuel : nat) (ctx : TransactionContext)
    (r : ResponseAPDU.t) (sfi record : Z) :
  ResponseAPDU.isSuccess r = true -> ResponseAPDU.data r = [] -> (0 < fuel)%nat ->
  (exists c, processSelectResponse detect fuel ctx r = Ok (c, true) /\
     state c = INITIATE_APPLICATION_PROCESSING /\ fci c = Some [] /\
     pdol c = pdol ctx /\ kernel c = kernel ctx /\ cardData c = cardData ctx) /\
  (exists c, processReadRecordResponse detect fuel ctx r sfi record = Ok (c, true) /\
     records c = records ctx ++ [mkRecord sfi record []] /\
     cdol1 c = cdol1 ctx /\ cardData c = cardData ctx) /\
  processGPOResponse fuel ctx r = Throw TypeError /\
  (exists c, processGenACResponse fuel ctx r = Ok (c, true) /\
     state c = COMPLETION /\
     cryptogram c = cryptogram ctx /\ cryptogramType c = cryptogramType ctx).
Proof.
  intros Hok Hdata Hfuel.
  unfold processSelectResponse, processReadRecordResponse, processGPOResponse,
    processGenACResponse.
  rewrite Hok, Hdata, FrameFacts.parse_empty by assumption. cbn [negb bind].
  repeat split.
  - eexists. split; [reflexivity|]. destruct ctx. cbn. repeat split; reflexivity.
  - eexists. split; [reflexivity|]. destruct ctx. cbn. repeat split; reflexivity.
  - eexists. split; [reflexivity|]. destruct ctx. cbn. repeat split; reflexivity.
Qed.

Lemma success_without_data_witness :
  let r := ResponseAPDU.success [] in
  ResponseAPDU.isSuccess r = true /\ ResponseAPDU.data r = [] /\
  processGPOResponse 1 newContext r = Throw TypeError /\
  exists c, processGenACResponse 1 newContext r = Ok (c, true) /\ cryptogram c = None.
Proof.
  set (r := ResponseAPDU.success []).
  assert (Hok : ResponseAPDU.isSuccess r = true) by reflexivity.
  assert (Hd : ResponseAPDU.data r = []) by reflexivity.
  assert (Hf : (0 < 1)%nat) by lia.
  destruct (success_without_data true 1 newContext r 0 0 Hok Hd Hf)
    as (_ & _ & Hg & c & Hc & _ & Hcr & _).
  split; [exact Hok|]. split; [exact Hd|]. split; [exact Hg|].
  exists c. split; [exact Hc | exact Hcr].
Defined.

(** X26: response processing only appends to the history of a context:
    whatever the response, when one of the four processing functions
    returns, the log, the errors, the warnings, the interoperability issues
    and the records of the context it returns each start with what they held
    before the call. *)
Theorem history_is_append_only (detect : bool) (fuel : nat)
    (ctx : TransactionContext) (r : ResponseAPDU.t) (sfi record : Z)
    (c : TransactionContext) (b : bool) :
  processSelectResponse detect fuel ctx r = Ok (c, b) \/
  processGPOResponse fuel ctx r = Ok (c, b) \/
  processReadRecordResponse detect fuel ctx r sfi record = Ok (c, b) \/
  processGenACResponse fuel ctx r = Ok (c, b) ->
  extends ctx c.
Proof.
  intros [H|[H|[H|H]]].
  - pose proof (FrameFacts.select_extends detect fuel ctx r) as L.
    rewrite H in L. exact L.
  - pose proof (FrameFacts.gpo_extends fuel ctx r) as L. rewrite H in L. exact L.
  - pose proof (FrameFacts.read_extends detect fuel ctx r sfi record) as L.
    rewrite H in L. exact L.
  - pose proof (FrameFacts.genac_extends fuel ctx r) as L. rewrite H in L. exact L.
Qed.

Lemma history_is_append_only_witness :
  let ctx := set_errors newContext [mkError "SELECT" (Some 27266)] in
  exists c,
    processGPOResponse 8 ctx (ResponseAPDU.error 27013) = Ok (c, false) /\
    extends ctx c /\
    errors c = [mkError "SELECT" (Some 27266); mkError "GPO" (Some 27013)].
Proof.
  set (ctx := set_errors newContext [mkError "SELECT" (Some 27266)]).
  eexists. split; [vm_compute; reflexivity|]. split; [|reflexivity].
  apply (history_is_append_only true 8 ctx (ResponseAPDU.error 27013) 0 0 _ false).
  right. left. vm_compute. reflexivity.
Defined.

End OutcomeProperties.

(** ** Response templates 77 *)

Module TemplateFacts.
Import TLVParser TLVBuilder TagSpec TLVSpec TemplateSpec FindSpec EMVProtocolEngine.

(** A search finds nothing in the tree of a call that builds no object with
    the tag. *)
Lemma mentions_findTag (s : string) (c : call) :
  mentions s c = false -> findTag_in s (expected c) = None.
Proof.
  induction c as [tagHex v|tagHex buildFn IH] using RoundTrip.call_ind'; intros Hm.
  - rewrite FindFacts.findTag_in_eq.
    change (TLVObject.tagHex (expected (Primitive tagHex v))) with (toUpperCase tagHex).
    cbn [mentions] in Hm. rewrite Hm. reflexivity.
  - cbn [mentions] in Hm. apply orb_false_iff in Hm as [Hown Hany].
    rewrite FindFacts.findTag_in_eq.
    change (TLVObject.tagHex (expected (Constructed tagHex buildFn)))
      with (toUpperCase tagHex).
    rewrite Hown. destruct (searched _); [|reflexivity].
    change (TLVObject.children (expected (Constructed tagHex buildFn)))
      with (map expected buildFn).
    induction IH as [|c l Hc _ IHl]; [reflexivity|].
    apply orb_false_iff in Hany as [Hc' Hl'].
    cbn [map findTag_scan]. rewrite (Hc Hc'). apply IHl, Hl'.
Qed.

Lemma free_scan (s : string) (cs : list call) :
  free_of s cs -> findTag_scan s (map expected cs) = None.
Proof.
  induction 1 as [|c l Hc _ IH]; [reflexivity|].
  cbn [map findTag_scan]. rewrite (mentions_findTag s c Hc). exact IH.
Qed.

Lemma scan_app (s : string) (l1 l2 : list TLVObject.t) :
  findTag_scan s (l1 ++ l2) =
  match findTag_scan s l1 with
  | Some x => Some x
  | None => findTag_scan s l2
  end.
Proof.
  induction l1 as [|a l1 IH]; [reflexivity|].
  cbn [app findTag_scan]. destruct (findTag_in s a); [reflexivity | exact IH].
Qed.

Lemma primitive_found (s tagHex : string) (v : input) (rest : list call) :
  toUpperCase tagHex = s ->
  findTag_scan s (map expected (Primitive tagHex v :: rest))
    = Some (expected (Primitive tagHex v)).
Proof.
  intros Hs. cbn [map findTag_scan]. rewrite FindFacts.findTag_in_eq.
  change (TLVObject.tagHex (expected (Primitive tagHex v))) with (toUpperCase tagHex).
  rewrite Hs, String.eqb_refl. reflexivity.
Qed.

(** In the tree of a template 77, a search for a tag finds the child that
    holds it first, with its value. *)
Lemma first_holds_found (s : string) (v : list Z) (cs : list call) :
  toUpperCase s = s -> String.eqb "77" s = false ->
  Forall valid cs -> first_holds s v cs ->
  exists t,
    findTag (map expected [Constructed "77" cs]) s = Some t /\
    TLVObject.value t = v /\ TLVObject.valueHex t = Hex.of_bytes v /\
    bytes_ok v.
Proof.
  intros Hu H77 Hv (before & tagHex & inp & after & -> & Ht & <- & Hfree).
  exists (expected (Primitive tagHex inp)).
  split; [|split; [reflexivity|split; [reflexivity|]]].
  - set (children := before ++ Primitive tagHex inp :: after).
    assert (Hs : searched (expected (Constructed "77" children)) = true).
    { unfold searched.
      change (TLVObject.children (expected (Constructed "77" children)))
        with (map expected children).
      change (TLVObject.constructed (expected (Constructed "77" children))) with true.
      unfold children. rewrite length_map, length_app. cbn [length andb].
      apply Z.ltb_lt. lia. }
    unfold findTag. rewrite Hu. cbn [map findTag_scan].
    rewrite FindFacts.findTag_in_eq.
    change (TLVObject.tagHex (expected (Constructed "77" children))) with "77".
    rewrite H77, Hs.
    change (TLVObject.children (expected (Constructed "77" children)))
      with (map expected children).
    unfold children. rewrite map_app, scan_app, free_scan by assumption.
    rewrite primitive_found by exact Ht. reflexivity.
  - apply Forall_app in Hv as [_ Hv]. apply Forall_cons in Hv as [Hp _].
    destruct Hp as (_ & Hb & _). exact Hb.
Qed.

(** A template 77 is valid when its children are and their bytes fit its
    length field. *)
Lemma template77_valid (cs : list call) :
  Forall valid cs -> Forall agreeing cs -> JS.len (encode cs) < 16777216 ->
  Forall valid [Constructed "77" cs] /\ Forall agreeing [Constructed "77" cs].
Proof.
  intros Hv Ha Hlen. split.
  - apply Forall_cons_2; [|apply Forall_nil_2]. cbn [valid].
    split; [valid_tag_by [119]|]. split; [|exact Hlen].
    apply RoundTrip.valid_all, Hv.
  - apply Forall_cons_2; [|apply Forall_nil_2]. cbn [agreeing].
    split; [exact I|]. apply RoundTrip.agreeing_all, Ha.
Qed.

(** Decoding the bytes of a valid template 77. *)
Lemma template77_parsed (fuel : nat) (cs : list call) :
  Forall valid cs -> Forall agreeing cs -> JS.len (encode cs) < 16777216 ->
  (length (template77 cs) < fuel)%nat ->
  parse fuel (toHex (template77 cs)) = Ok (map expected [Constructed "77" cs]) /\
  JS.get (template77 cs) 0 = Some 119.
Proof.
  intros Hv Ha Hlen Hfuel.
  destruct (template77_valid cs Hv Ha Hlen) as [Hv77 Ha77].
  unfold template77 in *. split.
  - unfold toHex. apply ParseHex.parse_built; try assumption.
    rewrite <- RoundTrip.built_encode. exact Hfuel.
  - rewrite RoundTrip.built_encode. reflexivity.
Qed.

(** What GPO processing stores for a response in Format 1. *)
Lemma gpo_format1_stored (fuel : nat) (ctx : TransactionContext)
    (r : ResponseAPDU.t) (aipv aflv : list Z) :
  ResponseAPDU.isSuccess r = true ->
  ResponseAPDU.data r = TLVExamples.gpo_format1 aipv aflv ->
  JS.len aipv = 2 ->
  exists c,
    processGPOResponse fuel ctx r = Ok (c, true) /\
    aip c = Some aipv /\ afl c = Some (parseAFL aflv) /\
    state c = READ_APPLICATION_DATA.
Proof.
  intros Hok Hdata Hlen2.
  destruct (gpo_format1_slices aipv aflv Hlen2) as (Hg0 & Hg1 & Hs1 & Hs2).
  eexists. split.
  - unfold processGPOResponse. rewrite Hok, Hdata. cbn [negb]. cbv zeta.
    rewrite Hg0, Hg1. cbn [JS.strict_eq].
    change (128 =? 128) with true. cbv iota. rewrite Hs1, Hs2. reflexivity.
  - destruct ctx. repeat split; reflexivity.
Qed.

(** What GPO processing stores for a response in Format 2 in which the
    first objects with the tags 82 and 94 are children of the template. *)
Lemma gpo_format2_stored (fuel : nat) (ctx : TransactionContext)
    (r : ResponseAPDU.t) (aipv aflv : list Z) (cs : list call) :
  ResponseAPDU.isSuccess r = true ->
  ResponseAPDU.data r = template77 cs ->
  Forall valid cs -> Forall agreeing cs -> JS.len (encode cs) < 16777216 ->
  first_holds "82" aipv cs -> first_holds "94" aflv cs ->
  (length (template77 cs) < fuel)%nat ->
  exists c,
    processGPOResponse fuel ctx r = Ok (c, true) /\
    aip c = Some aipv /\ afl c = Some (parseAFL aflv) /\
    state c = READ_APPLICATION_DATA.
Proof.
  intros Hok Hdata Hv Ha Hlen H82 H94 Hfuel.
  destruct (template77_parsed fuel cs Hv Ha Hlen Hfuel) as [Hparse Hget].
  destruct (first_holds_found "82" aipv cs eq_refl eq_refl Hv H82)
    as (t82 & Hf82 & _ & Hx82 & Hb82).
  destruct (first_holds_found "94" aflv cs eq_refl eq_refl Hv H94)
    as (t94 & Hf94 & _ & Hx94 & Hb94).
  eexists. split.
  - unfold processGPOResponse. rewrite Hok, Hdata. cbn [negb]. cbv zeta.
    rewrite Hget. cbn [JS.strict_eq].
    change (119 =? 128) with false. change (119 =? 119) with true. cbv iota.
    rewrite Hparse. cbn [bind]. rewrite Hf82, Hf94, Hx82, Hx94.
    rewrite !to_bytes_of_bytes by assumption. reflexivity.
  - destruct ctx. repeat split; reflexivity.
Qed.

End TemplateFacts.

(** ** Field validation, and whole steps of a transaction *)

Module FlowFacts.
Import TLVParser TLVBuilder TagSpec TLVSpec EMVProtocolEngine FlowSpec.

(** A text that includes '3D' includes 'D'. *)
Lemma includes_3D (t : string) : includes t "3D" = true -> includes t "D" = true.
Proof.
  induction t as [|c t IH]; [intros H; discriminate H|].
  change (includes (String c t) "3D")
    with (String.prefix "3D" (String c t) || includes t "3D").
  change (includes (String c t) "D")
    with (String.prefix "D" (String c t) || includes t "D").
  intros H. apply orb_true_iff. right.
  apply orb_true_iff in H as [H|H]; [|apply IH, H].
  cbn [String.prefix] in H.
  destruct (ascii_dec "3" c) as [_|]; [|discriminate H].
  destruct t as [|d t]; [discriminate H|].
  change (includes (String d t) "D")
    with (String.prefix "D" (String d t) || includes t "D").
  rewrite H. reflexivity.
Qed.

Lemma type_name (cid : Z) :
  byte_ok cid -> getCryptogramTypeName (Some (Z.land cid 192)) = type_name_of_cid cid.
Proof.
  intros Hb. apply String.eqb_eq.
  apply (RangeFacts.range_check 256
           (fun b => String.eqb (getCryptogramTypeName (Some (Z.land b 192)))
                       (type_name_of_cid b)));
    [vm_compute; reflexivity | exact Hb].
Qed.

(** The length field takes at most four bytes. *)
Lemma len_encodeLength (n : Z) :
  0 <= n < 16777216 -> 1 <= JS.len (encodeLength n) <= 4.
Proof.
  intros Hn. rewrite LengthFacts.encodeLength_bands by assumption.
  destruct (n <? 128); [unfold JS.len; cbn; lia|].
  destruct (n <? 256); [unfold JS.len; cbn; lia|].
  destruct (n <? 65536); unfold JS.len; cbn; lia.
Qed.

(** The bytes of one primitive call under a tag of [k] bytes. *)
Lemma len_primitive (tagHex : string) (v : list Z) (k : Z) :
  JS.len (encodeTag (toUpperCase tagHex)) = k -> JS.len v < 16777216 ->
  k + 1 + JS.len v <= JS.len (encode [Primitive tagHex (Buf v)])
    <= k + 4 + JS.len v.
Proof.
  intros Hk Hv. unfold encode. cbn [map build item_of tag value to_buffer].
  rewrite app_nil_r, !len_app, Hk.
  pose proof (len_nonneg v).
  pose proof (len_encodeLength (JS.len v)). lia.
Qed.

Lemma encode_cons (c : call) (cs : list call) :
  encode (c :: cs) = encode [c] ++ encode cs.
Proof.
  unfold encode. cbn [map build]. rewrite app_nil_r, <- !app_assoc. reflexivity.
Qed.

(** The bytes of one constructed call under a tag of [k] bytes. *)
Lemma len_constructed (tagHex : string) (buildFn : list call) (k : Z) :
  JS.len (encodeTag (toUpperCase tagHex)) = k -> JS.len (encode buildFn) < 16777216 ->
  k + 1 + JS.len (encode buildFn) <= JS.len (encode [Constructed tagHex buildFn])
    <= k + 4 + JS.len (encode buildFn).
Proof.
  intros Hk Hv.
  change (encode [Constructed tagHex buildFn])
    with (encodeTag (toUpperCase tagHex)
            ++ encodeLength (JS.len (encode buildFn)) ++ encode buildFn ++ []).
  rewrite app_nil_r, !len_app, Hk.
  pose proof (len_nonneg (encode buildFn)).
  pose proof (len_encodeLength (JS.len (encode buildFn))). lia.
Qed.

(** The sizes of the parts of an FCI template whose three values have at
    most 255 bytes each. *)
Lemma fci_sizes (aid label pdol : list Z) :
  JS.len aid <= 255 -> JS.len label <= 255 -> JS.len pdol <= 255 ->
  let inner := [Primitive "50" (Buf label); Primitive "9F38" (Buf pdol)] in
  let outer := [Primitive "84" (Buf aid); Constructed "A5" inner] in
  JS.len (encode inner) <= 521 /\ JS.len (encode outer) <= 786 /\
  JS.len (encode [Constructed "6F" outer]) <= 791.
Proof.
  intros Hla Hll Hlp inner outer.
  pose proof (len_primitive "84" aid 1 eq_refl) as H84.
  pose proof (len_primitive "50" label 1 eq_refl) as H50.
  pose proof (len_primitive "9F38" pdol 2 eq_refl) as H9F38.
  assert (Hinner : JS.len (encode inner) <= 521).
  { unfold inner. rewrite encode_cons, len_app. lia. }
  pose proof (len_constructed "A5" inner 1 eq_refl) as HA5.
  assert (Houter : JS.len (encode outer) <= 786).
  { unfold outer. rewrite encode_cons, len_app. lia. }
  pose proof (len_constructed "6F" outer 1 eq_refl) as H6F.
  split; [exact Hinner|]. split; [exact Houter | lia].
Qed.

Lemma fci_calls_valid (aid label pdol : list Z) :
  bytes_ok aid -> bytes_ok label -> bytes_ok pdol ->
  JS.len aid <= 255 -> JS.len label <= 255 -> JS.len pdol <= 255 ->
  Forall valid (fci_calls aid label pdol) /\ Forall agreeing (fci_calls aid label pdol).
Proof.
  intros Haid Hlabel Hpdol Hla Hll Hlp.
  destruct (fci_sizes aid label pdol Hla Hll Hlp) as (Hinner & Houter & _).
  split.
  - apply Forall_cons_2; [|apply Forall_nil_2]. cbn [valid].
    split; [valid_tag_by [111]|]. split.
    + split; [|split; [|exact I]].
      * split; [valid_tag_by [132]|]. split; [exact Haid | cbn [to_buffer]; lia].
      * split; [valid_tag_by [165]|]. split; [|lia].
        split; [|split; [|exact I]].
        -- split; [valid_tag_by [80]|]. split; [exact Hlabel | cbn [to_buffer]; lia].
        -- split; [valid_tag_by [159; 56]|]. split; [exact Hpdol | cbn [to_buffer]; lia].
    + lia.
  - apply Forall_cons_2; [|apply Forall_nil_2]. cbn [agreeing]. repeat split.
Qed.

Lemma built_bound (aid label pdol : list Z) :
  JS.len aid <= 255 -> JS.len label <= 255 -> JS.len pdol <= 255 ->
  (List.length (encode (fci_calls aid label pdol)) < 800)%nat.
Proof.
  intros Hla Hll Hlp.
  destruct (fci_sizes aid label pdol Hla Hll Hlp) as (_ & _ & H6F).
  unfold JS.len in H6F. unfold fci_calls. lia.
Qed.

End FlowFacts.

Section FlowProperties.
Import TLVParser TLVBuilder TagSpec TLVSpec TemplateSpec EMVProtocolEngine FlowSpec.
Import DOLSpec DOLCodecSpec GPOSpec ReadSpec.

(** X27: [detectFieldValidationIssues] never reports TRACK2_FORMAT: the
    branch that pushes it asks for a Track 2 text that includes '3D' after
    the test for 'D' has failed, and a text that includes '3D' includes 'D'.
    The result depends neither on the network type nor on tag 57: it is one
    TVR_LENGTH finding when the card data hold non-empty texts for 95 and
    9F10 and the text of 95 has not 10 characters, and nothing otherwise. *)
Theorem track2_format_never_reported (ctx : TransactionContext) (networkType : string) :
  detectFieldValidationIssues ctx networkType =
    match getCardData ctx "95" with
    | Some tvr =>
        if truthy (Some tvr) && truthy (getCardData ctx "9F10")
           && negb (Nat.eqb (String.length tvr) 10)
        then [("TVR_LENGTH", SEV_ERROR)]
        else []
    | None => []
    end /\
  ~ In "TRACK2_FORMAT" (map fst (detectFieldValidationIssues ctx networkType)).
Proof.
  assert (H : detectFieldValidationIssues ctx networkType =
    match getCardData ctx "95" with
    | Some tvr =>
        if truthy (Some tvr) && truthy (getCardData ctx "9F10")
           && negb (Nat.eqb (String.length tvr) 10)
        then [("TVR_LENGTH", SEV_ERROR)]
        else []
    | None => []
    end).
  { unfold detectFieldValidationIssues.
    assert (H57 : match getCardData ctx "57" with
                  | Some t =>
                      if truthy (getCardData ctx "57")
                         && negb (String.eqb networkType "VISA")
                      then if includes t "D" then []
                           else if includes t "3D"
                                then [("TRACK2_FORMAT", WARNING)] else []
                      else []
                  | None => []
                  end = []).
    { destruct (getCardData ctx "57") as [t|]; [|reflexivity].
      destruct (truthy (Some t) && _); [|reflexivity].
      destruct (includes t "D") eqn:HD; [reflexivity|].
      destruct (includes t "3D") eqn:H3D; [|reflexivity].
      apply FlowFacts.includes_3D in H3D. congruence. }
    rewrite H57. cbn [app].
    destruct (getCardData ctx "95") as [tvr|]; [|reflexivity].
    destruct (truthy (Some tvr) && truthy (getCardData ctx "9F10")); [|reflexivity].
    cbn [andb]. destruct (negb _); reflexivity. }
  split; [exact H|]. rewrite H.
  destruct (getCardData ctx "95") as [tvr|]; [|intros []].
  destruct (_ && _ && _); cbn [map fst In]; [|intros []].
  intros [E|[]]. discriminate E.
Qed.

(** X28: GENERATE AC processing of a successful response in Format 2, a
    template 77 whose children are any valid objects (three-byte tags
    agreeing), in any order and number, such that the first object with tag
    9F27 in document order is a child of the template, its first value byte
    being the CID, and the first object with tag 9F26 is a child of the
    template holding the cryptogram (so with the ATC 9F36 between them and
    further objects after them, as the card emulators build it): the context
    gets the top two bits of the CID as cryptogram type and exactly the
    value of 9F26 as cryptogram, the transaction completes and no error is
    recorded; the name of the type is AAC, TC or ARQC, and UNKNOWN when both
    top bits of the CID are set. *)
Theorem genac_format2_general (fuel : nat) (ctx : TransactionContext)
    (r : ResponseAPDU.t) (cid : Z) (more ac : list Z) (cs : list call) :
  ResponseAPDU.isSuccess r = true ->
  ResponseAPDU.data r = template77 cs ->
  Forall valid cs -> Forall agreeing cs -> JS.len (encode cs) < 16777216 ->
  first_holds "9F27" (cid :: more) cs -> first_holds "9F26" ac cs ->
  (length (template77 cs) < fuel)%nat ->
  exists c, processGenACResponse fuel ctx r = Ok (c, true) /\
    state c = COMPLETION /\ errors c = errors ctx /\
    cryptogramType c = Some (Z.land cid 192) /\
    cryptogram c = Some ac /\
    getCryptogramTypeName (cryptogramType c) = type_name_of_cid cid.
Proof.
  intros Hok Hdata Hv Ha Hlen H27 H26 Hfuel.
  destruct (TemplateFacts.template77_parsed fuel cs Hv Ha Hlen Hfuel) as [Hparse Hget].
  destruct (TemplateFacts.first_holds_found "9F27" (cid :: more) cs eq_refl eq_refl Hv H27)
    as (t27 & Hf27 & Hv27 & _ & Hb27).
  destruct (TemplateFacts.first_holds_found "9F26" ac cs eq_refl eq_refl Hv H26)
    as (t26 & Hf26 & _ & Hx26 & Hb26).
  assert (Hcid : byte_ok cid) by (apply Forall_cons in Hb27 as [Hcid _]; exact Hcid).
  unfold processGenACResponse. rewrite Hok, Hdata. cbn [negb]. cbv zeta.
  rewrite Hget. cbn [JS.strict_eq].
  change (119 =? 128) with false. change (119 =? 119) with true. cbv iota.
  rewrite Hparse. cbn [bind]. rewrite Hf27, Hf26, Hv27, Hx26.
  change (JS.get (cid :: more) 0) with (Some cid).
  rewrite and_byte by first [assumption | lia].
  rewrite to_bytes_of_bytes by assumption.
  eexists. split; [reflexivity|].
  destruct ctx. cbn -[getCryptogramTypeName Z.land].
  repeat split; try reflexivity.
  apply FlowFacts.type_name, Hcid.
Qed.

Lemma genac_format2_general_witness :
  let cs := [Primitive "9F27" (Str "80"); Primitive "9F36" (Str "0001");
             Primitive "9F26" (Str "A1A2A3A4A5A6A7A8");
             Primitive "9F10" (Str "0110A00003220000")] in
  let r := ResponseAPDU.success (template77 cs) in
  ResponseAPDU.isSuccess r = true /\
  Forall valid cs /\ Forall agreeing cs /\
  first_holds "9F27" [128] cs /\
  first_holds "9F26" [161; 162; 163; 164; 165; 166; 167; 168] cs /\
  exists c, processGenACResponse 40 newContext r = Ok (c, true) /\
    cryptogramType c = Some 128 /\
    cryptogram c = Some [161; 162; 163; 164; 165; 166; 167; 168] /\
    getCryptogramTypeName (cryptogramType c) = "ARQC".
Proof.
  intros cs r.
  assert (Hok : ResponseAPDU.isSuccess r = true) by reflexivity.
  assert (Hv : Forall valid cs).
  { repeat (apply Forall_cons_2; [|try apply Forall_nil_2]);
      (split; [|split; [apply ParseHex.to_bytes_ok | reflexivity]]).
    - valid_tag_by [159; 39].
    - valid_tag_by [159; 54].
    - valid_tag_by [159; 38].
    - valid_tag_by [159; 16]. }
  assert (Ha : Forall agreeing cs).
  { repeat (apply Forall_cons_2; [exact I|]). apply Forall_nil_2. }
  assert (H27 : first_holds "9F27" [128] cs).
  { exists [], "9F27", (Str "80"), (tl cs).
    split; [reflexivity|]. split; [reflexivity|].
    split; [reflexivity | apply Forall_nil_2]. }
  assert (H26 : first_holds "9F26" [161; 162; 163; 164; 165; 166; 167; 168] cs).
  { exists [Primitive "9F27" (Str "80"); Primitive "9F36" (Str "0001")],
      "9F26", (Str "A1A2A3A4A5A6A7A8"), [Primitive "9F10" (Str "0110A00003220000")].
    split; [reflexivity|]. split; [reflexivity|]. split; [reflexivity|].
    repeat (apply Forall_cons_2; [reflexivity|]). apply Forall_nil_2. }
  assert (Hl : JS.len (encode cs) < 16777216) by reflexivity.
  assert (Hf : (length (template77 cs) < 40)%nat) by (vm_compute; lia).
  destruct (genac_format2_general 40 newContext r 128 [] _ cs
              Hok eq_refl Hv Ha Hl H27 H26 Hf)
    as (c & Hc & _ & _ & Hty & Hcr & Hn).
  split; [exact Hok|]. split; [exact Hv|]. split; [exact Ha|].
  split; [exact H27|]. split; [exact H26|]. exists c.
  split; [exact Hc|]. split; [exact Hty|]. split; [exact Hcr | exact Hn].
Defined.

End FlowProperties.

(** ** From a response to the next command *)

Module StepFacts.
Import TLVParser TLVBuilder TagSpec TLVSpec EMVProtocolEngine FlowSpec.
Import DOLSpec DOLCodecSpec GPOSpec ReadSpec.

Lemma parse_dol_bytes (l : list (list Z * Z)) :
  Forall pair_ok l -> DOLParser.parse (Hex.of_bytes (dol_bytes l)) = Ok (map dol_entry l).
Proof.
  intros Hl. unfold DOLParser.parse.
  rewrite strip_of_bytes, to_bytes_of_bytes by (apply DOLCodecFacts.dol_bytes_ok, Hl).
  apply (DOLCodecFacts.parse_loop_pairs l Hl _ []). lia.
Qed.

Lemma pairs_length (l : list (list Z * Z)) :
  dol_length (map dol_entry l) = fold_right (fun p acc => snd p + acc) 0 l.
Proof.
  induction l as [|p l IH]; [reflexivity|].
  cbn [map fold_right]. rewrite <- IH. reflexivity.
Qed.

Lemma afl_of_bytes (groups : list (Z * Z * Z * Z)) :
  Forall group_ok groups -> bytes_ok (afl_of groups).
Proof.
  induction 1 as [|[[[b0 f] l] k] groups (Hb & Hf & Hl & Hk) _ IH]; [apply Forall_nil_2|].
  unfold afl_of. cbn [map concat]. fold (afl_of groups).
  apply bytes_ok_app; [|exact IH].
  repeat (apply Forall_cons_2; [assumption|]). apply Forall_nil_2.
Qed.

(** The READ RECORD commands of a context whose AFL was parsed from
    complete groups. *)
Lemma afl_reads (c : TransactionContext) (groups : list (Z * Z * Z * Z)) :
  afl c = Some (parseAFL (afl_of groups)) -> Forall group_ok groups ->
  map (fun x => CommandAPDU.toBuffer (command x)) (generateReadCommands c)
    = concat (map reads_of groups).
Proof.
  intros Hafl Hg. rewrite ReadFacts.generateReadCommands_range, Hafl.
  rewrite ReadFacts.parseAFL_groups by assumption.
  rewrite concat_map, !map_map.
  f_equal. apply map_ext_in. intros g Hin.
  apply ReadFacts.group_reads.
  rewrite Forall_forall in Hg. apply Hg, list_elem_of_In, Hin.
Qed.

End StepFacts.

Section StepProperties.
Import TLVParser TLVBuilder TagSpec TLVSpec TemplateSpec EMVProtocolEngine FlowSpec.
Import DOLSpec DOLCodecSpec GPOSpec ReadSpec.

(** X29: from the SELECT response to the GPO data.  For a response with a
    success status whose data is an FCI template, 6F holding 84 and A5 with
    the label 50 and a PDOL 9F38 made of well-formed tags and length bytes,
    [processSelectResponse] returns true with the entries of that PDOL in
    the context, the kernel and the interoperability issues as they were and
    the DF name under 84 in the card data; and [buildGPOData] on the context
    it returns gives the template 83 around as many bytes as the lengths of
    the PDOL add up to. *)
Theorem pdol_from_select_to_gpo (detect : bool) (fuel : nat) (ctx : TransactionContext)
    (r : ResponseAPDU.t) (aid label : list Z) (l : list (list Z * Z))
    (terminalData : gmap string string) :
  ResponseAPDU.isSuccess r = true ->
  ResponseAPDU.data r = built (fci_calls aid label (dol_bytes l)) ->
  bytes_ok aid -> bytes_ok label -> Forall pair_ok l ->
  JS.len aid <= 255 -> JS.len label <= 255 -> JS.len (dol_bytes l) <= 255 ->
  (800 <= fuel)%nat ->
  exists c data,
    processSelectResponse detect fuel ctx r = Ok (c, true) /\
    pdol c = Some (map dol_entry l) /\
    kernel c = kernel ctx /\ interopIssues c = interopIssues ctx /\
    getCardData c "84" = Some (Hex.of_bytes aid) /\
    buildGPOData c terminalData = Ok ([131] ++ encodeLength (JS.len data) ++ data) /\
    JS.len data = fold_right (fun p acc => snd p + acc) 0 l.
Proof.
  intros Hok Hdata Haid Hlabel Hl Hla Hll Hlp Hfuel.
  pose proof (DOLCodecFacts.dol_bytes_ok l Hl) as Hpdol.
  destruct (FlowFacts.fci_calls_valid aid label (dol_bytes l)) as [Hv Ha]; try assumption.
  pose proof (FlowFacts.built_bound aid label (dol_bytes l) Hla Hll Hlp) as Hbound.
  set (calls := fci_calls aid label (dol_bytes l)) in *.
  assert (Hparse : parse fuel (toHex (built calls)) = Ok (map expected calls)).
  { unfold toHex. apply ParseHex.parse_built; try assumption. lia. }
  assert (Hf38 : exists t, findTag (map expected calls) "9F38" = Some t /\
                   TLVObject.valueHex t = Hex.of_bytes (dol_bytes l)).
  { eexists. split; reflexivity. }
  assert (Hf2A : findTag (map expected calls) "9F2A" = None) by reflexivity.
  assert (Hf6E : findTag (map expected calls) "9F6E" = None) by reflexivity.
  destruct Hf38 as (t38 & Hf38 & Hv38).
  unfold processSelectResponse. rewrite Hok, Hdata. cbn [negb].
  rewrite Hparse. cbn [bind]. rewrite Hf38, Hv38, Hf2A, Hf6E.
  rewrite (StepFacts.parse_dol_bytes l Hl). cbn [bind].
  eexists. exists (concat (map (piece terminalData) (map dol_entry l))).
  split; [reflexivity|].
  pose proof (DOLCodecFacts.dol_entries_sized l Hl) as Hs.
  split; [destruct ctx; reflexivity|]. split; [destruct ctx; reflexivity|].
  split; [destruct ctx; reflexivity|]. split.
  { unfold getCardData. destruct ctx. cbn [cardData set_state logEvent set_log set_pdol
      addCardData set_cardData set_fci].
    rewrite FindFacts.addRecursive_lookup. reflexivity. }
  split.
  - rewrite GPOFacts.buildGPOData_bytes; [destruct ctx; reflexivity|].
    destruct ctx. exact Hs.
  - rewrite DOLCodecFacts.pieces_length by assumption. apply StepFacts.pairs_length.
Qed.

Lemma pdol_from_select_to_gpo_witness :
  let r := ResponseAPDU.success
             (built (fci_calls [160; 0; 0; 0; 3; 16; 16] [86; 73; 83; 65]
                       (dol_bytes [([159; 2], 6); ([159; 26], 2)]))) in
  Forall pair_ok [([159; 2], 6); ([159; 26], 2)] /\
  exists c,
    processSelectResponse true 800 newContext r = Ok (c, true) /\
    pdol c = Some [DOLParser.mkEntry 40706 "9F02" (Some 6);
                   DOLParser.mkEntry 40730 "9F1A" (Some 2)] /\
    buildGPOData c {["9F02" := "0010"]} = Ok [131; 8; 0; 0; 0; 0; 0; 16; 0; 0].
Proof.
  set (l := [([159; 2], 6); ([159; 26], 2)]).
  set (aid := [160; 0; 0; 0; 3; 16; 16]). set (label := [86; 73; 83; 65]).
  set (r := ResponseAPDU.success (built (fci_calls aid label (dol_bytes l)))).
  assert (Hl : Forall pair_ok l).
  { repeat (apply Forall_cons_2;
      [split; [constructor; first [unfold byte_ok; lia | reflexivity]
              | unfold byte_ok; cbn; lia]|]).
    apply Forall_nil_2. }
  assert (Hb : forall x, forallb (fun b => (0 <=? b) && (b <? 256)) x = true -> bytes_ok x).
  { intros x Hx. apply Forall_forall. intros b Hin.
    rewrite forallb_forall in Hx. apply list_elem_of_In, Hx in Hin.
    unfold byte_ok. lia. }
  destruct (pdol_from_select_to_gpo true 800 newContext r aid label l
              {["9F02" := "0010"]} eq_refl eq_refl (Hb aid eq_refl) (Hb label eq_refl) Hl)
    as (c & data & Hc & Hp & _ & _ & _ & Hg & _);
    [vm_compute; discriminate | vm_compute; discriminate | vm_compute; discriminate | lia |].
  split; [exact Hl|]. exists c. split; [exact Hc|]. split; [exact Hp|].
  assert (Hv : processSelectResponse true 800 newContext r = Ok (c, true)) by exact Hc.
  vm_compute in Hv. injection Hv as <-. vm_compute. reflexivity.
Defined.

(** X30: from the GPO response to the READ RECORD commands.  For two
    successful responses that carry a two-byte AIP and an AFL made of
    complete groups, one in Format 1 (80 LL AIP AFL) and one in Format 2, a
    template 77 whose children are any valid objects (three-byte tags
    agreeing), in any order and number, such that the first objects with the
    tags 82 and 94 in document order are children of the template, holding
    the AIP and the AFL: GPO processing returns true and the commands that
    [generateReadCommands] then gives are, serialised, the bytes
    00 B2 record P2 00 for each record of each group in order, the same for
    both formats. *)
Theorem read_commands_after_gpo (fuel : nat) (ctx : TransactionContext)
    (r1 r2 : ResponseAPDU.t) (aipv : list Z) (groups : list (Z * Z * Z * Z))
    (cs : list call) :
  ResponseAPDU.isSuccess r1 = true -> ResponseAPDU.isSuccess r2 = true ->
  ResponseAPDU.data r1 = TLVExamples.gpo_format1 aipv (afl_of groups) ->
  ResponseAPDU.data r2 = template77 cs ->
  JS.len aipv = 2 -> Forall group_ok groups -> JS.len (afl_of groups) <= 253 ->
  Forall valid cs -> Forall agreeing cs -> JS.len (encode cs) < 16777216 ->
  first_holds "82" aipv cs -> first_holds "94" (afl_of groups) cs ->
  (length (template77 cs) < fuel)%nat ->
  exists c1 c2,
    processGPOResponse fuel ctx r1 = Ok (c1, true) /\
    processGPOResponse fuel ctx r2 = Ok (c2, true) /\
    map (fun x => CommandAPDU.toBuffer (command x)) (generateReadCommands c1)
      = concat (map reads_of groups) /\
    map (fun x => CommandAPDU.toBuffer (command x)) (generateReadCommands c2)
      = concat (map reads_of groups).
Proof.
  intros Hok1 Hok2 Hd1 Hd2 Hlen2 Hg HlenN Hv Ha Hlen H82 H94 Hfuel.
  destruct (TemplateFacts.gpo_format1_stored fuel ctx r1 aipv (afl_of groups)
              Hok1 Hd1 Hlen2) as (c1 & H1 & _ & Ha1 & _).
  destruct (TemplateFacts.gpo_format2_stored fuel ctx r2 aipv (afl_of groups) cs
              Hok2 Hd2 Hv Ha Hlen H82 H94 Hfuel) as (c2 & H2 & _ & Ha2 & _).
  exists c1, c2. split; [exact H1|]. split; [exact H2|].
  split; apply StepFacts.afl_reads; assumption.
Qed.

Lemma read_commands_after_gpo_witness :
  let groups := [(8, 1, 2, 1); (16, 1, 1, 0)] in
  let cs := [Primitive "82" (Buf [25; 128]); Primitive "94" (Buf (afl_of groups));
             Primitive "57" (Str "4761739001010010D25122010000")] in
  Forall group_ok groups /\
  Forall valid cs /\ Forall agreeing cs /\
  first_holds "82" [25; 128] cs /\ first_holds "94" (afl_of groups) cs /\
  exists c1 c2,
    processGPOResponse 60 newContext
      (ResponseAPDU.success (TLVExamples.gpo_format1 [25; 128] (afl_of groups)))
      = Ok (c1, true) /\
    processGPOResponse 60 newContext (ResponseAPDU.success (template77 cs))
      = Ok (c2, true) /\
    map (fun x => CommandAPDU.toBuffer (command x)) (generateReadCommands c1)
      = [[0; 178; 1; 12; 0]; [0; 178; 2; 12; 0]; [0; 178; 1; 20; 0]] /\
    map (fun x => CommandAPDU.toBuffer (command x)) (generateReadCommands c2)
      = [[0; 178; 1; 12; 0]; [0; 178; 2; 12; 0]; [0; 178; 1; 20; 0]].
Proof.
  intros groups cs.
  assert (Hg : Forall group_ok groups) by (repeat constructor; unfold byte_ok; lia).
  assert (Hv : Forall valid cs).
  { repeat (apply Forall_cons_2; [|try apply Forall_nil_2]).
    - split; [valid_tag_by [130]|]. split; [|reflexivity].
      repeat (apply Forall_cons_2; [unfold byte_ok; lia|]). apply Forall_nil_2.
    - split; [valid_tag_by [148]|]. split; [|reflexivity].
      apply StepFacts.afl_of_bytes, Hg.
    - split; [valid_tag_by [87]|].
      split; [apply ParseHex.to_bytes_ok | reflexivity]. }
  assert (Ha : Forall agreeing cs).
  { repeat (apply Forall_cons_2; [exact I|]). apply Forall_nil_2. }
  assert (H82 : first_holds "82" [25; 128] cs).
  { exists [], "82", (Buf [25; 128]), (tl cs).
    split; [reflexivity|]. split; [reflexivity|].
    split; [reflexivity | apply Forall_nil_2]. }
  assert (H94 : first_holds "94" (afl_of groups) cs).
  { exists [Primitive "82" (Buf [25; 128])], "94", (Buf (afl_of groups)), (tl (tl cs)).
    split; [reflexivity|]. split; [reflexivity|]. split; [reflexivity|].
    apply Forall_cons_2; [reflexivity | apply Forall_nil_2]. }
  split; [exact Hg|]. split; [exact Hv|]. split; [exact Ha|].
  split; [exact H82|]. split; [exact H94|].
  apply (read_commands_after_gpo 60 newContext
           (ResponseAPDU.success (TLVExamples.gpo_format1 [25; 128] (afl_of groups)))
           (ResponseAPDU.success (template77 cs)) [25; 128] groups cs
           eq_refl eq_refl eq_refl eq_refl eq_refl Hg).
  - vm_compute. discriminate.
  - exact Hv.
  - exact Ha.
  - reflexivity.
  - exact H82.
  - exact H94.
  - apply Nat.ltb_lt. reflexivity.
Defined.

End StepProperties.

(** ** The two formats of the GPO response *)

Section GPOFormats.
Import TLVParser TLVBuilder TagSpec TLVSpec TemplateSpec EMVProtocolEngine.

(** C3, as stated, fails: [findTag] returns the first object with the tag
    in document order, at any depth.  In the template
    77 ( A5 ( 82 = FFFF ), 82 = 1980, 94 = 08010100 ) the first object with
    tag 82 lies inside A5, and in
    77 ( DFA101 = 8202FFFF, 82 = 1980, 94 = 08010100 ) it lies in the value
    of DF A1 01, which the parser takes for constructed.  Both templates
    contain 82 = 1980 and 94 = 08010100, yet the AIP stored is FFFF, where
    Format 1 with the same AIP and AFL stores 1980. *)
Lemma gpo_formats_disagree_on_nested_tags :
  built TLVExamples.gpo_nested_82
    = [119; 16; 165; 4; 130; 2; 255; 255; 130; 2; 25; 128; 148; 4; 8; 1; 1; 0] /\
  built TLVExamples.gpo_hidden_82
    = [119; 18; 223; 161; 1; 4; 130; 2; 255; 255; 130; 2; 25; 128;
       148; 4; 8; 1; 1; 0] /\
  (exists c,
     processGPOResponse 40 newContext
       (ResponseAPDU.success (TLVExamples.gpo_format1 [25; 128] [8; 1; 1; 0]))
       = Ok (c, true) /\
     aip c = Some [25; 128] /\
     afl c = Some [mkAFL 1 (Some 1) (Some 1) (Some 0)]) /\
  (exists c,
     processGPOResponse 40 newContext
       (ResponseAPDU.success (built TLVExamples.gpo_nested_82)) = Ok (c, true) /\
     aip c = Some [255; 255] /\
     afl c = Some [mkAFL 1 (Some 1) (Some 1) (Some 0)]) /\
  (exists c,
     processGPOResponse 40 newContext
       (ResponseAPDU.success (built TLVExamples.gpo_hidden_82)) = Ok (c, true) /\
     aip c = Some [255; 255] /\
     afl c = Some [mkAFL 1 (Some 1) (Some 1) (Some 0)]).
Proof.
  split; [reflexivity|]. split; [reflexivity|].
  split; [|split]; eexists; (split; [vm_compute; reflexivity|]); split; reflexivity.
Qed.

(** C3 (amended): take two successful GPO responses for the same AIP, of
    two bytes, and the same AFL, of N bytes (N + 2 fitting the single length
    byte of Format 1): one in Format 1, [80 LL AIP AFL], and one in Format 2,
    a template 77 whose children are any valid objects (three-byte tags
    agreeing), in any order and number, such that the first object with tag
    82 in document order is a child of the template holding the AIP, and the
    first object with tag 94 is a child of the template holding the AFL.
    Processing either leaves the same [aip] and the same parsed [afl]
    entries in the context, sets the state to READ_APPLICATION_DATA and
    returns true. *)
Theorem gpo_formats_agree (fuel : nat) (ctx : TransactionContext)
    (r1 r2 : ResponseAPDU.t) (aipv aflv : list Z) (cs : list call) :
  ResponseAPDU.isSuccess r1 = true -> ResponseAPDU.isSuccess r2 = true ->
  ResponseAPDU.data r1 = TLVExamples.gpo_format1 aipv aflv ->
  ResponseAPDU.data r2 = template77 cs ->
  JS.len aipv = 2 -> JS.len aflv <= 253 ->
  Forall valid cs -> Forall agreeing cs -> JS.len (encode cs) < 16777216 ->
  first_holds "82" aipv cs -> first_holds "94" aflv cs ->
  (length (template77 cs) < fuel)%nat ->
  exists c1 c2,
    processGPOResponse fuel ctx r1 = Ok (c1, true) /\
    processGPOResponse fuel ctx r2 = Ok (c2, true) /\
    aip c1 = Some aipv /\ aip c2 = Some aipv /\
    afl c1 = Some (parseAFL aflv) /\ afl c2 = Some (parseAFL aflv) /\
    state c1 = READ_APPLICATION_DATA /\ state c2 = READ_APPLICATION_DATA.
Proof.
  intros Hok1 Hok2 Hd1 Hd2 Hlen2 HlenN Hv Ha Hlen H82 H94 Hfuel.
  destruct (TemplateFacts.gpo_format1_stored fuel ctx r1 aipv aflv Hok1 Hd1 Hlen2)
    as (c1 & H1 & Hp1 & Hf1 & Hs1).
  destruct (TemplateFacts.gpo_format2_stored fuel ctx r2 aipv aflv cs
              Hok2 Hd2 Hv Ha Hlen H82 H94 Hfuel)
    as (c2 & H2 & Hp2 & Hf2 & Hs2).
  exists c1, c2.
  split; [exact H1|]. split; [exact H2|].
  split; [exact Hp1|]. split; [exact Hp2|].
  split; [exact Hf1|]. split; [exact Hf2|].
  split; [exact Hs1 | exact Hs2].
Qed.

Lemma gpo_formats_agree_witness :
  let aipv := [25; 128] in
  let aflv := [8; 1; 1; 0] in
  let cs := [Primitive "9F36" (Str "0001"); Primitive "94" (Str "08010100");
             Constructed "A5" [Primitive "50" (Str "56495341")];
             Primitive "82" (Str "1980");
             Primitive "57" (Str "4761739001010010D25122010000")] in
  Forall valid cs /\ Forall agreeing cs /\
  first_holds "82" aipv cs /\ first_holds "94" aflv cs /\
  exists c1 c2,
    processGPOResponse 60 newContext
      (ResponseAPDU.mk (TLVExamples.gpo_format1 aipv aflv) 144 0) = Ok (c1, true) /\
    processGPOResponse 60 newContext
      (ResponseAPDU.mk (template77 cs) 145 16) = Ok (c2, true) /\
    aip c1 = Some aipv /\ aip c2 = Some aipv /\
    afl c1 = Some [mkAFL 1 (Some 1) (Some 1) (Some 0)] /\
    afl c2 = Some [mkAFL 1 (Some 1) (Some 1) (Some 0)] /\
    state c1 = READ_APPLICATION_DATA /\ state c2 = READ_APPLICATION_DATA.
Proof.
  intros aipv aflv cs.
  assert (Hv50 : valid (Primitive "50" (Str "56495341"))).
  { split; [valid_tag_by [80]|]. split; [apply ParseHex.to_bytes_ok | reflexivity]. }
  assert (Hv : Forall valid cs).
  { repeat (apply Forall_cons_2; [|try apply Forall_nil_2]).
    - split; [valid_tag_by [159; 54]|].
      split; [apply ParseHex.to_bytes_ok | reflexivity].
    - split; [valid_tag_by [148]|].
      split; [apply ParseHex.to_bytes_ok | reflexivity].
    - split; [valid_tag_by [165]|]. split; [|reflexivity].
      split; [exact Hv50 | exact I].
    - split; [valid_tag_by [130]|].
      split; [apply ParseHex.to_bytes_ok | reflexivity].
    - split; [valid_tag_by [87]|].
      split; [apply ParseHex.to_bytes_ok | reflexivity]. }
  assert (Ha : Forall agreeing cs).
  { repeat (apply Forall_cons_2; [repeat split|]). apply Forall_nil_2. }
  assert (H82 : first_holds "82" aipv cs).
  { exists [Primitive "9F36" (Str "0001"); Primitive "94" (Str "08010100");
            Constructed "A5" [Primitive "50" (Str "56495341")]],
      "82", (Str "1980"), [Primitive "57" (Str "4761739001010010D25122010000")].
    split; [reflexivity|]. split; [reflexivity|]. split; [reflexivity|].
    repeat (apply Forall_cons_2; [reflexivity|]). apply Forall_nil_2. }
  assert (H94 : first_holds "94" aflv cs).
  { exists [Primitive "9F36" (Str "0001")], "94", (Str "08010100"), (tl (tl cs)).
    split; [reflexivity|]. split; [reflexivity|]. split; [reflexivity|].
    apply Forall_cons_2; [reflexivity | apply Forall_nil_2]. }
  split; [exact Hv|]. split; [exact Ha|]. split; [exact H82|]. split; [exact H94|].
  apply (gpo_formats_agree 60 newContext
           (ResponseAPDU.mk (TLVExamples.gpo_format1 aipv aflv) 144 0)
           (ResponseAPDU.mk (template77 cs) 145 16) aipv aflv cs
           eq_refl eq_refl eq_refl eq_refl eq_refl).
  - unfold JS.len; cbn; lia.
  - exact Hv.
  - exact Ha.
  - reflexivity.
  - exact H82.
  - exact H94.
  - apply Nat.ltb_lt. reflexivity.
Defined.

End GPOFormats.
